(** * Arena tracker: profile synchronisation and the sort/filter view

    A shallow embedding of the TypeScript sources
      - [ImageGrid] of components/image-grid.tsx (in src/app/components/tabs.tsx):
        the sorted view and the confirmation step;
      - [ProfileManager] of src/app/components/profile-manager.tsx:
        load, add, update, delete, toggle, and the search filter;
      - lib/database.ts (src/unnamed/part_002): the access to the remote store
        and the realtime subscription;
      - src/app/lib/storage.ts: the localStorage module;
      - types.ts (src/unnamed/part_001): [Profile];
    and the properties of the specification that are stated about them. *)

From Stdlib Require Import ZArith Lia Sorting.Sorted Permutation.
From stdpp Require Import base option list strings gmap pretty.

Local Open Scope string_scope.
Local Open Scope list_scope.
Local Open Scope nat_scope.

(** ** JavaScript strings and the host-defined string operations *)

(** A JavaScript string is a sequence of code units; it is modelled by [string],
    whose characters are 8-bit code units.  Nothing below depends on the width
    of a code unit. *)

(** [String.prototype.localeCompare] and [String.prototype.toLowerCase] are
    host-defined: their result depends on the collation and case tables of the
    engine.  The interface below is what the program relies on: a comparison
    returning a negative, zero or positive number that is a consistent
    comparator, and a lower-casing that leaves the empty string alone. *)
Class HostStrings := {
  localeCompare : string → string → Z;
  toLowerCase : string → string;
  localeCompare_flip : ∀ a b, (0 < localeCompare a b → localeCompare b a < 0)%Z;
  localeCompare_trans : ∀ a b c,
    (localeCompare a b ≤ 0 → localeCompare b c ≤ 0 → localeCompare a c ≤ 0)%Z;
  toLowerCase_empty : toLowerCase "" = ""
}.

(** [s.includes(sub)] on strings: [sub] occurs in [s] as a contiguous run. *)
Fixpoint str_includes (s sub : string) : bool :=
  String.prefix sub s ||
  match s with
  | EmptyString => false
  | String _ s' => str_includes s' sub
  end.

(** [s.trim()]: white space and line terminators are removed at both ends. *)
Definition is_space (c : Ascii.ascii) : bool :=
  let n := Ascii.nat_of_ascii c in
  (n =? 32)%nat || ((9 <=? n)%nat && (n <=? 13)%nat).

Fixpoint trim_start (s : string) : string :=
  match s with
  | String c s' => if is_space c then trim_start s' else s
  | EmptyString => EmptyString
  end.

Fixpoint trim_end (s : string) : string :=
  match s with
  | EmptyString => EmptyString
  | String c s' =>
      match trim_end s' with
      | EmptyString => if is_space c then EmptyString else String c EmptyString
      | t => String c t
      end
  end.

Definition trim (s : string) : string := trim_end (trim_start s).

(** ** JavaScript arrays, as far as the program uses them *)

(** [arr.includes(x)] on an array of strings. *)
Definition includes (arr : list string) (x : string) : bool :=
  existsb (String.eqb x) arr.

(** [arr.indexOf(x)]: the first index holding [x], [None] standing for [-1]. *)
Fixpoint indexOf (arr : list string) (x : string) : option nat :=
  match arr with
  | [] => None
  | y :: arr' => if String.eqb y x then Some 0 else S <$> indexOf arr' x
  end.

(** [arr.splice(i, 1)]: the array without the element at index [i]. *)
Definition splice1 {A} (i : nat) (arr : list A) : list A :=
  take i arr ++ drop (S i) arr.

(** [arr.push(x)]. *)
Definition push {A} (arr : list A) (x : A) : list A := arr ++ [x].

(** [arr.findIndex(p)], [None] standing for [-1]. *)
Fixpoint findIndex {A} (p : A → bool) (arr : list A) : option nat :=
  match arr with
  | [] => None
  | y :: arr' => if p y then Some 0 else S <$> findIndex p arr'
  end.

(** [arr.sort(cmp)].  ECMAScript requires the sort to be stable and, for a
    consistent comparator, to return the elements in the comparator's order;
    every such sort returns the same array.  It is modelled by the stable
    insertion sort: an element goes in front of the first later element it
    does not compare greater than. *)
Fixpoint sort_insert {A} (cmp : A → A → Z) (x : A) (l : list A) : list A :=
  match l with
  | [] => [x]
  | y :: l' => if (cmp x y <=? 0)%Z then x :: l else y :: sort_insert cmp x l'
  end.

Definition array_sort {A} (cmp : A → A → Z) (arr : list A) : list A :=
  foldr (sort_insert cmp) [] arr.

(** ** The presentation engine: image-grid.tsx and the search filter *)

Record ImageTile := { tile_name : string; tile_src : string }.

Inductive SortMode := Completion | Alphabetical.
Inductive SortDirection := Asc | Desc.

Section View.
Context `{HostStrings}.

(** The comparator handed to [sort] in [ImageGrid] (image-grid.tsx, [sortedImages]). *)
Definition compareTiles (sortMode : SortMode) (sortDirection : SortDirection)
    (activeChampions : list string) (a b : ImageTile) : Z :=
  match sortMode with
  | Completion =>
      let aCompleted := includes activeChampions (tile_name a) in
      let bCompleted := includes activeChampions (tile_name b) in
      if negb (Bool.eqb aCompleted bCompleted) then
        match sortDirection with
        | Asc => if aCompleted then (-1)%Z else 1%Z
        | Desc => if aCompleted then 1%Z else (-1)%Z
        end
      else localeCompare (tile_name a) (tile_name b)
  | Alphabetical =>
      match sortDirection with
      | Asc => localeCompare (tile_name a) (tile_name b)
      | Desc => localeCompare (tile_name b) (tile_name a)
      end
  end.

(** [const sortedImages = [...displayImages].sort(...)]. *)
Definition sortedImages (sortMode : SortMode) (sortDirection : SortDirection)
    (activeChampions : list string) (displayImages : list ImageTile) : list ImageTile :=
  array_sort (compareTiles sortMode sortDirection activeChampions) displayImages.

(** The predicate of [filteredImages] (profile-manager.tsx). *)
Definition matchesSearch (searchQuery : string) (image : ImageTile) : bool :=
  str_includes (toLowerCase (tile_name image)) (toLowerCase searchQuery).

Definition filteredImages (images : list ImageTile) (searchQuery : string) : list ImageTile :=
  List.filter (matchesSearch searchQuery) images.

(** The view a user sees: [ProfileManager] hands [filteredImages] to
    [ImageGrid] as [displayImages]. *)
Definition view (images : list ImageTile) (completed : list string)
    (searchText : string) (sortMode : SortMode) (sortDirection : SortDirection)
    : list ImageTile :=
  sortedImages sortMode sortDirection completed (filteredImages images searchText).

(** The order by name alone, used inside a completion group. *)
Definition compareNames (a b : ImageTile) : Z :=
  localeCompare (tile_name a) (tile_name b).

Definition isCompleted (activeChampions : list string) (image : ImageTile) : bool :=
  includes activeChampions (tile_name image).

Definition nameLe (a b : ImageTile) : Prop :=
  (localeCompare (tile_name a) (tile_name b) ≤ 0)%Z.
End View.

(** ** A concrete host: code-unit order and ASCII lower-casing *)

Definition ascii_lower (c : Ascii.ascii) : Ascii.ascii :=
  let n := Ascii.nat_of_ascii c in
  if (65 <=? n)%nat && (n <=? 90)%nat then Ascii.ascii_of_nat (n + 32) else c.

Fixpoint ascii_toLowerCase (s : string) : string :=
  match s with
  | EmptyString => EmptyString
  | String c s' => String (ascii_lower c) (ascii_toLowerCase s')
  end.

Definition codeUnitCompare (a b : string) : Z :=
  match String.compare a b with
  | Lt => (-1)%Z
  | Eq => 0%Z
  | Gt => 1%Z
  end.

(** ** Profiles (types.ts) *)

(** A [Profile] of types.ts.  In memory the field [firstplacechampions] holds
    a reference to an array object; in a JSON document (a response of the
    remote store, the blob of the local store) it holds the array's content.
    The record is shared by both readings. *)
Record ProfileOf (C : Type) := mkProfile {
  id : string;
  name : string;
  firstplacechampions : C;
  created_at : option string;
  updated_at : option string
}.
Arguments mkProfile {C} _ _ _ _ _.
Arguments id {C} _.
Arguments name {C} _.
Arguments firstplacechampions {C} _.
Arguments created_at {C} _.
Arguments updated_at {C} _.

(** References to array objects, and the store of array objects. *)
Abbreviation loc := nat (only parsing).
Abbreviation Heap := (list (list string)) (only parsing).

(** A profile object of the running page. *)
Abbreviation Profile := (ProfileOf loc) (only parsing).
(** The content of a profile, as it travels in JSON. *)
Abbreviation ProfileData := (ProfileOf (list string)) (only parsing).

Definition heap_get (h : Heap) (l : loc) : list string := default [] (h !! l).

(** What a profile object denotes in a given store. *)
Definition deref (h : Heap) (p : Profile) : ProfileData :=
  mkProfile (id p) (name p) (heap_get h (firstplacechampions p)) (created_at p) (updated_at p).

(** A JSON value received from outside becomes a fresh object with a fresh array. *)
Definition alloc (h : Heap) (d : ProfileData) : Profile * Heap :=
  (mkProfile (id d) (name d) (length h) (created_at d) (updated_at d),
   h ++ [firstplacechampions d]).

Fixpoint alloc_all (h : Heap) (ds : list ProfileData) : list Profile * Heap :=
  match ds with
  | [] => ([], h)
  | d :: ds' =>
      let '(p, h1) := alloc h d in
      let '(ps, h2) := alloc_all h1 ds' in
      (p :: ps, h2)
  end.

(** [.filter(Boolean)] on an array of possibly-null values. *)
Definition filter_Boolean {A} (arr : list (option A)) : list A := omap (λ x, x) arr.

(** ** The remote store (the hosted table behind lib/database.ts) *)

(** A row of the table [profiles]; the two time stamps are instants. *)
Record Row := mkRow {
  row_id : string;
  row_name : string;
  row_champions : list string;
  row_created : nat;
  row_updated : nat
}.

(** The rendering of an instant in a response. *)
Definition iso (t : nat) : string := pretty t.

Definition row_json (r : Row) : ProfileData :=
  mkProfile (row_id r) (row_name r) (row_champions r)
    (Some (iso (row_created r))) (Some (iso (row_updated r))).

Inductive Call :=
  | CallTest
  | CallSelect
  | CallInsert (n : string)
  | CallUpdate (i n : string) (champions : list string)
  | CallDelete (i : string).

(** The store: its rows in insertion order, the next identifier it hands out,
    the clock, whether each of the coming requests succeeds (requests beyond
    the list succeed), and the requests received so far. *)
Record Remote := mkRemote {
  table : list Row;
  next_id : nat;
  clock : nat;
  outcomes : list bool;
  log : list Call
}.

Module Database.

(** A request reaches the store: it is logged, the clock advances, and the
    next outcome says whether the store answers or reports an error. *)
Definition request (c : Call) (r : Remote) : bool * Remote :=
  (hd true (outcomes r),
   mkRemote (table r) (next_id r) (S (clock r)) (tl (outcomes r)) (log r ++ [c])).

Definition with_table (t : list Row) (r : Remote) : Remote :=
  mkRemote t (next_id r) (clock r) (outcomes r) (log r).

Definition compareCreated (a b : Row) : Z :=
  (Z.of_nat (row_created a) - Z.of_nat (row_created b))%Z.

(** [.select('*').order('created_at', { ascending: true })]. *)
Definition ordered (t : list Row) : list Row := array_sort compareCreated t.

Definition has_id (i : string) (r : Row) : bool := String.eqb (row_id r) i.

(** [testConnection]: [false] on an error, [true] otherwise. *)
Definition testConnection (r : Remote) : bool * Remote :=
  request CallTest r.

(** [getProfiles]: the rows by creation time, [[]] on an error. *)
Definition getProfiles (r : Remote) : list ProfileData * Remote :=
  let '(ok, r1) := request CallSelect r in
  if ok then (row_json <$> ordered (table r1), r1) else ([], r1).

(** [createProfile]: inserts [{ name, firstplacechampions: [] }] and returns
    the new row, [null] on an error. *)
Definition createProfile (n : string) (r : Remote) : option ProfileData * Remote :=
  let '(ok, r1) := request (CallInsert n) r in
  if ok then
    let row := mkRow (pretty (next_id r1)) n [] (clock r1) (clock r1) in
    (Some (row_json row),
     mkRemote (table r1 ++ [row]) (S (next_id r1)) (clock r1) (outcomes r1) (log r1))
  else (None, r1).

Definition update_row (p : ProfileData) (now : nat) (r : Row) : Row :=
  if has_id (id p) r
  then mkRow (row_id r) (name p) (firstplacechampions p) (row_created r) now
  else r.

(** [updateProfile]: [.update({...}).eq('id', profile.id).select().single()];
    [single] reports an error unless exactly one row is concerned, and an
    error leaves the table as it was. *)
Definition updateProfile (p : ProfileData) (r : Remote) : option ProfileData * Remote :=
  let '(ok, r1) := request (CallUpdate (id p) (name p) (firstplacechampions p)) r in
  if ok then
    match List.filter (has_id (id p)) (update_row p (clock r1) <$> table r1) with
    | [row] => (Some (row_json row), with_table (update_row p (clock r1) <$> table r1) r1)
    | _ => (None, r1)
    end
  else (None, r1).

(** [deleteProfile]: [.delete().eq('id', id)], [false] on an error. *)
Definition deleteProfile (i : string) (r : Remote) : bool * Remote :=
  let '(ok, r1) := request (CallDelete i) r in
  if ok
  then (true, with_table (List.filter (λ row, negb (has_id i row)) (table r1)) r1)
  else (false, r1).

End Database.

(** ** The local store (lib/storage.ts) *)

(** A JSON document. *)
#[local] Unset Elimination Schemes.
Inductive json :=
  | JNull
  | JString (s : string)
  | JArray (items : list json)
  | JObject (fields : list (string * json)).
#[local] Set Elimination Schemes.

(** The browser side: whether [window] is defined, and [localStorage]. *)
Record Browser := mkBrowser {
  hasWindow : bool;
  localStorage : gmap string json
}.

Module Storage.

Definition RIOT_ID : string := "arena-god-riot-id".
Definition MATCH_CACHE : string := "arena-god-match-cache".
Definition PROFILES : string := "arena-god-profiles".

(** [JSON.stringify] on a profile: absent optional fields are left out. *)
Definition optional_field (k : string) (v : option string) : list (string * json) :=
  match v with
  | Some s => [(k, JString s)]
  | None => []
  end.

Definition stringify_profile (p : ProfileData) : json :=
  JObject ([("id", JString (id p)); ("name", JString (name p));
            ("firstplacechampions", JArray (JString <$> firstplacechampions p))]
           ++ optional_field "created_at" (created_at p)
           ++ optional_field "updated_at" (updated_at p)).

Definition stringify (ps : list ProfileData) : json :=
  JArray (stringify_profile <$> ps).

(** [JSON.parse] read at the type [Profile[]]; [None] when the document is
    not a collection of profiles. *)
Fixpoint field (k : string) (fields : list (string * json)) : option json :=
  match fields with
  | [] => None
  | (k', v) :: rest => if String.eqb k' k then Some v else field k rest
  end.

Definition as_string (j : json) : option string :=
  match j with
  | JString s => Some s
  | _ => None
  end.

Definition as_strings (j : json) : option (list string) :=
  match j with
  | JArray items => mapM as_string items
  | _ => None
  end.

Definition optional_string (k : string) (fields : list (string * json))
    : option (option string) :=
  match field k fields with
  | None => Some None
  | Some JNull => Some None
  | Some (JString s) => Some (Some s)
  | Some _ => None
  end.

Definition parse_profile (j : json) : option ProfileData :=
  match j with
  | JObject fields =>
      i ← field "id" fields ≫= as_string;
      n ← field "name" fields ≫= as_string;
      cs ← field "firstplacechampions" fields ≫= as_strings;
      c ← optional_string "created_at" fields;
      u ← optional_string "updated_at" fields;
      Some (mkProfile i n cs c u)
  | _ => None
  end.

Definition parse (j : json) : option (list ProfileData) :=
  match j with
  | JArray items => mapM parse_profile items
  | _ => None
  end.

(** [getProfiles]. *)
Definition getProfiles (b : Browser) : option (list ProfileData) :=
  if negb (hasWindow b) then Some []
  else match localStorage b !! PROFILES with
       | Some stored => parse stored
       | None => Some []
       end.

(** [setProfiles]. *)
Definition setProfiles (ps : list ProfileData) (b : Browser) : Browser :=
  if negb (hasWindow b) then b
  else mkBrowser (hasWindow b) (<[PROFILES := stringify ps]> (localStorage b)).

(** [getProfile]. *)
Definition getProfile (i : string) (b : Browser) : option (option ProfileData) :=
  ps ← getProfiles b;
  Some (List.find (λ p, String.eqb (id p) i) ps).

(** [updateProfile]. *)
Definition updateProfile (p : ProfileData) (b : Browser) : option Browser :=
  ps ← getProfiles b;
  Some (setProfiles
          (match findIndex (λ q, String.eqb (id q) (id p)) ps with
           | Some index => <[index := p]> ps
           | None => push ps p
           end) b).

(** [deleteProfile]. *)
Definition deleteProfile (i : string) (b : Browser) : option Browser :=
  ps ← getProfiles b;
  Some (setProfiles (List.filter (λ p, negb (String.eqb (id p) i)) ps) b).

End Storage.

(** ** The synchronisation controller: the [ProfileManager] component *)

(** The component's state variables ([useState]). *)
Record State := mkState {
  profiles : list Profile;
  selectedProfile : option Profile;
  editingProfile : option Profile;
  showAddForm : bool;
  newProfileName : string;
  searchQuery : string;
  loading : bool;
  connectionStatus : string;
  showDeleteConfirm : option string
}.

Definition setProfiles (v : list Profile) (st : State) : State :=
  mkState v (selectedProfile st) (editingProfile st) (showAddForm st) (newProfileName st)
    (searchQuery st) (loading st) (connectionStatus st) (showDeleteConfirm st).
Definition setSelectedProfile (v : option Profile) (st : State) : State :=
  mkState (profiles st) v (editingProfile st) (showAddForm st) (newProfileName st)
    (searchQuery st) (loading st) (connectionStatus st) (showDeleteConfirm st).
Definition setEditingProfile (v : option Profile) (st : State) : State :=
  mkState (profiles st) (selectedProfile st) v (showAddForm st) (newProfileName st)
    (searchQuery st) (loading st) (connectionStatus st) (showDeleteConfirm st).
Definition setShowAddForm (v : bool) (st : State) : State :=
  mkState (profiles st) (selectedProfile st) (editingProfile st) v (newProfileName st)
    (searchQuery st) (loading st) (connectionStatus st) (showDeleteConfirm st).
Definition setNewProfileName (v : string) (st : State) : State :=
  mkState (profiles st) (selectedProfile st) (editingProfile st) (showAddForm st) v
    (searchQuery st) (loading st) (connectionStatus st) (showDeleteConfirm st).
Definition setLoading (v : bool) (st : State) : State :=
  mkState (profiles st) (selectedProfile st) (editingProfile st) (showAddForm st)
    (newProfileName st) (searchQuery st) v (connectionStatus st) (showDeleteConfirm st).
Definition setConnectionStatus (v : string) (st : State) : State :=
  mkState (profiles st) (selectedProfile st) (editingProfile st) (showAddForm st)
    (newProfileName st) (searchQuery st) (loading st) v (showDeleteConfirm st).

(** The state on the first render. *)
Definition initialState : State :=
  mkState [] None None false "" "" true "Testing..." None.

(** Everything a handler can read or change: the state variables, the store of
    array objects, the remote store, and the browser's local store. *)
Record Sys := mkSys {
  ui : State;
  heap : Heap;
  remote : Remote;
  browser : Browser
}.

Definition with_ui (f : State → State) (s : Sys) : Sys :=
  mkSys (f (ui s)) (heap s) (remote s) (browser s).
Definition with_heap (h : Heap) (s : Sys) : Sys :=
  mkSys (ui s) h (remote s) (browser s).
Definition with_remote (r : Remote) (s : Sys) : Sys :=
  mkSys (ui s) (heap s) r (browser s).

(** The profiles of the page, read through the store of arrays. *)
Definition shownProfiles (s : Sys) : list ProfileData := deref (heap s) <$> profiles (ui s).
Definition shownSelected (s : Sys) : option ProfileData := deref (heap s) <$> selectedProfile (ui s).

Module Manager.

(** The handlers are [async] functions on a single thread.  Each is modelled
    as running from its first statement to its last with no other handler in
    between: a function from the system before to the system after.  The
    state variables a handler reads are those of the render that created it,
    here those of the system it starts from.  The steps [await_...] are the
    requests of a handler: a handler that another one overtakes between two
    requests is the sequence of its steps with the other handler in between. *)

(** [await getProfiles()]: the response becomes fresh objects. *)
Definition await_getProfiles (s : Sys) : list Profile * Sys :=
  let '(data, r1) := Database.getProfiles (remote s) in
  let '(ps, h1) := alloc_all (heap s) data in
  (ps, with_heap h1 (with_remote r1 s)).

(** [await createProfile(name)]. *)
Definition await_createProfile (n : string) (s : Sys) : option Profile * Sys :=
  let '(data, r1) := Database.createProfile n (remote s) in
  match data with
  | Some d => let '(p, h1) := alloc (heap s) d in (Some p, with_heap h1 (with_remote r1 s))
  | None => (None, with_remote r1 s)
  end.

(** [await updateProfile(profile)]: the request carries the name and the
    array's content at the time of the call. *)
Definition await_updateProfile (p : Profile) (s : Sys) : option ProfileData * Sys :=
  let '(data, r1) := Database.updateProfile (deref (heap s) p) (remote s) in
  (data, with_remote r1 s).

(** [await deleteProfile(id)]. *)
Definition await_deleteProfile (i : string) (s : Sys) : bool * Sys :=
  let '(ok, r1) := Database.deleteProfile i (remote s) in
  (ok, with_remote r1 s).

(** [loadProfiles]. *)
Definition loadProfiles (s : Sys) : Sys :=
  let s0 := with_ui (setLoading true) s in
  let '(storedProfiles, s1) := await_getProfiles s0 in
  let s4 :=
    if (length storedProfiles =? 0)%nat then
      let '(me, s2) := await_createProfile "Me" s1 in
      let '(friend, s3) := await_createProfile "My Friend" s2 in
      let defaultProfiles := filter_Boolean [me; friend] in
      with_ui (setSelectedProfile (head defaultProfiles))
        (with_ui (setProfiles defaultProfiles) s3)
    else
      with_ui (setSelectedProfile (head storedProfiles))
        (with_ui (setProfiles storedProfiles) s1) in
  with_ui (setLoading false) s4.

(** The first half of the mount effect: the connection test and what follows it. *)
Definition mountEffect (s : Sys) : Sys :=
  let '(isConnected, r1) := Database.testConnection (remote s) in
  let s1 := with_remote r1 s in
  if isConnected
  then loadProfiles (with_ui (setConnectionStatus "Connected") s1)
  else with_ui (setLoading false) (with_ui (setConnectionStatus "Connection failed") s1).

(** [handleAddProfile]. *)
Definition handleAddProfile (s : Sys) : Sys :=
  let newName := newProfileName (ui s) in
  if String.eqb (trim newName) "" then s
  else
    let '(newProfile, s1) := await_createProfile (trim newName) s in
    match newProfile with
    | Some p =>
        let s2 := with_ui (setShowAddForm false) (with_ui (setNewProfileName "") s1) in
        let '(updatedProfiles, s3) := await_getProfiles s2 in
        with_ui (setSelectedProfile (Some p)) (with_ui (setProfiles updatedProfiles) s3)
    | None => s1
    end.

(** [handleUpdateProfile]. *)
Definition handleUpdateProfile (profile : Profile) (s : Sys) : Sys :=
  let '(updated, s1) := await_updateProfile profile s in
  match updated with
  | Some _ =>
      let s2 := with_ui (setEditingProfile None) s1 in
      let '(updatedProfiles, s3) := await_getProfiles s2 in
      let s4 := with_ui (setProfiles updatedProfiles) s3 in
      match List.find (λ p, String.eqb (id p) (id profile)) updatedProfiles with
      | Some updatedSelected => with_ui (setSelectedProfile (Some updatedSelected)) s4
      | None => s4
      end
  | None => s1
  end.

(** [handleDeleteProfile]. *)
Definition handleDeleteProfile (i : string) (s : Sys) : Sys :=
  if (length (profiles (ui s)) <=? 1)%nat then s
  else
    let '(success, s1) := await_deleteProfile i s in
    if success then
      let '(updatedProfiles, s2) := await_getProfiles s1 in
      let s3 := with_ui (setProfiles updatedProfiles) s2 in
      match selectedProfile (ui s) with
      | Some sel =>
          if String.eqb (id sel) i
          then with_ui (setSelectedProfile (head updatedProfiles)) s3
          else s3
      | None => s3
      end
    else s1.

(** The array operation of [toggleChampionWin]: [splice] at the first index
    of the champion if there is one, [push] otherwise. *)
Definition toggleChampion (champion : string) (champions : list string) : list string :=
  match indexOf champions champion with
  | Some index => splice1 index champions
  | None => push champions champion
  end.

(** [toggleChampionWin].  [{ ...selectedProfile }] copies the fields of the
    selected profile into a new object: the copy's [firstplacechampions] is
    the same array object, so [splice] and [push] act on the array that the
    selected profile holds. *)
Definition toggleChampionWin (champion : string) (s : Sys) : Sys :=
  match selectedProfile (ui s) with
  | None => s
  | Some sel =>
      let updatedProfile : Profile :=
        mkProfile (id sel) (name sel) (firstplacechampions sel) (created_at sel) (updated_at sel) in
      let arr := firstplacechampions updatedProfile in
      let s1 := with_heap (<[arr := toggleChampion champion (heap_get (heap s) arr)]> (heap s)) s in
      handleUpdateProfile updatedProfile s1
  end.

(** The callback given to [subscribeToProfiles].  The effect that installs it
    runs once, on the first render, so the [selectedProfile] it reads is the
    one of the first render: [null]. *)
Definition onRealtimeUpdate (updatedProfiles : list Profile) (s : Sys) : Sys :=
  let s1 := with_ui (setProfiles updatedProfiles) s in
  match selectedProfile initialState with
  | Some sel =>
      match List.find (λ p, String.eqb (id p) (id sel)) updatedProfiles with
      | Some updated => with_ui (setSelectedProfile (Some updated)) s1
      | None => with_ui (setSelectedProfile (head updatedProfiles)) s1
      end
  | None =>
      if (0 <? length updatedProfiles)%nat
      then with_ui (setSelectedProfile (head updatedProfiles)) s1
      else s1
  end.

(** [editingProfile?.id === selectedProfile.id]: the name of the selected
    profile is being edited, and the page shows the input with [Save] and
    [Cancel] in place of [Edit Name]. *)
Definition editing (st : State) : option Profile :=
  match editingProfile st, selectedProfile st with
  | Some e, Some sel => if String.eqb (id e) (id sel) then Some e else None
  | _, _ => None
  end.

(** What a user, or the store's notification, can make the component do.
    [EditName] is the button that stores the selected profile, the object
    itself, as [editingProfile]; [TypeName] is the input, which replaces it
    by [{ ...editingProfile, name }], a copy holding the same array; [Save]
    hands [editingProfile] to [handleUpdateProfile]; [CancelEdit] clears it.
    The four exist on the page that shows them only. *)
Inductive Action :=
  | Load
  | Add (newName : string)
  | EditName
  | TypeName (value : string)
  | Save
  | CancelEdit
  | Toggle (champion : string)
  | Delete (i : string)
  | Select (index : nat)
  | Realtime.

Definition perform (a : Action) (s : Sys) : Sys :=
  match a with
  | Load => loadProfiles s
  | Add newName => handleAddProfile (with_ui (setNewProfileName newName) s)
  | EditName =>
      match selectedProfile (ui s), editing (ui s) with
      | Some sel, None => with_ui (setEditingProfile (Some sel)) s
      | _, _ => s
      end
  | TypeName value =>
      match editing (ui s) with
      | Some e =>
          with_ui (setEditingProfile
                     (Some (mkProfile (id e) value (firstplacechampions e)
                              (created_at e) (updated_at e)))) s
      | None => s
      end
  | Save =>
      match editing (ui s) with
      | Some e => handleUpdateProfile e s
      | None => s
      end
  | CancelEdit =>
      match editing (ui s) with
      | Some _ => with_ui (setEditingProfile None) s
      | None => s
      end
  | Toggle champion => toggleChampionWin champion s
  | Delete i => handleDeleteProfile i s
  | Select index =>
      match profiles (ui s) !! index with
      | Some p => with_ui (setSelectedProfile (Some p)) s
      | None => s
      end
  | Realtime =>
      let '(updatedProfiles, s1) := await_getProfiles s in
      onRealtimeUpdate updatedProfiles s1
  end.

Definition performAll (acts : list Action) (s : Sys) : Sys :=
  foldl (λ s a, perform a s) s acts.

End Manager.

(** ** The realtime subscription ([subscribeToProfiles], lib/database.ts) *)

Module Subscription.

(** The variable [isProcessing] of the closure, whether the channel is still
    joined, the number of [getProfiles] requests awaiting their response, and
    the number of requests started so far. *)
Record SubState := mkSub {
  isProcessing : bool;
  joined : bool;
  inFlight : nat;
  started : nat
}.

(** What can happen to a subscription: the channel delivers a change
    (INSERT, UPDATE or DELETE: the three handlers all call [processUpdate]),
    an awaited [getProfiles] settles ([None]: the promise is rejected), or the
    holder of the handle calls [unsubscribe]. *)
Inductive Event :=
  | Notification
  | FetchSettled (result : option (list ProfileData))
  | Unsubscribe.

(** The state when [subscribeToProfiles] returns. *)
Definition subscribeToProfiles : SubState := mkSub false true 0 0.

(** [processUpdate] up to its [await]. *)
Definition processUpdate_start (st : SubState) : SubState :=
  if isProcessing st then st
  else mkSub true (joined st) (S (inFlight st)) (S (started st)).

(** [processUpdate] from its [await] on: the callback on a result, the
    [catch] on a rejection, and [finally]. The output lists the calls of the
    callback. *)
Definition processUpdate_resume (result : option (list ProfileData)) (st : SubState)
    : SubState * list (list ProfileData) :=
  (mkSub false (joined st) (pred (inFlight st)) (started st),
   match result with
   | Some fetched => [fetched]
   | None => []
   end).

(** [unsubscribe] on the channel: it is left, and delivers nothing any more. *)
Definition unsubscribe (st : SubState) : SubState :=
  mkSub (isProcessing st) false (inFlight st) (started st).

Definition step (st : SubState) (e : Event) : SubState * list (list ProfileData) :=
  match e with
  | Notification => if joined st then (processUpdate_start st, []) else (st, [])
  | FetchSettled result =>
      if (inFlight st =? 0)%nat then (st, []) else processUpdate_resume result st
  | Unsubscribe => (unsubscribe st, [])
  end.

Fixpoint run (st : SubState) (events : list Event) : SubState * list (list ProfileData) :=
  match events with
  | [] => (st, [])
  | e :: rest =>
      let '(st1, calls1) := step st e in
      let '(st2, calls2) := run st1 rest in
      (st2, calls1 ++ calls2)
  end.

(** The calls of the callback that a run makes. *)
Definition callbacks (st : SubState) (events : list Event) : list (list ProfileData) :=
  (run st events).2.

Definition after (st : SubState) (events : list Event) : SubState :=
  (run st events).1.

(** The flag [isProcessing] says whether a request is awaiting its response. *)
Definition consistent (st : SubState) : Prop :=
  inFlight st = if isProcessing st then 1 else 0.

End Subscription.

(** ** The statements of the specification that the program does not meet *)

(** Unsubscribing silences the callback, whatever happened before. *)
Definition unsubscribe_silences_callback : Prop :=
  ∀ before later : list Subscription.Event,
    Subscription.callbacks
      (Subscription.unsubscribe (Subscription.after Subscription.subscribeToProfiles before))
      later = [].

(** A failed connection test makes the page show the profiles of the local store. *)
Definition failed_connection_uses_local_store : Prop :=
  ∀ (s : Sys) (stored : list ProfileData),
    hd true (outcomes (remote s)) = false →
    Storage.getProfiles (browser s) = Some stored →
    shownProfiles (Manager.mountEffect s) = stored.

(** [load] as the specification describes it: two defaults on an empty
    collection, the collection by creation time otherwise, and on a failed
    fetch an empty collection with the connection reported as failed. *)
Definition load_as_specified : Prop :=
  ∀ s : Sys,
    (hd true (outcomes (remote s)) = true → table (remote s) = [] →
       name <$> shownProfiles (Manager.loadProfiles s) = ["Me"; "My Friend"]) ∧
    (hd true (outcomes (remote s)) = true → table (remote s) ≠ [] →
       shownProfiles (Manager.loadProfiles s)
       = row_json <$> Database.ordered (table (remote s))) ∧
    (hd true (outcomes (remote s)) = false →
       shownProfiles (Manager.loadProfiles s) = [] ∧
       connectionStatus (ui (Manager.loadProfiles s)) = "Connection failed").

(** A toggle whose update request fails leaves the selected profile's
    completed champions as they were. *)
Definition failed_toggle_changes_nothing : Prop :=
  ∀ (s : Sys) (champion : string),
    hd true (outcomes (remote s)) = false →
    shownSelected (Manager.toggleChampionWin champion s) = shownSelected s.


(** ** The invariants of a session *)

Definition storeIds (r : Remote) : list string := row_id <$> table r.
Definition pageIds (s : Sys) : list string := id <$> profiles (ui s).

(** The identifiers of the rows are distinct and were handed out by the store. *)
Definition store_wf (r : Remote) : Prop :=
  NoDup (storeIds r) ∧
  ∀ i, i ∈ storeIds r → ∃ k, k < next_id r ∧ i = pretty k.

(** The store is well formed and not empty, and the profiles of the page are
    distinct profiles of the store. *)
Definition session_inv (s : Sys) : Prop :=
  store_wf (remote s) ∧ table (remote s) ≠ [] ∧
  NoDup (pageIds s) ∧ pageIds s ⊆ storeIds (remote s).

(** Every request succeeds, and the page shows a profile. *)
Definition reliable_and_shown (s : Sys) : Prop :=
  outcomes (remote s) = [] ∧ profiles (ui s) ≠ [].

(** ** Concrete situations *)

Definition with_browser (b : Browser) (s : Sys) : Sys :=
  mkSys (ui s) (heap s) (remote s) b.

(** A page on its first render, in front of a store holding [rows] whose
    coming requests have the outcomes [o], in a browser [b]. *)
Definition firstRender (o : list bool) (rows : list Row) (b : Browser) : Sys :=
  mkSys initialState [] (mkRemote rows (length rows) 1 o []) b.

Definition emptyBrowser : Browser := mkBrowser true ∅.

Definition zedRow : Row := mkRow "0" "Me" ["Zed"] 0 0.

(** The page after it loaded the single profile of [zedRow] and selected it;
    the next request to the store will fail. *)
Definition zedObject : Profile := mkProfile "0" "Me" 0 (Some "0") (Some "0").
Definition zedPage : Sys :=
  mkSys (mkState [zedObject] (Some zedObject) None false "" "" false "Connected" None)
        [["Zed"]]
        (mkRemote [zedRow] 1 2 [false] [CallTest; CallSelect])
        emptyBrowser.

(** A browser whose local store holds one profile. *)
Definition zedData : ProfileData := mkProfile "0" "Me" ["Zed"] (Some "0") (Some "0").
Definition browserWithZed : Browser := Storage.setProfiles [zedData] emptyBrowser.

(** The page after it loaded two profiles; the first one is selected. *)
Definition twoProfilesPage : Sys :=
  Manager.loadProfiles
    (firstRender [] [mkRow "0" "Me" [] 0 0; mkRow "1" "My Friend" ["Zed"] 1 1] emptyBrowser).

(** ** The confirmation step of [ImageGrid] (image-grid.tsx) *)

Module Grid.

(** ["add" | "remove"]. *)
Inductive ConfirmAction := AddChampion | RemoveChampion.

Record ConfirmationState := mkConfirmation {
  show : bool;
  championName : string;
  action : ConfirmAction
}.

(** The state variables of [ImageGrid], the number of audio elements in
    [audioRefs.current], and the number of sounds started so far.  Which of
    the audio elements [Math.random] picks is not modelled. *)
Record GridState := mkGrid {
  mounted : bool;
  sortMode : SortMode;
  sortDirection : SortDirection;
  confirmation : ConfirmationState;
  audioRefs : nat;
  soundsPlayed : nat
}.

Definition closed : ConfirmationState := mkConfirmation false "" AddChampion.

(** The state on the first render, before the effect has run. *)
Definition initialGrid : GridState := mkGrid false Alphabetical Asc closed 0 0.

Definition setConfirmation (c : ConfirmationState) (g : GridState) : GridState :=
  mkGrid (mounted g) (sortMode g) (sortDirection g) c (audioRefs g) (soundsPlayed g).

(** The effect of the first render: the three sound files are loaded. *)
Definition mountGrid (g : GridState) : GridState :=
  mkGrid true (sortMode g) (sortDirection g) (confirmation g) 3 (soundsPlayed g).

(** The button that reverses the direction. *)
Definition toggleSortDirection (g : GridState) : GridState :=
  mkGrid (mounted g) (sortMode g)
    (match sortDirection g with Asc => Desc | Desc => Asc end)
    (confirmation g) (audioRefs g) (soundsPlayed g).

(** [playRandomSound]: nothing without audio elements, one sound otherwise. *)
Definition playRandomSound (g : GridState) : GridState :=
  if audioRefs g =? 0 then g
  else mkGrid (mounted g) (sortMode g) (sortDirection g) (confirmation g)
         (audioRefs g) (S (soundsPlayed g)).

(** [handleCircleClick]. *)
Definition handleCircleClick (activeChampions : list string) (name : string)
    (g : GridState) : GridState :=
  let isCompleted := includes activeChampions name in
  setConfirmation
    (mkConfirmation true name (if isCompleted then RemoveChampion else AddChampion)) g.

(** [confirmToggle]; [onChampionToggle] is an optional property. *)
Definition confirmToggle (onChampionToggle : option (string → Sys → Sys))
    (g : GridState) (s : Sys) : GridState * Sys :=
  match onChampionToggle with
  | Some toggle =>
      let s1 := toggle (championName (confirmation g)) s in
      let g1 := match action (confirmation g) with
                | AddChampion => playRandomSound g
                | RemoveChampion => g
                end in
      (setConfirmation closed g1, s1)
  | None => (setConfirmation closed g, s)
  end.

(** [cancelToggle]. *)
Definition cancelToggle (g : GridState) : GridState := setConfirmation closed g.

(** [completedCount] and [totalCount]. *)
Definition completedCount (activeChampions : list string) : nat := length activeChampions.
Definition totalCount (images : list ImageTile) : nat := length images.

End Grid.

(** The properties that [ProfileManager] hands to [ImageGrid]:
    [selectedChampions] is the array of the selected profile,
    [onChampionToggle] is [toggleChampionWin]. *)
Definition selectedChampions (s : Sys) : list string :=
  match selectedProfile (ui s) with
  | Some sel => heap_get (heap s) (firstplacechampions sel)
  | None => []
  end.

(** A string made of white space only. *)
Fixpoint all_space (s : string) : bool :=
  match s with
  | EmptyString => true
  | String c s' => is_space c && all_space s'
  end.

(** A string of ASCII characters; on these [trim] and [is_space] are the
    host's, which beyond ASCII knows further white space. *)
Fixpoint ascii_only (s : string) : bool :=
  match s with
  | EmptyString => true
  | String c s' => (Ascii.nat_of_ascii c <? 128) && ascii_only s'
  end.

(** ** Champion progress (types.ts and lib/database.ts) *)

Module Progress.

(** [ChampionProgress] of types.ts. *)
Record ChampionProgress := mkProgress {
  id : string;
  profile_id : string;
  champion_name : string;
  is_completed : bool;
  created_at : option string;
  updated_at : option string
}.

Inductive Call :=
  | CallSelectProfile (profileId : string)
  | CallSelectSingle (profileId championName : string)
  | CallUpdate (i : string) (isCompleted : bool)
  | CallInsert (profileId championName : string) (isCompleted : bool).

(** The table [champion_progress] of the remote store, with the same
    conventions as for the table of profiles. *)
Record Store := mkStore {
  rows : list ChampionProgress;
  next_id : nat;
  clock : nat;
  outcomes : list bool;
  log : list Call
}.

Definition request (c : Call) (st : Store) : bool * Store :=
  (hd true (outcomes st),
   mkStore (rows st) (next_id st) (S (clock st)) (tl (outcomes st)) (log st ++ [c])).

Definition with_rows (rs : list ChampionProgress) (st : Store) : Store :=
  mkStore rs (next_id st) (clock st) (outcomes st) (log st).

Definition of_profile (profileId : string) (row : ChampionProgress) : bool :=
  String.eqb (profile_id row) profileId.

(** [.eq('profile_id', profileId).eq('champion_name', championName)]. *)
Definition is_key (profileId championName : string) (row : ChampionProgress) : bool :=
  String.eqb (profile_id row) profileId && String.eqb (champion_name row) championName.

(** [getChampionProgress]: the rows of the profile, [[]] on an error. *)
Definition getChampionProgress (profileId : string) (st : Store)
    : list ChampionProgress * Store :=
  let '(ok, st1) := request (CallSelectProfile profileId) st in
  if ok then (List.filter (of_profile profileId) (rows st1), st1) else ([], st1).

(** [.single()]: the row when exactly one row is selected, an error otherwise. *)
Definition single (selected : list ChampionProgress) : option ChampionProgress :=
  match selected with
  | [row] => Some row
  | _ => None
  end.

Definition set_completed (i : string) (isCompleted : bool) (now : nat)
    (row : ChampionProgress) : ChampionProgress :=
  if String.eqb (id row) i
  then mkProgress (id row) (profile_id row) (champion_name row) isCompleted
         (created_at row) (Some (iso now))
  else row.

(** [toggleChampionProgress]: the error of the first request is not looked
    at, only its data. *)
Definition toggleChampionProgress (profileId championName : string) (isCompleted : bool)
    (st : Store) : bool * Store :=
  let '(ok, st1) := request (CallSelectSingle profileId championName) st in
  let existing :=
    if ok then single (List.filter (is_key profileId championName) (rows st1)) else None in
  match existing with
  | Some found =>
      let '(ok2, st2) := request (CallUpdate (id found) isCompleted) st1 in
      if ok2
      then (true, with_rows (set_completed (id found) isCompleted (clock st2) <$> rows st2) st2)
      else (false, st2)
  | None =>
      let '(ok2, st2) := request (CallInsert profileId championName isCompleted) st1 in
      if ok2
      then (true,
            mkStore
              (rows st2 ++ [mkProgress (pretty (next_id st2)) profileId championName
                              isCompleted (Some (iso (clock st2))) (Some (iso (clock st2)))])
              (S (next_id st2)) (clock st2) (outcomes st2) (log st2))
      else (false, st2)
  end.

(** [subscribeToChampionProgress]: whether the channel is joined, and the
    numbers of [getChampionProgress] requests awaiting their response and
    started so far.  Every change calls [getChampionProgress(profileId)] and
    hands the result to the callback. *)
Record SubState := mkSub {
  joined : bool;
  inFlight : nat;
  started : nat
}.

Inductive Event :=
  | Notification
  | FetchSettled (result : list ChampionProgress)
  | Unsubscribe.

Definition subscribeToChampionProgress : SubState := mkSub true 0 0.

Definition step (st : SubState) (e : Event) : SubState * list (list ChampionProgress) :=
  match e with
  | Notification =>
      if joined st then (mkSub true (S (inFlight st)) (S (started st)), []) else (st, [])
  | FetchSettled result =>
      if inFlight st =? 0 then (st, [])
      else (mkSub (joined st) (pred (inFlight st)) (started st), [result])
  | Unsubscribe => (mkSub false (inFlight st) (started st), [])
  end.

Fixpoint run (st : SubState) (events : list Event)
    : SubState * list (list ChampionProgress) :=
  match events with
  | [] => (st, [])
  | e :: rest =>
      let '(st1, calls1) := step st e in
      let '(st2, calls2) := run st1 rest in
      (st2, calls1 ++ calls2)
  end.

End Progress.

(** A row of champion progress: Ahri, not completed, for the profile "p1". *)
Definition ahriDone : Progress.ChampionProgress :=
  Progress.mkProgress "0" "p1" "Ahri" false None None.

(** * Properties *)

(** ** Arrays: [sort] *)

Section Sort.
Context {A : Type} (cmp : A → A → Z).

Lemma sort_insert_perm (x : A) (l : list A) : sort_insert cmp x l ≡ₚ x :: l.
Proof.
  induction l as [|y l IH]; simpl; [done|].
  destruct (cmp x y <=? 0)%Z; [done|].
  rewrite IH. apply Permutation_swap.
Qed.

Lemma array_sort_perm (l : list A) : array_sort cmp l ≡ₚ l.
Proof.
  induction l as [|x l IH]; simpl; [done|].
  unfold array_sort in *. simpl. rewrite sort_insert_perm. by f_equiv.
Qed.

Lemma array_sort_cons (x : A) (l : list A) :
  array_sort cmp (x :: l) = sort_insert cmp x (array_sort cmp l).
Proof. reflexivity. Qed.

Lemma array_sort_length (l : list A) : length (array_sort cmp l) = length l.
Proof. apply Permutation_length, array_sort_perm. Qed.

(** With a consistent comparator the result is in the comparator's order. *)
Hypothesis cmp_flip : ∀ a b, (0 < cmp a b → cmp b a < 0)%Z.
Hypothesis cmp_trans : ∀ a b c, (cmp a b ≤ 0 → cmp b c ≤ 0 → cmp a c ≤ 0)%Z.

Lemma sort_insert_sorted (x : A) (l : list A) :
  StronglySorted (λ a b, (cmp a b ≤ 0)%Z) l →
  StronglySorted (λ a b, (cmp a b ≤ 0)%Z) (sort_insert cmp x l).
Proof.
  induction 1 as [|y l Hs IH Hy]; simpl.
  - repeat constructor.
  - destruct (Z.leb_spec (cmp x y) 0) as [Hle|Hgt].
    + constructor; [by constructor|].
      constructor; [done|].
      eapply Forall_impl; [exact Hy|]. intros z Hz. by eapply cmp_trans.
    + constructor; [done|].
      rewrite sort_insert_perm. constructor; [|done].
      apply cmp_flip in Hgt. lia.
Qed.

Lemma array_sort_sorted (l : list A) :
  StronglySorted (λ a b, (cmp a b ≤ 0)%Z) (array_sort cmp l).
Proof.
  induction l as [|x l IH]; [constructor|].
  rewrite array_sort_cons. by apply sort_insert_sorted.
Qed.

End Sort.

(** Inserting only looks at the comparisons with the element inserted. *)
Lemma sort_insert_ext {A} (cmp1 cmp2 : A → A → Z) (x : A) (l : list A) :
  Forall (λ y, cmp1 x y = cmp2 x y) l →
  sort_insert cmp1 x l = sort_insert cmp2 x l.
Proof.
  induction 1 as [|y l Hy _ IH]; simpl; [done|].
  rewrite Hy, IH. done.
Qed.

(** A comparator that puts one group in front of the other and orders each
    group by [inner] sorts group by group. *)
Section Groups.
Context {A : Type} (cmp inner : A → A → Z) (front : A → bool).
Hypothesis same_group : ∀ a b, front a = front b → cmp a b = inner a b.
Hypothesis front_back : ∀ a b, front a = true → front b = false → (cmp a b ≤ 0)%Z.
Hypothesis back_front : ∀ a b, front a = false → front b = true → (0 < cmp a b)%Z.

Lemma sort_insert_front (x : A) (l1 l2 : list A) :
  front x = true →
  Forall (λ y, front y = true) l1 → Forall (λ y, front y = false) l2 →
  sort_insert cmp x (l1 ++ l2) = sort_insert inner x l1 ++ l2.
Proof.
  intros Hx H1 H2. induction H1 as [|y l1 Hy _ IH]; simpl.
  - destruct H2 as [|z l2 Hz _]; simpl; [done|].
    destruct (Z.leb_spec (cmp x z) 0) as [|Hgt]; [done|].
    specialize (front_back x z Hx Hz). lia.
  - rewrite same_group by congruence.
    destruct (inner x y <=? 0)%Z; [done|]. by rewrite IH.
Qed.

Lemma sort_insert_back (x : A) (l1 l2 : list A) :
  front x = false →
  Forall (λ y, front y = true) l1 → Forall (λ y, front y = false) l2 →
  sort_insert cmp x (l1 ++ l2) = l1 ++ sort_insert inner x l2.
Proof.
  intros Hx H1 H2. induction H1 as [|y l1 Hy _ IH]; simpl.
  - apply sort_insert_ext. eapply Forall_impl; [exact H2|].
    intros z Hz. simpl in Hz. apply same_group. congruence.
  - specialize (back_front x y Hx Hy).
    destruct (Z.leb_spec (cmp x y) 0); [lia|]. by rewrite IH.
Qed.

Lemma array_sort_groups (l : list A) :
  array_sort cmp l =
  array_sort inner (List.filter front l) ++
  array_sort inner (List.filter (λ a, negb (front a)) l).
Proof.
  induction l as [|x l IH]; [done|].
  rewrite array_sort_cons, IH. cbn [List.filter].
  assert (Forall (λ y, front y = true) (array_sort inner (List.filter front l))) as H1.
  { rewrite array_sort_perm. apply Forall_forall. intros y Hy.
    apply list_elem_of_In, filter_In in Hy. tauto. }
  assert (Forall (λ y, front y = false)
            (array_sort inner (List.filter (λ a, negb (front a)) l))) as H2.
  { rewrite array_sort_perm. apply Forall_forall. intros y Hy.
    apply list_elem_of_In, filter_In in Hy. destruct Hy as [_ Hy].
    by apply negb_true_iff in Hy. }
  destruct (front x) eqn:Hx; cbn [negb]; rewrite array_sort_cons.
  - by apply sort_insert_front.
  - by apply sort_insert_back.
Qed.

End Groups.

(** ** Strings: [includes] and the concrete host *)

Lemma append_nil (t : string) : "" +:+ t = t.
Proof. reflexivity. Qed.

Lemma append_cons (c : Ascii.ascii) (s t : string) :
  String c s +:+ t = String c (s +:+ t).
Proof. reflexivity. Qed.

Lemma prefix_spec (sub s : string) :
  String.prefix sub s = true ↔ ∃ post, s = sub +:+ post.
Proof.
  revert sub. induction s as [|c s IH]; intros [|a sub]; simpl.
  - split; [by exists ""|done].
  - split; [done|]. intros [post Hp]. by rewrite append_cons in Hp.
  - split; [by exists (String c s)|done].
  - destruct (Ascii.ascii_dec a c) as [->|Hne].
    + rewrite IH. split; intros [post Hp]; exists post;
        rewrite append_cons in *; congruence.
    + split; [done|]. intros [post Hp]. rewrite append_cons in Hp. congruence.
Qed.

Lemma str_includes_spec (s sub : string) :
  str_includes s sub = true ↔ ∃ pre post, s = pre +:+ sub +:+ post.
Proof.
  induction s as [|c s IH]; cbn [str_includes]; rewrite orb_true_iff, prefix_spec.
  - split.
    + intros [[post Hp]|?]; [|done]. by exists "", post.
    + intros ([|a pre] & post & Hp); [|by rewrite append_cons in Hp].
      left. by exists post.
  - rewrite IH. split.
    + intros [[post Hp]|(pre & post & Hp)].
      * by exists "", post.
      * exists (String c pre), post. by rewrite append_cons, Hp.
    + intros ([|a pre] & post & Hp).
      * left. by exists post.
      * right. exists pre, post. rewrite append_cons in Hp. congruence.
Qed.

Lemma str_includes_empty (s : string) : str_includes s "" = true.
Proof. apply str_includes_spec. by exists "", s. Qed.

Lemma string_compare_le_trans (a b c : string) :
  String.compare a b ≠ Gt → String.compare b c ≠ Gt → String.compare a c ≠ Gt.
Proof.
  revert b c. induction a as [|x a IH]; intros [|y b] [|z c]; simpl; try done.
  unfold Ascii.compare.
  destruct (N.compare_spec (Ascii.N_of_ascii x) (Ascii.N_of_ascii y)) as [Hxy|Hxy|Hxy];
    [|  |done];
    (destruct (N.compare_spec (Ascii.N_of_ascii y) (Ascii.N_of_ascii z)) as [Hyz|Hyz|Hyz];
     [| |done]);
    destruct (N.compare_spec (Ascii.N_of_ascii x) (Ascii.N_of_ascii z)) as [Hxz|Hxz|Hxz];
    try done; try lia.
  apply IH.
Qed.

Lemma codeUnitCompare_flip (a b : string) :
  (0 < codeUnitCompare a b → codeUnitCompare b a < 0)%Z.
Proof.
  unfold codeUnitCompare. rewrite (String.compare_antisym a b).
  destruct (String.compare b a); simpl; lia.
Qed.

Lemma codeUnitCompare_trans (a b c : string) :
  (codeUnitCompare a b ≤ 0 → codeUnitCompare b c ≤ 0 → codeUnitCompare a c ≤ 0)%Z.
Proof.
  unfold codeUnitCompare. intros Hab Hbc.
  assert (String.compare a c ≠ Gt) as Hac.
  { apply (string_compare_le_trans a b c).
    - destruct (String.compare a b); [done|done|lia].
    - destruct (String.compare b c); [done|done|lia]. }
  destruct (String.compare a c); [lia|lia|done].
Qed.

(** The host with code-unit order and ASCII lower-casing. *)
#[export] Instance asciiHost : HostStrings := {|
  localeCompare := codeUnitCompare;
  toLowerCase := ascii_toLowerCase;
  localeCompare_flip := codeUnitCompare_flip;
  localeCompare_trans := codeUnitCompare_trans;
  toLowerCase_empty := eq_refl
|}.

(** ** The view *)

Section ViewProperties.
Context `{HostStrings}.

Lemma compareTiles_same_group dir completed a b :
  isCompleted completed a = isCompleted completed b →
  compareTiles Completion dir completed a b = compareNames a b.
Proof.
  unfold compareTiles, isCompleted, compareNames. intros ->.
  by rewrite Bool.eqb_reflx.
Qed.

Lemma compareTiles_across dir completed a b :
  isCompleted completed a = negb (isCompleted completed b) →
  compareTiles Completion dir completed a b =
  match dir, isCompleted completed a with
  | Asc, true | Desc, false => (-1)%Z
  | _, _ => 1%Z
  end.
Proof.
  unfold compareTiles, isCompleted. intros ->.
  by destruct dir, (includes completed (tile_name b)).
Qed.

Lemma completion_asc_groups completed images :
  sortedImages Completion Asc completed images =
  array_sort compareNames (List.filter (isCompleted completed) images) ++
  array_sort compareNames (List.filter (λ i, negb (isCompleted completed i)) images).
Proof.
  apply array_sort_groups.
  - apply compareTiles_same_group.
  - intros a b Ha Hb. rewrite compareTiles_across by (by rewrite Ha, Hb).
    by rewrite Ha.
  - intros a b Ha Hb. rewrite compareTiles_across by (by rewrite Ha, Hb).
    by rewrite Ha.
Qed.

Lemma completion_desc_groups completed images :
  sortedImages Completion Desc completed images =
  array_sort compareNames (List.filter (λ i, negb (isCompleted completed i)) images) ++
  array_sort compareNames (List.filter (isCompleted completed) images).
Proof.
  unfold sortedImages.
  rewrite (array_sort_groups _ compareNames (λ i, negb (isCompleted completed i))).
  - f_equal. f_equal. apply filter_ext. intros a. apply negb_involutive.
  - intros a b Hab. apply compareTiles_same_group.
    by destruct (isCompleted completed a), (isCompleted completed b).
  - intros a b Ha Hb. apply negb_true_iff in Ha. apply negb_false_iff in Hb.
    rewrite compareTiles_across by (by rewrite Ha, Hb). by rewrite Ha.
  - intros a b Ha Hb. apply negb_true_iff in Hb. apply negb_false_iff in Ha.
    rewrite compareTiles_across by (by rewrite Ha, Hb). by rewrite Ha.
Qed.

Lemma by_name_sorted images : StronglySorted nameLe (array_sort compareNames images).
Proof.
  apply (array_sort_sorted compareNames).
  - intros a b. apply localeCompare_flip.
  - intros a b c. apply localeCompare_trans.
Qed.

(** C1. In completion mode the view is the completed items followed by the
    others when the direction is ascending, and the others followed by the
    completed items when it is descending; in both directions each of the two
    groups holds exactly its items, in ascending order of their names.  For
    the items Ahri, Zed, Lux with Zed completed, ascending, the order is
    Zed, Ahri, Lux on every host that puts Ahri before Lux. *)
Theorem completion_mode_order (images : list ImageTile) (completed : list string) :
  (∃ done todo : list ImageTile,
      sortedImages Completion Asc completed images = done ++ todo ∧
      sortedImages Completion Desc completed images = todo ++ done ∧
      done ≡ₚ List.filter (isCompleted completed) images ∧
      todo ≡ₚ List.filter (λ i, negb (isCompleted completed i)) images ∧
      StronglySorted nameLe done ∧
      StronglySorted nameLe todo) ∧
  (∀ src1 src2 src3 : string,
      (localeCompare "Ahri" "Lux" < 0)%Z →
      sortedImages Completion Asc ["Zed"]
        [Build_ImageTile "Ahri" src1; Build_ImageTile "Zed" src2; Build_ImageTile "Lux" src3]
      = [Build_ImageTile "Zed" src2; Build_ImageTile "Ahri" src1; Build_ImageTile "Lux" src3]).
Proof.
  split.
  - exists (array_sort compareNames (List.filter (isCompleted completed) images)),
      (array_sort compareNames (List.filter (λ i, negb (isCompleted completed i)) images)).
    split; [apply completion_asc_groups|].
    split; [apply completion_desc_groups|].
    split; [apply array_sort_perm|].
    split; [apply array_sort_perm|].
    split; apply by_name_sorted.
  - intros src1 src2 src3 Hlt.
    unfold sortedImages, array_sort. cbn.
    destruct (Z.leb_spec (localeCompare "Ahri" "Lux") 0); [done|lia].
Qed.

(** C8. The view is a permutation of the items that pass the search filter;
    an item passes exactly when its lower-cased name contains the lower-cased
    search text as a contiguous run, and every item passes the empty text. *)
Theorem view_is_permutation_of_matches (images : list ImageTile) (completed : list string)
    (searchText : string) (sortMode : SortMode) (sortDirection : SortDirection) :
  view images completed searchText sortMode sortDirection
    ≡ₚ List.filter (matchesSearch searchText) images ∧
  (∀ image, matchesSearch searchText image = true ↔
            ∃ pre post, toLowerCase (tile_name image)
                        = pre +:+ toLowerCase searchText +:+ post) ∧
  (∀ image, image ∈ view images completed searchText sortMode sortDirection ↔
            image ∈ images ∧ matchesSearch searchText image = true) ∧
  (searchText = "" →
   view images completed searchText sortMode sortDirection ≡ₚ images).
Proof.
  assert (view images completed searchText sortMode sortDirection
            ≡ₚ List.filter (matchesSearch searchText) images) as Hperm
    by apply array_sort_perm.
  split; [done|]. split; [|split].
  - intros image. apply str_includes_spec.
  - intros image. rewrite Hperm, !list_elem_of_In. apply filter_In.
  - intros ->. rewrite Hperm.
    assert (∀ l, List.filter (matchesSearch "") l = l) as ->; [|done].
    induction l as [|i l IH]; simpl; [done|].
    unfold matchesSearch at 1. rewrite toLowerCase_empty, str_includes_empty.
    by rewrite IH.
Qed.

End ViewProperties.

(** The scenarios of the specification on the concrete host. *)
Lemma view_is_permutation_of_matches_witness :
  view [Build_ImageTile "Ahri" "a.png"; Build_ImageTile "Zed" "z.png"] ["Zed"] ""
    Alphabetical Desc
  ≡ₚ [Build_ImageTile "Ahri" "a.png"; Build_ImageTile "Zed" "z.png"].
Proof.
  apply (view_is_permutation_of_matches (H := asciiHost)). reflexivity.
Defined.

Example scenario_B :
  view [Build_ImageTile "Ahri" "a.png"; Build_ImageTile "Zed" "z.png";
        Build_ImageTile "Lux" "l.png"] ["Zed"] "" Alphabetical Desc
  = [Build_ImageTile "Zed" "z.png"; Build_ImageTile "Lux" "l.png";
     Build_ImageTile "Ahri" "a.png"].
Proof. reflexivity. Qed.

Example scenario_C (sortMode : SortMode) (sortDirection : SortDirection) :
  view [Build_ImageTile "Ahri" "a.png"; Build_ImageTile "Zed" "z.png";
        Build_ImageTile "Lux" "l.png"] ["Zed"] "z" sortMode sortDirection
  = [Build_ImageTile "Zed" "z.png"].
Proof. by destruct sortMode, sortDirection. Qed.

Lemma completion_mode_order_witness :
  (localeCompare "Ahri" "Lux" < 0)%Z ∧
  sortedImages Completion Asc ["Zed"]
    [Build_ImageTile "Ahri" "a.png"; Build_ImageTile "Zed" "z.png"; Build_ImageTile "Lux" "l.png"]
  = [Build_ImageTile "Zed" "z.png"; Build_ImageTile "Ahri" "a.png"; Build_ImageTile "Lux" "l.png"].
Proof.
  split; [reflexivity|].
  apply (completion_mode_order (H := asciiHost)
           [Build_ImageTile "Ahri" "a.png"; Build_ImageTile "Zed" "z.png";
            Build_ImageTile "Lux" "l.png"] ["Zed"]).
  reflexivity.
Defined.

(** ** Arrays: [indexOf], [splice], [includes] *)

Lemma includes_spec (arr : list string) (x : string) :
  includes arr x = true ↔ x ∈ arr.
Proof.
  unfold includes. rewrite existsb_exists. split.
  - intros (y & Hin & Heq). apply String.eqb_eq in Heq. subst.
    by apply list_elem_of_In.
  - intros Hin. exists x. split; [by apply list_elem_of_In|apply String.eqb_refl].
Qed.

Lemma indexOf_None (arr : list string) (x : string) :
  indexOf arr x = None ↔ x ∉ arr.
Proof.
  induction arr as [|y arr IH]; simpl.
  - split; [intros _; apply not_elem_of_nil|done].
  - destruct (String.eqb_spec y x) as [->|Hne].
    + split; [done|]. intros Hn. exfalso. apply Hn. left.
    + rewrite fmap_None, IH, not_elem_of_cons. split; [by split|by intros [_ ?]].
Qed.

Lemma indexOf_Some (arr : list string) (x : string) (i : nat) :
  indexOf arr x = Some i →
  ∃ front back, arr = front ++ x :: back ∧ length front = i ∧ (x ∉ front).
Proof.
  revert i. induction arr as [|y arr IH]; intros i; simpl; [done|].
  destruct (String.eqb_spec y x) as [->|Hne].
  - intros [= <-]. exists [], arr. split_and!; [done|done|apply not_elem_of_nil].
  - intros Hi. apply fmap_Some in Hi as (j & Hj & ->).
    destruct (IH j Hj) as (front & back & -> & Hlen & Hnot).
    exists (y :: front), back. split_and!; [done|by simpl; f_equal|].
    rewrite not_elem_of_cons. split; [congruence|done].
Qed.

Lemma splice1_middle {A} (front back : list A) (x : A) :
  splice1 (length front) (front ++ x :: back) = front ++ back.
Proof.
  unfold splice1. induction front as [|y front IH]; simpl.
  - by rewrite drop_0.
  - by f_equal.
Qed.

(** ** The completed champions of a profile: [toggleChampionWin] *)

Lemma toggleChampion_present champion champions :
  champion ∈ champions →
  ∃ front back, champions = front ++ champion :: back ∧ (champion ∉ front) ∧
                Manager.toggleChampion champion champions = front ++ back.
Proof.
  intros Hin. unfold Manager.toggleChampion.
  destruct (indexOf champions champion) as [i|] eqn:Hi.
  - destruct (indexOf_Some _ _ _ Hi) as (front & back & -> & <- & Hnot).
    exists front, back. by rewrite splice1_middle.
  - by apply indexOf_None in Hi.
Qed.

Lemma toggleChampion_absent champion champions :
  champion ∉ champions →
  Manager.toggleChampion champion champions = champions ++ [champion].
Proof.
  intros Hn. unfold Manager.toggleChampion.
  by apply indexOf_None in Hn as ->.
Qed.

Lemma indexOf_pushed champion champions :
  champion ∉ champions →
  indexOf (champions ++ [champion]) champion = Some (length champions).
Proof.
  induction champions as [|y l IH]; simpl; intros Hn.
  - by rewrite String.eqb_refl.
  - apply not_elem_of_cons in Hn as [Hne Hn].
    destruct (String.eqb_spec y champion) as [->|_]; [done|].
    by rewrite IH.
Qed.


(** ** Objects and the store of arrays *)

Lemma deref_alloc (h ext : Heap) (d : ProfileData) :
  deref (h ++ firstplacechampions d :: ext) (alloc h d).1 = d.
Proof.
  destruct d as [i n cs c u]. unfold deref, alloc, heap_get. simpl.
  by rewrite list_lookup_middle.
Qed.

Lemma alloc_all_heap (h : Heap) (ds : list ProfileData) :
  (alloc_all h ds).2 = h ++ (firstplacechampions <$> ds).
Proof.
  revert h. induction ds as [|d ds IH]; intros h; simpl.
  - by rewrite app_nil_r.
  - specialize (IH (h ++ [firstplacechampions d])).
    destruct (alloc_all (h ++ [firstplacechampions d]) ds) as [ps h2]. simpl in *.
    by rewrite IH, <- app_assoc.
Qed.

Lemma alloc_all_deref (h ext : Heap) (ds : list ProfileData) :
  deref (h ++ (firstplacechampions <$> ds) ++ ext) <$> (alloc_all h ds).1 = ds.
Proof.
  revert h. induction ds as [|d ds IH]; intros h; simpl; [done|].
  specialize (IH (h ++ [firstplacechampions d])).
  destruct (alloc_all (h ++ [firstplacechampions d]) ds) as [ps h2]. simpl in *.
  rewrite <- app_assoc in IH. simpl in IH. f_equal; [|exact IH].
  apply (deref_alloc h ((firstplacechampions <$> ds) ++ ext) d).
Qed.

Lemma alloc_all_ids (h : Heap) (ds : list ProfileData) :
  id <$> (alloc_all h ds).1 = id <$> ds.
Proof.
  revert h. induction ds as [|d ds IH]; intros h; simpl; [done|].
  specialize (IH (h ++ [firstplacechampions d])).
  destruct (alloc_all (h ++ [firstplacechampions d]) ds) as [ps h2]. simpl in *.
  f_equal. exact IH.
Qed.

Lemma alloc_all_length (h : Heap) (ds : list ProfileData) :
  length (alloc_all h ds).1 = length ds.
Proof.
  rewrite <- (length_fmap id), alloc_all_ids. apply length_fmap.
Qed.

(** The fetched profiles, once they are objects, denote what was fetched. *)
Lemma await_getProfiles_shown (s : Sys) :
  deref (heap (Manager.await_getProfiles s).2) <$> (Manager.await_getProfiles s).1
  = (Database.getProfiles (remote s)).1.
Proof.
  unfold Manager.await_getProfiles.
  destruct (Database.getProfiles (remote s)) as [data r1].
  pose proof (alloc_all_deref (heap s) [] data) as Hd.
  pose proof (alloc_all_heap (heap s) data) as Hh.
  destruct (alloc_all (heap s) data) as [ps h1]. simpl in *.
  by rewrite app_nil_r, <- Hh in Hd.
Qed.

Lemma heap_get_fresh (h ext : list (list string)) (x : list string) :
  heap_get (h ++ x :: ext) (length h) = x.
Proof. unfold heap_get. by rewrite list_lookup_middle. Qed.

Lemma heap_get_old (h ext : list (list string)) (l : nat) :
  (l < length h)%nat → heap_get (h ++ ext) l = heap_get h l.
Proof. intros Hl. unfold heap_get. by rewrite lookup_app_l. Qed.

(** ** The remote store *)

Lemma getProfiles_result (r : Remote) :
  (Database.getProfiles r).1
  = (if hd true (outcomes r) then row_json <$> Database.ordered (table r) else []) ∧
  (Database.getProfiles r).2 = (Database.request CallSelect r).2.
Proof.
  unfold Database.getProfiles, Database.request. simpl.
  by destruct (hd true (outcomes r)).
Qed.

Lemma ordered_perm (t : list Row) : Database.ordered t ≡ₚ t.
Proof. apply array_sort_perm. Qed.

Lemma StronglySorted_weaken {A} (R R' : A → A → Prop) (l : list A) :
  (∀ a b, R a b → R' a b) → StronglySorted R l → StronglySorted R' l.
Proof.
  intros HR. induction 1 as [|x l Hs IH Hx]; constructor; [done|].
  eapply Forall_impl; [exact Hx|]. intros y. apply HR.
Qed.

Lemma ordered_sorted (t : list Row) :
  StronglySorted (λ a b, (row_created a ≤ row_created b)%nat) (Database.ordered t).
Proof.
  eapply StronglySorted_weaken;
    [|apply (array_sort_sorted Database.compareCreated)].
  - unfold Database.compareCreated. intros a b. simpl. lia.
  - unfold Database.compareCreated. intros a b. lia.
  - unfold Database.compareCreated. intros a b c. lia.
Qed.

Lemma ordered_nil_inv (t : list Row) : Database.ordered t = [] → t = [].
Proof.
  intros Ho. apply Permutation_nil_r. rewrite <- Ho. symmetry. apply ordered_perm.
Qed.

(** ** Loading the profiles *)

Lemma await_getProfiles_frame (s : Sys) :
  ui (Manager.await_getProfiles s).2 = ui s ∧
  browser (Manager.await_getProfiles s).2 = browser s ∧
  remote (Manager.await_getProfiles s).2 = (Database.getProfiles (remote s)).2 ∧
  heap (Manager.await_getProfiles s).2
  = heap s ++ (firstplacechampions <$> (Database.getProfiles (remote s)).1) ∧
  length (Manager.await_getProfiles s).1 = length (Database.getProfiles (remote s)).1.
Proof.
  unfold Manager.await_getProfiles.
  destruct (Database.getProfiles (remote s)) as [data r1].
  pose proof (alloc_all_heap (heap s) data) as Hh.
  pose proof (alloc_all_length (heap s) data) as Hl.
  by destruct (alloc_all (heap s) data) as [ps h1].
Qed.

Lemma await_getProfiles_with_ui (f : State → State) (s : Sys) :
  Manager.await_getProfiles (with_ui f s)
  = ((Manager.await_getProfiles s).1, with_ui f (Manager.await_getProfiles s).2).
Proof.
  unfold Manager.await_getProfiles. simpl.
  destruct (Database.getProfiles (remote s)) as [data r1].
  by destruct (alloc_all (heap s) data) as [ps h1].
Qed.

Lemma loadProfiles_stored (s : Sys) :
  (Database.getProfiles (remote s)).1 ≠ [] →
  shownProfiles (Manager.loadProfiles s) = (Database.getProfiles (remote s)).1 ∧
  shownSelected (Manager.loadProfiles s) = head (Database.getProfiles (remote s)).1 ∧
  remote (Manager.loadProfiles s) = (Database.getProfiles (remote s)).2 ∧
  ui (Manager.loadProfiles s) =
    setLoading false (setSelectedProfile (head (Manager.await_getProfiles s).1)
      (setProfiles (Manager.await_getProfiles s).1 (setLoading true (ui s)))).
Proof.
  intros Hne. unfold Manager.loadProfiles.
  pose proof (await_getProfiles_shown (with_ui (setLoading true) s)) as Hshown.
  rewrite await_getProfiles_with_ui in *. simpl in Hshown.
  destruct (await_getProfiles_frame s) as (Hui & _ & Hr & _ & Hlen).
  assert ((length (Manager.await_getProfiles s).1 =? 0)%nat = false) as ->.
  { apply Nat.eqb_neq. rewrite Hlen. by destruct (Database.getProfiles (remote s)).1. }
  unfold shownProfiles, shownSelected. simpl. rewrite Hui.
  split_and!; [done| |done|done].
  rewrite <- Hshown. by destruct (Manager.await_getProfiles s).1.
Qed.

Lemma getProfiles_empty_inv (r : Remote) :
  (Database.getProfiles r).1 = [] →
  hd true (outcomes r) = false ∨ table r = [].
Proof.
  rewrite (proj1 (getProfiles_result r)).
  destruct (hd true (outcomes r)); [|by left].
  intros Hnil. right. apply ordered_nil_inv.
  by destruct (Database.ordered (table r)).
Qed.

Lemma lookup_second_fresh {A} (h : list A) (x y : A) :
  (h ++ [x; y]) !! length (h ++ [x]) = Some y.
Proof.
  change (h ++ [x; y]) with (h ++ [x] ++ [y]). rewrite app_assoc.
  by apply list_lookup_middle.
Qed.

Lemma loadProfiles_seeded (s : Sys) :
  (Database.getProfiles (remote s)).1 = [] →
  let seeded :=
    (if nth 1 (outcomes (remote s)) true then ["Me"] else []) ++
    (if nth 2 (outcomes (remote s)) true then ["My Friend"] else []) in
  name <$> shownProfiles (Manager.loadProfiles s) = seeded ∧
  Forall (λ p, firstplacechampions p = []) (shownProfiles (Manager.loadProfiles s)) ∧
  shownSelected (Manager.loadProfiles s) = head (shownProfiles (Manager.loadProfiles s)) ∧
  row_name <$> table (remote (Manager.loadProfiles s))
    = (row_name <$> table (remote s)) ++ seeded ∧
  log (remote (Manager.loadProfiles s))
    = log (remote s) ++ [CallSelect; CallInsert "Me"; CallInsert "My Friend"].
Proof.
  intros Hnil.
  assert (Manager.await_getProfiles s = ([], with_remote (Database.request CallSelect (remote s)).2 s)) as Hget.
  { unfold Manager.await_getProfiles.
    destruct (getProfiles_result (remote s)) as [_ Hr].
    destruct (Database.getProfiles (remote s)) as [data r1]. simpl in *. subst.
    simpl. unfold with_heap, with_remote. simpl. by destruct s. }
  unfold Manager.loadProfiles. rewrite await_getProfiles_with_ui, Hget.
  destruct s as [st h [t n c o l] b].
  destruct o as [|o0 [|o1 [|o2 o]]]; try destruct o1; try destruct o2;
    cbn -[pretty]; unfold shownProfiles, shownSelected, deref, heap_get; cbn -[pretty].
  all: rewrite ?fmap_app, <- ?app_assoc; cbn -[pretty].
  all: rewrite ?list_lookup_middle by done.
  all: rewrite ?lookup_second_fresh.
  all: cbn -[pretty].
  all: split_and!;
    [done|by repeat constructor|done|by rewrite ?app_nil_r|by rewrite <- ?app_assoc].
Qed.

(** C2 (as the program has it). [loadProfiles] fetches the collection, which
    comes ordered by creation time, and a failed fetch counts as an empty
    collection.  A non-empty collection is shown as fetched, its first profile
    selected.  On an empty one the two defaults "Me" and "My Friend" are
    requested in this order, and those whose creation succeeded are shown,
    with no completed champion, the first selected.  In all cases loading
    ends and the connection status stays as it was. *)
Theorem load_profiles_outcome (s : Sys) :
  let fetched := (Database.getProfiles (remote s)).1 in
  let seeded :=
    (if nth 1 (outcomes (remote s)) true then ["Me"] else []) ++
    (if nth 2 (outcomes (remote s)) true then ["My Friend"] else []) in
  fetched = (if hd true (outcomes (remote s))
             then row_json <$> Database.ordered (table (remote s)) else []) ∧
  Database.ordered (table (remote s)) ≡ₚ table (remote s) ∧
  StronglySorted (λ a b, (row_created a ≤ row_created b)%nat)
    (Database.ordered (table (remote s))) ∧
  (fetched ≠ [] →
     shownProfiles (Manager.loadProfiles s) = fetched ∧
     shownSelected (Manager.loadProfiles s) = head fetched ∧
     table (remote (Manager.loadProfiles s)) = table (remote s)) ∧
  (fetched = [] →
     name <$> shownProfiles (Manager.loadProfiles s) = seeded ∧
     Forall (λ p, firstplacechampions p = []) (shownProfiles (Manager.loadProfiles s)) ∧
     shownSelected (Manager.loadProfiles s) = head (shownProfiles (Manager.loadProfiles s)) ∧
     row_name <$> table (remote (Manager.loadProfiles s))
       = (row_name <$> table (remote s)) ++ seeded) ∧
  loading (ui (Manager.loadProfiles s)) = false ∧
  connectionStatus (ui (Manager.loadProfiles s)) = connectionStatus (ui s).
Proof.
  simpl. split_and!.
  - apply getProfiles_result.
  - apply ordered_perm.
  - apply ordered_sorted.
  - intros Hne. destruct (loadProfiles_stored s Hne) as (Hp & Hsel & Hr & _).
    split_and!; [done|done|].
    rewrite Hr, (proj2 (getProfiles_result (remote s))). done.
  - intros Hnil. destruct (loadProfiles_seeded s Hnil) as (Hn & Hc & Hsel & Ht & _).
    done.
  - unfold Manager.loadProfiles.
    destruct (Manager.await_getProfiles (with_ui (setLoading true) s)) as [stored s1].
    destruct (length stored =? 0)%nat; [|done].
    destruct (Manager.await_createProfile "Me" s1) as [me s2].
    by destruct (Manager.await_createProfile "My Friend" s2) as [friend s3].
  - destruct (decide ((Database.getProfiles (remote s)).1 = [])) as [Hnil|Hne].
    + unfold Manager.loadProfiles. rewrite await_getProfiles_with_ui.
      destruct (await_getProfiles_frame s) as (Hui & _ & _ & _ & Hlen).
      rewrite Hnil in Hlen. simpl in Hlen.
      destruct (Manager.await_getProfiles s) as [stored s1]. simpl in *.
      rewrite Hlen. simpl.
      unfold Manager.await_createProfile. simpl.
      destruct (Database.createProfile "Me" (remote s1)) as [[d1|] r2]; simpl;
        destruct (Database.createProfile "My Friend" r2) as [[d2|] r3]; simpl;
        by rewrite Hui.
    + destruct (loadProfiles_stored s Hne) as (_ & _ & _ & ->). done.
Qed.

Lemma load_profiles_outcome_witness :
  (Database.getProfiles (remote (firstRender [false] [zedRow] emptyBrowser))).1 = [] ∧
  name <$> shownProfiles (Manager.loadProfiles (firstRender [false] [zedRow] emptyBrowser))
  = ["Me"; "My Friend"].
Proof.
  split; [reflexivity|].
  apply (load_profiles_outcome (firstRender [false] [zedRow] emptyBrowser)).
  reflexivity.
Defined.

(** The store holds a profile, the fetch fails, the two requests that follow
    succeed: the page ends with the two defaults and the status it had. *)
Lemma load_seeds_defaults_on_failed_fetch : ¬ load_as_specified.
Proof.
  intros Hspec.
  destruct (Hspec (firstRender [false] [zedRow] emptyBrowser)) as (_ & _ & Hfail).
  destruct (Hfail eq_refl) as [Hshown _].
  vm_compute in Hshown. discriminate.
Qed.

(** ** Failed requests *)

(** C4. The selected profile holds Zed; the update request of the toggle of
    Ahri fails.  The state variables and the table are what they were, and yet
    the selected profile now holds Zed and Ahri: the toggle wrote into the
    array that the selected profile shares with its copy. *)
Theorem failed_toggle_mutates_selected_profile :
  hd true (outcomes (remote zedPage)) = false ∧
  firstplacechampions <$> shownSelected zedPage = Some ["Zed"] ∧
  firstplacechampions <$> shownSelected (Manager.toggleChampionWin "Ahri" zedPage)
    = Some ["Zed"; "Ahri"] ∧
  firstplacechampions <$> shownProfiles (Manager.toggleChampionWin "Ahri" zedPage)
    = [["Zed"; "Ahri"]] ∧
  ui (Manager.toggleChampionWin "Ahri" zedPage) = ui zedPage ∧
  table (remote (Manager.toggleChampionWin "Ahri" zedPage)) = table (remote zedPage) ∧
  ¬ failed_toggle_changes_nothing.
Proof.
  split_and!; try reflexivity.
  intros Hspec. specialize (Hspec zedPage "Ahri" eq_refl).
  vm_compute in Hspec. discriminate.
Qed.

(** What a failed request does leave alone: the result is empty, and the
    handler that made the request changes neither the state variables, nor the
    store of arrays, nor the table. *)
Lemma failed_request_results (r : Remote) :
  hd true (outcomes r) = false →
  (Database.testConnection r).1 = false ∧
  (Database.getProfiles r).1 = [] ∧
  (∀ n, (Database.createProfile n r).1 = None) ∧
  (∀ p, (Database.updateProfile p r).1 = None) ∧
  (∀ i, (Database.deleteProfile i r).1 = false).
Proof.
  intros Hfail.
  unfold Database.testConnection, Database.getProfiles, Database.createProfile,
    Database.updateProfile, Database.deleteProfile, Database.request.
  by rewrite Hfail.
Qed.

Lemma failed_request_handlers (s : Sys) :
  hd true (outcomes (remote s)) = false →
  (∀ p, ui (Manager.handleUpdateProfile p s) = ui s ∧
        heap (Manager.handleUpdateProfile p s) = heap s ∧
        table (remote (Manager.handleUpdateProfile p s)) = table (remote s)) ∧
  (∀ i, ui (Manager.handleDeleteProfile i s) = ui s ∧
        heap (Manager.handleDeleteProfile i s) = heap s ∧
        table (remote (Manager.handleDeleteProfile i s)) = table (remote s)) ∧
  (ui (Manager.handleAddProfile s) = ui s ∧
   heap (Manager.handleAddProfile s) = heap s ∧
   table (remote (Manager.handleAddProfile s)) = table (remote s)).
Proof.
  intros Hfail. split; [|split].
  - intros p.
    unfold Manager.handleUpdateProfile, Manager.await_updateProfile,
      Database.updateProfile, Database.request.
    by rewrite Hfail.
  - intros i.
    unfold Manager.handleDeleteProfile, Manager.await_deleteProfile,
      Database.deleteProfile, Database.request.
    destruct (length (profiles (ui s)) <=? 1)%nat; [done|].
    by rewrite Hfail.
  - unfold Manager.handleAddProfile, Manager.await_createProfile,
      Database.createProfile, Database.request.
    destruct (String.eqb (trim (newProfileName (ui s))) ""); [done|].
    by rewrite Hfail.
Qed.

(** X14. Whenever the update request of a toggle fails, for any selected
    profile whose array is in the store of arrays, the state variables and
    the table are what they were, and the array of the selected profile holds
    the toggled champions. *)
Lemma failed_toggle_effect (s : Sys) (sel : Profile) (champion : string) :
  hd true (outcomes (remote s)) = false →
  selectedProfile (ui s) = Some sel →
  (firstplacechampions sel < length (heap s))%nat →
  ui (Manager.toggleChampionWin champion s) = ui s ∧
  table (remote (Manager.toggleChampionWin champion s)) = table (remote s) ∧
  firstplacechampions <$> shownSelected (Manager.toggleChampionWin champion s)
  = Some (Manager.toggleChampion champion (heap_get (heap s) (firstplacechampions sel))).
Proof.
  intros Hfail Hsel Hloc. unfold Manager.toggleChampionWin. rewrite Hsel.
  cbn [firstplacechampions id name created_at updated_at].
  set (s1 := with_heap _ s).
  destruct (failed_request_handlers s1 Hfail) as (Hupd & _ & _).
  destruct (Hupd (mkProfile (id sel) (name sel) (firstplacechampions sel)
                    (created_at sel) (updated_at sel))) as (Hui & Hheap & Htable).
  split_and!; [done|done|].
  unfold shownSelected. rewrite Hui, Hheap. simpl. rewrite Hsel. simpl.
  unfold heap_get. by rewrite list_lookup_insert_eq.
Qed.

(** Updating a profile sends its name and the content of its array, and
    only adds arrays to the store of arrays. *)
Lemma handleUpdateProfile_request (p : Profile) (s : Sys) :
  ∃ (newArrays : list (list string)) (later : list Call),
    heap (Manager.handleUpdateProfile p s) = heap s ++ newArrays ∧
    log (remote (Manager.handleUpdateProfile p s))
    = log (remote s)
      ++ CallUpdate (id p) (name p) (heap_get (heap s) (firstplacechampions p)) :: later.
Proof.
  unfold Manager.handleUpdateProfile, Manager.await_updateProfile.
  assert (log (Database.updateProfile (deref (heap s) p) (remote s)).2
          = log (remote s)
            ++ [CallUpdate (id p) (name p) (heap_get (heap s) (firstplacechampions p))])
    as Hlog.
  { unfold Database.updateProfile, Database.request.
    destruct (hd true (outcomes (remote s))); [|done].
    cbn -[pretty]. by destruct (List.filter _ _) as [|row [|row' rest]]. }
  destruct (Database.updateProfile (deref (heap s) p) (remote s)) as [[d|] r1]; simpl in *.
  - set (s2 := with_ui (setEditingProfile None) (with_remote r1 s)).
    destruct (await_getProfiles_frame s2) as (_ & _ & Hr & Hh & _).
    destruct (getProfiles_result (remote s2)) as [_ Hr'].
    destruct (Manager.await_getProfiles s2) as [updatedProfiles s3]. simpl in *.
    exists (firstplacechampions <$> (Database.getProfiles r1).1), [CallSelect].
    assert (heap s3 = heap s ++ (firstplacechampions <$> (Database.getProfiles r1).1)
            ∧ log (remote s3) = log (remote s)
                ++ [CallUpdate (id p) (name p) (heap_get (heap s) (firstplacechampions p));
                    CallSelect]) as [Hheap Hlog3].
    { split; [done|]. rewrite Hr, Hr'. simpl. rewrite Hlog, <- app_assoc. done. }
    by destruct (List.find _ updatedProfiles).
  - exists [], []. by rewrite app_nil_r.
Qed.

Lemma toggleChampionWin_applies_toggle (champion : string) (s : Sys) (sel : Profile) :
  selectedProfile (ui s) = Some sel →
  firstplacechampions sel < length (heap s) →
  heap_get (heap (Manager.toggleChampionWin champion s)) (firstplacechampions sel)
  = Manager.toggleChampion champion (heap_get (heap s) (firstplacechampions sel)) ∧
  ∃ later,
    log (remote (Manager.toggleChampionWin champion s))
    = log (remote s)
      ++ CallUpdate (id sel) (name sel)
           (Manager.toggleChampion champion (heap_get (heap s) (firstplacechampions sel)))
         :: later.
Proof.
  intros Hsel Hloc. unfold Manager.toggleChampionWin. rewrite Hsel.
  cbn [firstplacechampions id name created_at updated_at].
  set (toggled := Manager.toggleChampion champion (heap_get (heap s) (firstplacechampions sel))).
  set (s1 := with_heap (<[firstplacechampions sel := toggled]> (heap s)) s).
  destruct (handleUpdateProfile_request
              (mkProfile (id sel) (name sel) (firstplacechampions sel)
                 (created_at sel) (updated_at sel)) s1)
    as (newArrays & later & Hheap & Hlog).
  assert (heap_get (heap s1) (firstplacechampions sel) = toggled) as Hcell.
  { unfold heap_get. simpl. by rewrite list_lookup_insert_eq. }
  cbn [firstplacechampions id name] in Hlog. rewrite Hcell in Hlog.
  split; [|by exists later].
  rewrite Hheap, heap_get_old; [done|]. simpl. by rewrite length_insert.
Qed.

(** C3. On a completed-set without duplicates, toggling a champion that is
    present removes it and keeps the others; toggling one that is absent
    appends it; the result has no duplicates either; and toggling the same
    champion twice gives back the same set (the same elements, possibly in
    another order).  [toggleChampionWin] applies this toggle to the array of
    the selected profile and sends the result to the store. *)
Theorem toggle_twice_restores_set (champion : string) (champions : list string) :
  NoDup champions →
  (champion ∈ champions →
     (champion ∉ Manager.toggleChampion champion champions) ∧
     ∀ other, other ≠ champion →
       (other ∈ Manager.toggleChampion champion champions ↔ other ∈ champions)) ∧
  (champion ∉ champions →
     Manager.toggleChampion champion champions = champions ++ [champion]) ∧
  NoDup (Manager.toggleChampion champion champions) ∧
  (∀ x, x ∈ Manager.toggleChampion champion (Manager.toggleChampion champion champions)
        ↔ x ∈ champions) ∧
  Manager.toggleChampion champion (Manager.toggleChampion champion champions) ≡ₚ champions ∧
  (∀ (s : Sys) (sel : Profile),
     selectedProfile (ui s) = Some sel →
     firstplacechampions sel < length (heap s) →
     heap_get (heap s) (firstplacechampions sel) = champions →
     heap_get (heap (Manager.toggleChampionWin champion s)) (firstplacechampions sel)
     = Manager.toggleChampion champion champions ∧
     ∃ later,
       log (remote (Manager.toggleChampionWin champion s))
       = log (remote s)
         ++ CallUpdate (id sel) (name sel) (Manager.toggleChampion champion champions)
            :: later).
Proof.
  intros Hnd.
  assert (Manager.toggleChampion champion (Manager.toggleChampion champion champions)
            ≡ₚ champions) as Hperm.
  { destruct (decide (champion ∈ champions)) as [Hin|Hn].
    - destruct (toggleChampion_present _ _ Hin) as (front & back & -> & Hf & ->).
      apply NoDup_app in Hnd as (_ & Hsep & Hback).
      apply NoDup_cons in Hback as [Hb _].
      rewrite toggleChampion_absent.
      + rewrite <- app_assoc. f_equiv. symmetry. apply Permutation_cons_append.
      + rewrite elem_of_app. tauto.
    - rewrite (toggleChampion_absent _ _ Hn).
      unfold Manager.toggleChampion. rewrite indexOf_pushed by done.
      by rewrite splice1_middle, app_nil_r. }
  split_and!.
  - intros Hin.
    destruct (toggleChampion_present _ _ Hin) as (front & back & -> & Hf & ->).
    apply NoDup_app in Hnd as (_ & Hsep & Hback).
    apply NoDup_cons in Hback as [Hb _].
    split.
    + rewrite elem_of_app. tauto.
    + intros other Hne. rewrite !elem_of_app, elem_of_cons. tauto.
  - apply toggleChampion_absent.
  - destruct (decide (champion ∈ champions)) as [Hin|Hn].
    + destruct (toggleChampion_present _ _ Hin) as (front & back & -> & Hf & ->).
      apply NoDup_app in Hnd as (Hfront & Hsep & Hback).
      apply NoDup_cons in Hback as [Hb Hback].
      apply NoDup_app. split_and!; [done| |done].
      intros y Hy Hy'. apply (Hsep y Hy). by right.
    + rewrite (toggleChampion_absent _ _ Hn).
      apply NoDup_app. split_and!; [done| |apply NoDup_singleton].
      intros y Hy Hy'. apply list_elem_of_singleton in Hy'. by subst.
  - intros x. by rewrite Hperm.
  - done.
  - intros s sel Hsel Hloc <-. by apply toggleChampionWin_applies_toggle.
Qed.

Lemma toggle_twice_restores_set_witness :
  NoDup ["Zed"; "Ahri"] ∧
  Manager.toggleChampion "Zed" (Manager.toggleChampion "Zed" ["Zed"; "Ahri"])
    ≡ₚ ["Zed"; "Ahri"].
Proof.
  assert (NoDup ["Zed"; "Ahri"]) as Hnd by (apply (bool_decide_unpack _); reflexivity).
  split; [done|].
  apply (toggle_twice_restores_set "Zed" ["Zed"; "Ahri"] Hnd).
Defined.

(** Without the invariant of the data model the second toggle can remove a
    further copy. *)
Example toggle_twice_with_duplicates :
  Manager.toggleChampion "Zed" (Manager.toggleChampion "Zed" ["Zed"; "Zed"]) = [].
Proof. reflexivity. Qed.

(** ** The local store and the failed connection test *)

Lemma mapM_as_string (cs : list string) : mapM Storage.as_string (JString <$> cs) = Some cs.
Proof.
  induction cs as [|c cs IH]; [done|].
  rewrite fmap_cons. cbn [mapM]. rewrite IH. done.
Qed.

Lemma parse_stringify_profile (p : ProfileData) :
  Storage.parse_profile (Storage.stringify_profile p) = Some p.
Proof.
  destruct p as [i n cs [c|] [u|]];
    unfold Storage.parse_profile, Storage.stringify_profile; simpl;
    rewrite mapM_as_string; reflexivity.
Qed.

Lemma parse_stringify (ps : list ProfileData) :
  Storage.parse (Storage.stringify ps) = Some ps.
Proof.
  unfold Storage.parse, Storage.stringify.
  induction ps as [|p ps IH]; [done|].
  rewrite fmap_cons. cbn [mapM]. rewrite parse_stringify_profile, IH. done.
Qed.

Lemma getProfiles_setProfiles (ps : list ProfileData) (b : Browser) :
  hasWindow b = true →
  Storage.getProfiles (Storage.setProfiles ps b) = Some ps.
Proof.
  intros Hw. unfold Storage.getProfiles, Storage.setProfiles. rewrite Hw. simpl.
  rewrite lookup_insert_eq. apply parse_stringify.
Qed.

(** The handlers never look at the browser's local store, and never write it. *)
Ltac unfold_handlers :=
  unfold Manager.perform, Manager.loadProfiles, Manager.handleAddProfile,
    Manager.handleUpdateProfile, Manager.handleDeleteProfile,
    Manager.onRealtimeUpdate,
    Manager.await_getProfiles, Manager.await_createProfile,
    Manager.await_updateProfile, Manager.await_deleteProfile.

Ltac by_cases_on_requests :=
  cbn -[pretty Database.getProfiles Database.createProfile
        Database.updateProfile Database.deleteProfile alloc_all alloc];
  repeat (case_match; simplify_eq/=; try done).

Lemma handleUpdateProfile_browser (p : Profile) (s : Sys) (b : Browser) :
  Manager.handleUpdateProfile p (with_browser b s)
  = with_browser b (Manager.handleUpdateProfile p s).
Proof. destruct s as [st h r b0]. unfold_handlers. by_cases_on_requests. Qed.

Lemma perform_browser (a : Manager.Action) (s : Sys) (b : Browser) :
  Manager.perform a (with_browser b s) = with_browser b (Manager.perform a s).
Proof.
  destruct a;
    try solve [destruct s as [st h r b0]; unfold_handlers; by_cases_on_requests].
  unfold Manager.perform, Manager.toggleChampionWin. simpl.
  destruct (selectedProfile (ui s)); [|done].
  apply (handleUpdateProfile_browser _ (with_heap _ s)).
Qed.

Lemma performAll_browser (acts : list Manager.Action) (s : Sys) (b : Browser) :
  Manager.performAll acts (with_browser b s) = with_browser b (Manager.performAll acts s).
Proof.
  revert s. induction acts as [|a acts IH]; intros s; [done|].
  unfold Manager.performAll in *. simpl. by rewrite perform_browser, IH.
Qed.

Lemma mountEffect_browser (s : Sys) (b : Browser) :
  Manager.mountEffect (with_browser b s) = with_browser b (Manager.mountEffect s).
Proof.
  unfold Manager.mountEffect.
  change (remote (with_browser b s)) with (remote s).
  destruct (Database.testConnection (remote s)) as [[] r1]; [|reflexivity].
  apply (perform_browser Manager.Load
           (with_ui (setConnectionStatus "Connected") (with_remote r1 s))).
Qed.

Lemma performAll_keeps_browser (acts : list Manager.Action) (s : Sys) :
  browser (Manager.performAll acts s) = browser s.
Proof.
  pose proof (performAll_browser acts s (browser s)) as Hb.
  assert (with_browser (browser s) s = s) as Hs by (by destruct s).
  rewrite Hs in Hb. rewrite Hb. done.
Qed.

(** The local store holds a profile and the connection test fails: the page
    shows no profile. *)
Lemma failed_connection_ignores_local_store : ¬ failed_connection_uses_local_store.
Proof.
  intros Hspec.
  specialize (Hspec (firstRender [false] [zedRow] browserWithZed) [zedData] eq_refl eq_refl).
  vm_compute in Hspec. discriminate.
Qed.

(** C9 (as the program has it). When the connection test fails, the
    connection status is set to "Connection failed", loading is cleared and
    the page keeps the profiles it had, none on a first render; one request, the test, has reached the
    remote store.  The local store is not written and not read, neither here
    nor by any later action.  On its own the local store module keeps the
    collection as one JSON document under the key "arena-god-profiles" and
    reads back what it wrote. *)
Theorem failed_connection_shows_nothing (s : Sys) :
  hd true (outcomes (remote s)) = false →
  ui (Manager.mountEffect s)
    = setLoading false (setConnectionStatus "Connection failed" (ui s)) ∧
  connectionStatus (ui (Manager.mountEffect s)) = "Connection failed" ∧
  loading (ui (Manager.mountEffect s)) = false ∧
  profiles (ui (Manager.mountEffect s)) = profiles (ui s) ∧
  (ui s = initialState → shownProfiles (Manager.mountEffect s) = []) ∧
  table (remote (Manager.mountEffect s)) = table (remote s) ∧
  log (remote (Manager.mountEffect s)) = log (remote s) ++ [CallTest] ∧
  browser (Manager.mountEffect s) = browser s ∧
  (∀ b, Manager.mountEffect (with_browser b s) = with_browser b (Manager.mountEffect s)) ∧
  (∀ acts b,
     Manager.performAll acts (with_browser b (Manager.mountEffect s))
     = with_browser b (Manager.performAll acts (Manager.mountEffect s))) ∧
  (∀ ps, hasWindow (browser s) = true →
     localStorage (Storage.setProfiles ps (browser s))
       = <[Storage.PROFILES := Storage.stringify ps]> (localStorage (browser s)) ∧
     Storage.getProfiles (Storage.setProfiles ps (browser s)) = Some ps).
Proof.
  intros Hfail.
  assert (Manager.mountEffect s
          = with_ui (setLoading false)
              (with_ui (setConnectionStatus "Connection failed")
                 (with_remote (Database.request CallTest (remote s)).2 s))) as Hm.
  { unfold Manager.mountEffect, Database.testConnection, Database.request.
    by rewrite Hfail. }
  split_and!; try (rewrite Hm; reflexivity).
  - intros Hinit. rewrite Hm. unfold shownProfiles. simpl. by rewrite Hinit.
  - apply mountEffect_browser.
  - intros acts b. apply performAll_browser.
  - intros ps Hw. split; [|by apply getProfiles_setProfiles].
    unfold Storage.setProfiles. by rewrite Hw.
Qed.

Lemma failed_connection_shows_nothing_witness :
  hd true (outcomes (remote (firstRender [false] [zedRow] browserWithZed))) = false ∧
  connectionStatus (ui (Manager.mountEffect (firstRender [false] [zedRow] browserWithZed)))
    = "Connection failed" ∧
  shownProfiles (Manager.mountEffect (firstRender [false] [zedRow] browserWithZed)) = [] ∧
  browser (Manager.mountEffect (firstRender [false] [zedRow] browserWithZed)) = browserWithZed.
Proof.
  split; [reflexivity|].
  destruct (failed_connection_shows_nothing
              (firstRender [false] [zedRow] browserWithZed) eq_refl)
    as (_ & Hstatus & _ & _ & Hshown & _ & _ & Hb & _).
  split; [exact Hstatus|]. split; [exact (Hshown eq_refl)|exact Hb].
Defined.

(** ** The local store: [updateProfile] *)

Lemma findIndex_Some {A} (f : A → bool) (l : list A) (i : nat) :
  findIndex f l = Some i →
  ∃ q, l !! i = Some q ∧ f q = true ∧
       ∀ j q', (j < i)%nat → l !! j = Some q' → f q' = false.
Proof.
  revert i. induction l as [|y l IH]; intros i; simpl; [done|].
  destruct (f y) eqn:Hy.
  - intros [= <-]. exists y. split_and!; [done|done|]. intros j q' Hj. lia.
  - intros Hi. apply fmap_Some in Hi as (k & Hk & ->).
    destruct (IH k Hk) as (q & Hq & Hfq & Hbefore).
    exists q. split_and!; [done|done|].
    intros [|j] q' Hj; simpl.
    + by intros [= <-].
    + apply Hbefore. lia.
Qed.

Lemma findIndex_None {A} (f : A → bool) (l : list A) :
  findIndex f l = None → ∀ q, q ∈ l → f q = false.
Proof.
  induction l as [|y l IH]; simpl.
  - intros _ q Hq. by apply elem_of_nil in Hq.
  - destruct (f y) eqn:Hy; [done|].
    intros Hn q Hq. apply fmap_None in Hn.
    apply elem_of_cons in Hq as [->|Hq]; [done|by apply IH].
Qed.

Lemma filter_insert_rejected {A} (g : A → bool) (l : list A) (i : nat) (p q : A) :
  l !! i = Some q → g q = false → g p = false →
  List.filter g (<[i := p]> l) = List.filter g l.
Proof.
  revert i. induction l as [|y l IH]; intros [|i]; simpl; try done.
  - intros [= ->] Hq Hp. by rewrite Hq, Hp.
  - intros Hi Hq Hp. by rewrite (IH i Hi Hq Hp).
Qed.

(** C10. In a browser, on a local store that holds a profile collection,
    [updateProfile p] stores the collection in which the first profile with
    the identifier of [p] is replaced by [p], at its place, or to which [p]
    is appended when no profile has that identifier; the profiles with another
    identifier stay as they are, where they are. *)
Theorem local_updateProfile_is_upsert (p : ProfileData) (b : Browser)
    (ps : list ProfileData) :
  hasWindow b = true →
  Storage.getProfiles b = Some ps →
  ∃ (b' : Browser) (ps' : list ProfileData),
    Storage.updateProfile p b = Some b' ∧
    Storage.getProfiles b' = Some ps' ∧
    ((∃ i q, ps !! i = Some q ∧ id q = id p ∧
             (∀ j q', (j < i)%nat → ps !! j = Some q' → id q' ≠ id p) ∧
             ps' = <[i := p]> ps ∧ ps' !! i = Some p ∧ length ps' = length ps)
     ∨ ((∀ q, q ∈ ps → id q ≠ id p) ∧ ps' = ps ++ [p])) ∧
    (∀ j q, ps !! j = Some q → id q ≠ id p → ps' !! j = Some q) ∧
    List.filter (λ q, negb (String.eqb (id q) (id p))) ps'
    = List.filter (λ q, negb (String.eqb (id q) (id p))) ps.
Proof.
  intros Hw Hget. unfold Storage.updateProfile. rewrite Hget. simpl.
  eexists _, _. split; [reflexivity|].
  split; [by apply getProfiles_setProfiles|].
  destruct (findIndex (λ q, String.eqb (id q) (id p)) ps) as [i|] eqn:Hfind.
  - destruct (findIndex_Some _ _ _ Hfind) as (q & Hq & Heq & Hbefore).
    apply String.eqb_eq in Heq.
    assert (i < length ps)%nat as Hi by (by eapply lookup_lt_Some).
    split_and!.
    + left. exists i, q. split_and!; [done|done| |done| |].
      * intros j q' Hj Hq'. apply String.eqb_neq. by eapply Hbefore.
      * by apply list_lookup_insert_eq.
      * apply length_insert.
    + intros j q' Hq' Hne. rewrite list_lookup_insert_ne; [done|].
      intros ->. congruence.
    + apply (filter_insert_rejected _ _ _ _ q); [done| |].
      * apply negb_false_iff, String.eqb_eq. done.
      * apply negb_false_iff, String.eqb_refl.
  - pose proof (findIndex_None _ _ Hfind) as Hnone.
    split_and!.
    + right. split; [|done]. intros q Hq. apply String.eqb_neq. by apply Hnone.
    + intros j q Hq _. unfold push. apply lookup_app_l_Some. done.
    + unfold push. rewrite List.filter_app. simpl.
      rewrite String.eqb_refl. simpl. apply app_nil_r.
Qed.

Lemma local_updateProfile_is_upsert_witness :
  hasWindow browserWithZed = true ∧
  Storage.getProfiles browserWithZed = Some [zedData] ∧
  ∃ (b' : Browser) (ps' : list ProfileData),
    Storage.updateProfile (mkProfile "0" "Renamed" [] None None) browserWithZed = Some b' ∧
    Storage.getProfiles b' = Some ps' ∧
    List.filter (λ q, negb (String.eqb (id q) "0")) ps'
    = List.filter (λ q, negb (String.eqb (id q) "0")) [zedData].
Proof.
  split; [reflexivity|]. split; [reflexivity|].
  destruct (local_updateProfile_is_upsert (mkProfile "0" "Renamed" [] None None)
              browserWithZed [zedData] eq_refl eq_refl)
    as (b' & ps' & Hupd & Hget & _ & _ & Hothers).
  by exists b', ps'.
Defined.

(** ** The realtime subscription *)

Module SubscriptionFacts.
Import Subscription.

Lemma run_app (st : SubState) (events later : list Event) :
  run st (events ++ later)
  = ((run (run st events).1 later).1, (run st events).2 ++ (run (run st events).1 later).2).
Proof.
  revert st. induction events as [|e events IH]; intros st; simpl.
  - by destruct (run st later).
  - destruct (step st e) as [st1 calls1]. rewrite IH.
    destruct (run st1 events) as [st2 calls2]. simpl.
    by rewrite app_assoc.
Qed.

Lemma step_consistent (st : SubState) (e : Event) :
  consistent st → consistent (step st e).1.
Proof.
  unfold consistent. destruct st as [[] j n k], e as [|result|]; simpl; intros ->; simpl;
    try done; by destruct j.
Qed.

Lemma run_consistent (st : SubState) (events : list Event) :
  consistent st → consistent (run st events).1.
Proof.
  revert st. induction events as [|e events IH]; intros st Hc; simpl; [done|].
  pose proof (step_consistent st e Hc) as Hc1.
  destruct (step st e) as [st1 calls1].
  specialize (IH st1 Hc1). by destruct (run st1 events).
Qed.

Lemma run_callbacks_started (st : SubState) (events : list Event) :
  consistent st →
  length (run st events).2 + inFlight (run st events).1
  ≤ inFlight st + (started (run st events).1 - started st) ∧
  started st ≤ started (run st events).1.
Proof.
  revert st. induction events as [|e events IH]; intros st Hc; simpl; [lia|].
  pose proof (step_consistent st e Hc) as Hc1.
  assert (length (step st e).2 + inFlight (step st e).1
          ≤ inFlight st + (started (step st e).1 - started st) ∧
          started st ≤ started (step st e).1) as Hstep.
  { unfold consistent in Hc.
    destruct st as [[] j n k], e as [|[fetched|]|]; simpl in *; subst; simpl;
      try lia; destruct j; simpl; lia. }
  destruct (step st e) as [st1 calls1].
  destruct (IH st1 Hc1) as [IH1 IH2].
  destruct (run st1 events) as [st2 calls2]. simpl in *.
  rewrite length_app. lia.
Qed.

(** Once the channel is left, nothing starts a request, and the callback is
    called at most once for each request still awaiting its response. *)
Lemma run_unsubscribed (st : SubState) (events : list Event) :
  joined st = false →
  joined (run st events).1 = false ∧
  started (run st events).1 = started st ∧
  length (run st events).2 + inFlight (run st events).1 ≤ inFlight st.
Proof.
  revert st. induction events as [|e events IH]; intros st Hj; simpl; [by split_and!|].
  assert (joined (step st e).1 = false ∧ started (step st e).1 = started st ∧
          length (step st e).2 + inFlight (step st e).1 ≤ inFlight st) as Hstep.
  { destruct st as [p j n k], e as [|[fetched|]|]; simpl in *; subst; simpl;
      try (split_and!; [done|done|lia]);
      destruct n; simpl; split_and!; try done; lia. }
  destruct (step st e) as [st1 calls1]. simpl in Hstep.
  destruct Hstep as (Hj1 & Hs1 & Hc1).
  destruct (IH st1 Hj1) as (IHj & IHs & IHc).
  destruct (run st1 events) as [st2 calls2]. simpl in *.
  rewrite length_app. split_and!; [done|congruence|lia].
Qed.

End SubscriptionFacts.

(** A notification, then [unsubscribe], then the response of the request that
    the notification started: the callback is called with the response. *)
Lemma unsubscribe_does_not_drop_pending_fetch : ¬ unsubscribe_silences_callback.
Proof.
  intros Hspec.
  specialize (Hspec [Subscription.Notification] [Subscription.FetchSettled (Some [zedData])]).
  vm_compute in Hspec. discriminate.
Qed.

(** C5 (as the program has it). After [unsubscribe], no notification starts a
    request any more, and the callback is called at most once: only when a
    request was awaiting its response at that moment, by that response, which
    is handed over and not dropped.  With no request awaiting its response,
    the callback is never called again. *)
Theorem unsubscribe_stops_new_fetches (before later : list Subscription.Event) :
  let st := Subscription.after Subscription.subscribeToProfiles before in
  let st' := Subscription.unsubscribe st in
  Subscription.started (Subscription.after st' later) = Subscription.started st ∧
  length (Subscription.callbacks st' later) ≤ (if Subscription.isProcessing st then 1 else 0) ∧
  (Subscription.isProcessing st = false → Subscription.callbacks st' later = []) ∧
  (Subscription.isProcessing st = true →
     ∀ fetched, Subscription.callbacks st' [Subscription.FetchSettled (Some fetched)]
                = [fetched]).
Proof.
  intros st st'.
  assert (Subscription.consistent st) as Hc.
  { apply SubscriptionFacts.run_consistent. reflexivity. }
  destruct (SubscriptionFacts.run_unsubscribed st' later eq_refl) as (_ & Hs & Hlen).
  unfold Subscription.consistent in Hc.
  assert (length (Subscription.callbacks st' later)
          ≤ (if Subscription.isProcessing st then 1 else 0)) as Hbound.
  { unfold Subscription.callbacks. simpl in Hlen. rewrite Hc in Hlen. lia. }
  split_and!; [done|done| |].
  - intros Hp. rewrite Hp in Hbound.
    destruct (Subscription.callbacks st' later); [done|simpl in Hbound; lia].
  - intros Hp fetched. rewrite Hp in Hc.
    unfold Subscription.callbacks. simpl. by rewrite Hc.
Qed.

Lemma unsubscribe_stops_new_fetches_witness :
  Subscription.isProcessing
    (Subscription.after Subscription.subscribeToProfiles
       [Subscription.Notification; Subscription.FetchSettled (Some [])]) = false ∧
  Subscription.callbacks
    (Subscription.unsubscribe
       (Subscription.after Subscription.subscribeToProfiles
          [Subscription.Notification; Subscription.FetchSettled (Some [])]))
    [Subscription.Notification; Subscription.FetchSettled (Some [zedData])] = [].
Proof.
  split; [reflexivity|].
  apply (unsubscribe_stops_new_fetches
           [Subscription.Notification; Subscription.FetchSettled (Some [])]
           [Subscription.Notification; Subscription.FetchSettled (Some [zedData])]).
  reflexivity.
Defined.

(** C6. At any moment at most one request awaits its response, and one does
    exactly when [isProcessing] is set.  A notification that arrives then
    changes nothing and calls nothing: the run goes on as if it had not
    arrived, so no request and no call of the callback is ever due to it.
    The callback is called at most once per request started. *)
Theorem overlapping_notifications_are_dropped (before later : list Subscription.Event) :
  let st := Subscription.after Subscription.subscribeToProfiles before in
  Subscription.inFlight st ≤ 1 ∧
  (Subscription.isProcessing st = true ↔ Subscription.inFlight st = 1) ∧
  length (Subscription.callbacks Subscription.subscribeToProfiles before)
    + Subscription.inFlight st ≤ Subscription.started st ∧
  (Subscription.isProcessing st = true →
     Subscription.step st Subscription.Notification = (st, []) ∧
     Subscription.run Subscription.subscribeToProfiles
       (before ++ Subscription.Notification :: later)
     = Subscription.run Subscription.subscribeToProfiles (before ++ later)).
Proof.
  intros st.
  assert (Subscription.consistent st) as Hc.
  { apply SubscriptionFacts.run_consistent. reflexivity. }
  unfold Subscription.consistent in Hc.
  split_and!.
  - rewrite Hc. destruct (Subscription.isProcessing st); lia.
  - rewrite Hc. destruct (Subscription.isProcessing st); split; (done || lia).
  - destruct (SubscriptionFacts.run_callbacks_started
                Subscription.subscribeToProfiles before eq_refl) as [Hlen _].
    unfold Subscription.callbacks. fold (Subscription.after Subscription.subscribeToProfiles before) in Hlen.
    fold st in Hlen. simpl in Hlen. lia.
  - intros Hp.
    assert (Subscription.step st Subscription.Notification = (st, [])) as Hstep.
    { unfold Subscription.step, Subscription.processUpdate_start. rewrite Hp.
      by destruct (Subscription.joined st). }
    split; [done|].
    rewrite !SubscriptionFacts.run_app.
    fold (Subscription.after Subscription.subscribeToProfiles before). fold st.
    cbn [Subscription.run]. rewrite Hstep.
    by destruct (Subscription.run st later).
Qed.

Lemma overlapping_notifications_are_dropped_witness :
  Subscription.isProcessing
    (Subscription.after Subscription.subscribeToProfiles [Subscription.Notification]) = true ∧
  Subscription.run Subscription.subscribeToProfiles
    ([Subscription.Notification] ++ Subscription.Notification
       :: [Subscription.FetchSettled (Some [zedData])])
  = Subscription.run Subscription.subscribeToProfiles
      ([Subscription.Notification] ++ [Subscription.FetchSettled (Some [zedData])]).
Proof.
  split; [reflexivity|].
  apply (overlapping_notifications_are_dropped [Subscription.Notification]
           [Subscription.FetchSettled (Some [zedData])]).
  reflexivity.
Defined.

(** ** The session: what loading establishes, and deleting a profile *)

Lemma request_wf (c : Call) (r : Remote) :
  store_wf r → store_wf (Database.request c r).2.
Proof. done. Qed.

Lemma getProfiles_wf (r : Remote) :
  store_wf r →
  store_wf (Database.getProfiles r).2 ∧
  table (Database.getProfiles r).2 = table r ∧
  (outcomes r = [] → outcomes (Database.getProfiles r).2 = []) ∧
  NoDup (id <$> (Database.getProfiles r).1) ∧
  (id <$> (Database.getProfiles r).1) ⊆ storeIds r ∧
  (outcomes r = [] → table r ≠ [] → (Database.getProfiles r).1 ≠ []).
Proof.
  intros Hwf. destruct (getProfiles_result r) as [Hd Hr]. rewrite Hd, Hr.
  assert (id <$> (row_json <$> Database.ordered (table r)) ≡ₚ storeIds r) as Hperm.
  { rewrite <- list_fmap_compose. unfold storeIds.
    rewrite (ordered_perm (table r)). done. }
  split_and!.
  - exact Hwf.
  - reflexivity.
  - (intros Ho; cbn -[pretty]; by rewrite Ho).
  - destruct (hd true (outcomes r)); [|constructor]. rewrite Hperm. apply Hwf.
  - destruct (hd true (outcomes r)); [|apply list_subseteq_nil].
    intros i. by rewrite Hperm.
  - intros Ho Hne. rewrite Ho. simpl. intros Hnil. apply fmap_nil_inv in Hnil.
    by apply ordered_nil_inv in Hnil.
Qed.

Lemma createProfile_wf (n : string) (r : Remote) :
  store_wf r →
  store_wf (Database.createProfile n r).2 ∧
  (outcomes r = [] → outcomes (Database.createProfile n r).2 = []) ∧
  (outcomes r = [] → is_Some (Database.createProfile n r).1) ∧
  storeIds r ⊆ storeIds (Database.createProfile n r).2 ∧
  next_id r ≤ next_id (Database.createProfile n r).2 ∧
  (table r ≠ [] → table (Database.createProfile n r).2 ≠ []) ∧
  ∀ d, (Database.createProfile n r).1 = Some d →
       id d = pretty (next_id r) ∧
       id d ∈ storeIds (Database.createProfile n r).2 ∧
       next_id (Database.createProfile n r).2 = S (next_id r) ∧
       table (Database.createProfile n r).2 ≠ [].
Proof.
  intros [Hnd Hissued]. unfold Database.createProfile, Database.request.
  destruct (hd true (outcomes r)) eqn:Hok; cbn -[pretty].
  - assert (pretty (next_id r) ∉ storeIds r) as Hfresh.
    { intros Hin. destruct (Hissued _ Hin) as (k & Hk & Heq).
      apply (inj pretty) in Heq. lia. }
    split_and!.
    + split.
      * unfold storeIds. cbn -[pretty]. rewrite fmap_app. cbn -[pretty].
        apply NoDup_app. split_and!; [done| |apply NoDup_singleton].
        intros i Hi Hi'. apply list_elem_of_singleton in Hi'. by subst.
      * unfold storeIds. cbn -[pretty]. intros i. rewrite fmap_app, elem_of_app.
        intros [Hi|Hi].
        -- destruct (Hissued _ Hi) as (k & Hk & ->). exists k. split; [lia|done].
        -- apply list_elem_of_singleton in Hi. exists (next_id r). split; [lia|done].
    + (intros Ho; cbn -[pretty]; by rewrite Ho).
    + by eexists.
    + unfold storeIds. cbn -[pretty]. rewrite fmap_app. by apply list_subseteq_app_l.
    + lia.
    + intros _. by destruct (table r).
    + intros d [= <-]. cbn -[pretty]. split_and!; [done| |done|by destruct (table r)].
      unfold storeIds. cbn -[pretty]. rewrite fmap_app, elem_of_app. right. by left.
  - split_and!; try done.
    + (intros Ho; cbn -[pretty]; by rewrite Ho).
    + intros Hrel. by rewrite Hrel in Hok.
Qed.

Lemma update_row_id (p : ProfileData) (now : nat) (row : Row) :
  row_id (Database.update_row p now row) = row_id row.
Proof. unfold Database.update_row. by destruct (Database.has_id (id p) row). Qed.

Lemma await_getProfiles_wf (s : Sys) :
  store_wf (remote s) →
  store_wf (remote (Manager.await_getProfiles s).2) ∧
  table (remote (Manager.await_getProfiles s).2) = table (remote s) ∧
  ui (Manager.await_getProfiles s).2 = ui s ∧
  NoDup (id <$> (Manager.await_getProfiles s).1) ∧
  (id <$> (Manager.await_getProfiles s).1) ⊆ storeIds (remote s) ∧
  (outcomes (remote s) = [] →
     outcomes (remote (Manager.await_getProfiles s).2) = [] ∧
     (table (remote s) ≠ [] → (Manager.await_getProfiles s).1 ≠ [])).
Proof.
  intros Hwf.
  destruct (getProfiles_wf (remote s) Hwf) as (Hwf1 & Ht & Ho & Hnd & Hsub & Hne).
  destruct (await_getProfiles_frame s) as (Hui & _ & Hr & _ & Hlen).
  assert (id <$> (Manager.await_getProfiles s).1
          = id <$> (Database.getProfiles (remote s)).1) as Hids.
  { unfold Manager.await_getProfiles.
    destruct (Database.getProfiles (remote s)) as [data r1].
    pose proof (alloc_all_ids (heap s) data) as Hi.
    by destruct (alloc_all (heap s) data). }
  rewrite Hr, Hids. split_and!; try done.
  intros Ho'. split; [by apply Ho|].
  intros Hne' Hnil. rewrite Hnil in Hlen. simpl in Hlen.
  specialize (Hne Ho' Hne'). by destruct (Database.getProfiles (remote s)).1.
Qed.

Lemma await_createProfile_frame (n : string) (s : Sys) :
  remote (Manager.await_createProfile n s).2 = (Database.createProfile n (remote s)).2 ∧
  ui (Manager.await_createProfile n s).2 = ui s ∧
  id <$> (Manager.await_createProfile n s).1 = id <$> (Database.createProfile n (remote s)).1.
Proof.
  unfold Manager.await_createProfile.
  by destruct (Database.createProfile n (remote s)) as [[d|] r1].
Qed.

(** A page that shows what it has just fetched. *)
Lemma session_inv_fetched (s0 s' : Sys) :
  store_wf (remote s0) → table (remote s0) ≠ [] →
  remote s' = remote (Manager.await_getProfiles s0).2 →
  profiles (ui s') = (Manager.await_getProfiles s0).1 →
  session_inv s' ∧ (outcomes (remote s0) = [] → reliable_and_shown s').
Proof.
  intros Hwf Hne Hr Hp.
  destruct (await_getProfiles_wf s0 Hwf) as (Hwf1 & Ht & _ & Hnd & Hsub & Hrel).
  unfold session_inv, reliable_and_shown, pageIds, storeIds in *.
  rewrite Hr, Hp, Ht. split; [by split_and!|].
  intros Ho. destruct (Hrel Ho) as [Ho1 Hshown]. split; [done|by apply Hshown].
Qed.

(** Loading gives a page that satisfies the invariant, also in front of an
    empty store when the requests succeed. *)
Lemma loadProfiles_establishes (s : Sys) :
  store_wf (remote s) →
  table (remote s) ≠ [] ∨ outcomes (remote s) = [] →
  session_inv (Manager.loadProfiles s) ∧
  (outcomes (remote s) = [] → reliable_and_shown (Manager.loadProfiles s)).
Proof.
  intros Hwf Hor.
  unfold Manager.loadProfiles.
  set (s0 := with_ui (setLoading true) s).
  destruct (await_getProfiles_wf s0 Hwf) as (Hwf1 & Ht1 & Hui1 & Hnd1 & Hsub1 & Hrel1).
  pose proof (session_inv_fetched s0
                (with_ui (setLoading false)
                   (with_ui (setSelectedProfile (head (Manager.await_getProfiles s0).1))
                      (with_ui (setProfiles (Manager.await_getProfiles s0).1)
                         (Manager.await_getProfiles s0).2))) Hwf) as Hfetched.
  destruct (Manager.await_getProfiles s0) as [stored s1]. simpl in *.
  destruct (length stored =? 0) eqn:Hlen.
  2:{ apply Hfetched; [|done|done].
      intros Hnil. destruct stored as [|p0 stored]; [done|].
      assert (id p0 ∈ storeIds (remote s)) as Hin by (apply Hsub1; left).
      unfold storeIds in Hin. rewrite Hnil in Hin. by apply elem_of_nil in Hin. }
  clear Hfetched.
  destruct (createProfile_wf "Me" (remote s1) Hwf1)
    as (Hwf2 & Ho2 & Hok2 & Hsub2 & Hnext2 & Hne2 & Hnew2).
  destruct (await_createProfile_frame "Me" s1) as (Hr2 & Hui2 & Hid2).
  destruct (Manager.await_createProfile "Me" s1) as [me s2]. simpl in *.
  rewrite <- Hr2 in *.
  destruct (createProfile_wf "My Friend" (remote s2) Hwf2)
    as (Hwf3 & Ho3 & Hok3 & Hsub3 & Hnext3 & Hne3 & Hnew3).
  destruct (await_createProfile_frame "My Friend" s2) as (Hr3 & Hui3 & Hid3).
  destruct (Manager.await_createProfile "My Friend" s2) as [friend s3]. simpl in *.
  rewrite <- Hr3 in *.
  assert (table (remote s3) ≠ []) as Hne'.
  { destruct Hor as [Hne|Ho].
    - apply Hne3, Hne2. by rewrite Ht1.
    - destruct (Hrel1 Ho) as [Ho1 _]. destruct (Hok2 Ho1) as [d1 Hd1].
      apply Hne3. by apply (Hnew2 d1). }
  split.
  - unfold session_inv, pageIds. simpl. split_and!; [done|done| |].
    + destruct me as [me|], friend as [friend|]; simpl;
        try (apply NoDup_nil_2); try (apply NoDup_singleton).
      destruct (Database.createProfile "Me" (remote s1)).1 as [d1|] eqn:E1; [|done].
      destruct (Database.createProfile "My Friend" (remote s2)).1 as [d2|] eqn:E2; [|done].
      simpl in *. destruct (Hnew2 d1 eq_refl) as (Hi1 & _ & Hn1 & _).
      destruct (Hnew3 d2 eq_refl) as (Hi2 & _ & _ & _).
      injection Hid2 as Hid2. injection Hid3 as Hid3.
      apply NoDup_cons. split; [|apply NoDup_singleton].
      intros Hin. apply list_elem_of_singleton in Hin.
      rewrite Hid2, Hid3, Hi1, Hi2, Hn1 in Hin. apply (inj pretty) in Hin. lia.
    + intros i Hi.
      destruct me as [me|]; simpl in Hi.
      * destruct (Database.createProfile "Me" (remote s1)).1 as [d1|] eqn:E1; [|done].
        destruct (Hnew2 d1 eq_refl) as (_ & Hin1 & _ & _).
        injection Hid2 as Hid2.
        apply elem_of_cons in Hi as [->|Hi]; [apply Hsub3; by rewrite Hid2|].
        destruct friend as [friend|]; simpl in Hi; [|by apply elem_of_nil in Hi].
        destruct (Database.createProfile "My Friend" (remote s2)).1 as [d2|] eqn:E2; [|done].
        destruct (Hnew3 d2 eq_refl) as (_ & Hin2 & _ & _).
        injection Hid3 as Hid3.
        apply list_elem_of_singleton in Hi as ->. by rewrite Hid3.
      * destruct friend as [friend|]; simpl in Hi; [|by apply elem_of_nil in Hi].
        destruct (Database.createProfile "My Friend" (remote s2)).1 as [d2|] eqn:E2; [|done].
        destruct (Hnew3 d2 eq_refl) as (_ & Hin2 & _ & _).
        injection Hid3 as Hid3.
        apply list_elem_of_singleton in Hi as ->. by rewrite Hid3.
  - intros Ho. destruct (Hrel1 Ho) as [Ho1 _].
    unfold reliable_and_shown. simpl. split; [by apply Ho3, Ho2|].
    destruct (Hok2 Ho1) as [d1 Hd1]. rewrite Hd1 in Hid2.
    destruct me as [me|]; [done|discriminate].
Qed.







(** ** The view: every mode and direction *)

Lemma array_sort_of_sorted {A} (cmp : A → A → Z) (l : list A) :
  StronglySorted (λ a b, (cmp a b ≤ 0)%Z) l → array_sort cmp l = l.
Proof.
  induction 1 as [|x l Hs IH Hx]; [done|].
  rewrite array_sort_cons, IH. destruct Hx as [|y l' Hxy _]; simpl; [done|].
  by destruct (Z.leb_spec (cmp x y) 0); [|lia].
Qed.

Lemma filter_all {A} (f : A → bool) (l : list A) :
  Forall (λ x, f x = true) l → List.filter f l = l.
Proof. induction 1 as [|x l Hx _ IH]; simpl; [done|]. by rewrite Hx, IH. Qed.

Section ViewOrder.
Context `{HostStrings}.

Lemma compareTiles_flip sortMode sortDirection completed a b :
  (0 < compareTiles sortMode sortDirection completed a b →
   compareTiles sortMode sortDirection completed b a < 0)%Z.
Proof.
  unfold compareTiles.
  destruct sortMode, sortDirection;
    try destruct (includes completed (tile_name a)), (includes completed (tile_name b));
    simpl; try lia; apply localeCompare_flip.
Qed.

Lemma compareTiles_trans sortMode sortDirection completed a b c :
  (compareTiles sortMode sortDirection completed a b ≤ 0 →
   compareTiles sortMode sortDirection completed b c ≤ 0 →
   compareTiles sortMode sortDirection completed a c ≤ 0)%Z.
Proof.
  unfold compareTiles.
  destruct sortMode, sortDirection;
    try destruct (includes completed (tile_name a)), (includes completed (tile_name b)),
      (includes completed (tile_name c));
    simpl; intros Hab Hbc; first [lia | by eapply localeCompare_trans].
Qed.

(** X1. In every mode and direction the sorted images are in the order of the
    comparator handed to [sort]: no image is followed, at any distance, by one
    that the comparator puts strictly before it.  In alphabetical mode this is
    the ascending order of the names when the direction is ascending and the
    descending order when it is descending. *)
Theorem sorted_images_are_ordered (sortMode : SortMode) (sortDirection : SortDirection)
    (completed : list string) (images : list ImageTile) :
  StronglySorted
    (λ a b, (compareTiles sortMode sortDirection completed a b ≤ 0)%Z)
    (sortedImages sortMode sortDirection completed images) ∧
  StronglySorted nameLe (sortedImages Alphabetical Asc completed images) ∧
  StronglySorted (λ a b, nameLe b a) (sortedImages Alphabetical Desc completed images).
Proof.
  assert (∀ m d, StronglySorted (λ a b, (compareTiles m d completed a b ≤ 0)%Z)
                   (sortedImages m d completed images)) as Hsorted.
  { intros m d. apply (array_sort_sorted (compareTiles m d completed)).
    - intros a b. apply compareTiles_flip.
    - intros a b c. apply compareTiles_trans. }
  split_and!; [apply Hsorted|apply (Hsorted Alphabetical Asc)|apply (Hsorted Alphabetical Desc)].
Qed.

(** X2. Sorting again what is sorted changes nothing: the sorted images of the
    sorted images, and the view of a view, are the list itself. *)
Theorem view_of_view (images : list ImageTile) (completed : list string)
    (searchText : string) (sortMode : SortMode) (sortDirection : SortDirection) :
  sortedImages sortMode sortDirection completed
    (sortedImages sortMode sortDirection completed images)
  = sortedImages sortMode sortDirection completed images ∧
  view (view images completed searchText sortMode sortDirection)
    completed searchText sortMode sortDirection
  = view images completed searchText sortMode sortDirection.
Proof.
  assert (∀ l, StronglySorted (λ a b, (compareTiles sortMode sortDirection completed a b ≤ 0)%Z)
                 (sortedImages sortMode sortDirection completed l)) as Hsorted.
  { intros l. apply (array_sort_sorted (compareTiles sortMode sortDirection completed)).
    - intros a b. apply compareTiles_flip.
    - intros a b c. apply compareTiles_trans. }
  split.
  - apply array_sort_of_sorted, Hsorted.
  - unfold view at 1. unfold filteredImages at 1. rewrite filter_all.
    + apply array_sort_of_sorted, Hsorted.
    + apply Forall_forall. intros image Himage.
      unfold view, sortedImages in Himage. rewrite array_sort_perm in Himage.
      apply list_elem_of_In, filter_In in Himage. tauto.
Qed.

End ViewOrder.

(** ** The confirmation step *)

(** X3. A click on the circle of a champion asks for "add" exactly when the
    champion is not among the completed ones.  Confirming at once toggles that
    champion on the selected profile and closes the dialog; on a completed-set
    without duplicates the champion is completed afterwards exactly when "add"
    was asked for, and a sound is started exactly then, provided the sounds
    are loaded.  Cancelling closes the dialog and plays nothing. *)
Theorem confirm_commits_requested_toggle (s : Sys) (sel : Profile) (g : Grid.GridState)
    (name : string) :
  selectedProfile (ui s) = Some sel →
  firstplacechampions sel < length (heap s) →
  NoDup (selectedChampions s) →
  let asked := Grid.handleCircleClick (selectedChampions s) name g in
  let confirmed := Grid.confirmToggle (Some Manager.toggleChampionWin) asked s in
  Grid.show (Grid.confirmation asked) = true ∧
  Grid.championName (Grid.confirmation asked) = name ∧
  (Grid.action (Grid.confirmation asked) = Grid.AddChampion ↔ name ∉ selectedChampions s) ∧
  confirmed.2 = Manager.toggleChampionWin name s ∧
  (name ∈ heap_get (heap confirmed.2) (firstplacechampions sel)
     ↔ Grid.action (Grid.confirmation asked) = Grid.AddChampion) ∧
  Grid.soundsPlayed confirmed.1
    = Grid.soundsPlayed g
      + (match Grid.action (Grid.confirmation asked) with
         | Grid.AddChampion => if Grid.audioRefs g =? 0 then 0 else 1
         | Grid.RemoveChampion => 0
         end) ∧
  Grid.confirmation confirmed.1 = Grid.closed ∧
  Grid.cancelToggle asked = Grid.setConfirmation Grid.closed g.
Proof.
  intros Hsel Hloc Hnd asked confirmed.
  assert (Grid.action (Grid.confirmation asked) = Grid.AddChampion
          ↔ name ∉ selectedChampions s) as Hadd.
  { unfold asked, Grid.handleCircleClick. simpl.
    destruct (includes (selectedChampions s) name) eqn:Hin.
    - apply includes_spec in Hin. split; [done|]. intros Hn. by destruct Hn.
    - split; [|done]. intros _ Hn. apply includes_spec in Hn. congruence. }
  destruct (toggleChampionWin_applies_toggle name s sel Hsel Hloc) as [Hcell _].
  split_and!.
  - done.
  - done.
  - done.
  - done.
  - change confirmed.2 with (Manager.toggleChampionWin name s).
    rewrite Hcell, Hadd. unfold selectedChampions in *. rewrite Hsel in *.
    destruct (decide (name ∈ heap_get (heap s) (firstplacechampions sel))) as [Hin|Hn].
    + destruct (toggleChampion_present _ _ Hin) as (front & back & Heq & Hf & ->).
      rewrite Heq in Hnd. apply NoDup_app in Hnd as (_ & _ & Hback).
      apply NoDup_cons in Hback as [Hb _]. rewrite elem_of_app. tauto.
    + rewrite (toggleChampion_absent _ _ Hn), elem_of_app, list_elem_of_singleton. tauto.
  - unfold confirmed, asked, Grid.confirmToggle, Grid.handleCircleClick,
      Grid.playRandomSound. simpl.
    destruct (includes (selectedChampions s) name); simpl; [lia|].
    destruct (Grid.audioRefs g =? 0); simpl; lia.
  - unfold confirmed, asked, Grid.confirmToggle, Grid.handleCircleClick. simpl.
    by destruct (includes (selectedChampions s) name).
  - done.
Qed.

Lemma confirm_commits_requested_toggle_witness :
  NoDup (selectedChampions zedPage) ∧
  Grid.soundsPlayed
    (Grid.confirmToggle (Some Manager.toggleChampionWin)
       (Grid.handleCircleClick (selectedChampions zedPage) "Ahri"
          (Grid.mountGrid Grid.initialGrid)) zedPage).1 = 1.
Proof.
  assert (NoDup (selectedChampions zedPage)) as Hnd
    by (apply (bool_decide_unpack _); reflexivity).
  split; [done|].
  apply (confirm_commits_requested_toggle zedPage zedObject
           (Grid.mountGrid Grid.initialGrid) "Ahri" eq_refl); [vm_compute; lia|done].
Defined.

(** ** Adding a profile *)

Lemma trim_start_empty (s : string) : trim_start s = "" ↔ all_space s = true.
Proof.
  induction s as [|c s IH]; simpl; [done|].
  destruct (is_space c); simpl; [done|]. split; discriminate.
Qed.

Lemma trim_end_nonspace (c : Ascii.ascii) (s : string) :
  is_space c = false → trim_end (String c s) ≠ "".
Proof. intros Hc. simpl. rewrite Hc. by destruct (trim_end s). Qed.

Lemma trim_start_head (s : string) :
  trim_start s = "" ∨ ∃ c rest, trim_start s = String c rest ∧ is_space c = false.
Proof.
  induction s as [|c s IH]; simpl; [by left|].
  destruct (is_space c) eqn:Hc; [done|]. right. by exists c, s.
Qed.

Lemma trim_empty (s : string) : trim s = "" ↔ all_space s = true.
Proof.
  unfold trim. rewrite <- trim_start_empty.
  destruct (trim_start_head s) as [->|(c & rest & -> & Hc)]; [done|].
  split; [|discriminate]. intros Ht. by apply trim_end_nonspace in Ht.
Qed.

Lemma await_createProfile_ok (n : string) (s : Sys) :
  hd true (outcomes (remote s)) = true →
  Manager.await_createProfile n s
  = (Some (mkProfile (pretty (next_id (remote s))) n (length (heap s))
             (Some (iso (S (clock (remote s))))) (Some (iso (S (clock (remote s)))))),
     mkSys (ui s) (heap s ++ [[]])
       (mkRemote
          (table (remote s)
           ++ [mkRow (pretty (next_id (remote s))) n [] (S (clock (remote s)))
                 (S (clock (remote s)))])
          (S (next_id (remote s))) (S (clock (remote s))) (tl (outcomes (remote s)))
          (log (remote s) ++ [CallInsert n]))
       (browser s)).
Proof.
  intros Hok. unfold Manager.await_createProfile, Database.createProfile, Database.request.
  by rewrite Hok.
Qed.

(** The page after a fetch that succeeded shows the rows of the store. *)
Lemma await_getProfiles_ok (s : Sys) :
  hd true (outcomes (remote s)) = true →
  deref (heap (Manager.await_getProfiles s).2) <$> (Manager.await_getProfiles s).1
    = row_json <$> Database.ordered (table (remote s)) ∧
  table (remote (Manager.await_getProfiles s).2) = table (remote s) ∧
  log (remote (Manager.await_getProfiles s).2) = log (remote s) ++ [CallSelect] ∧
  outcomes (remote (Manager.await_getProfiles s).2) = tl (outcomes (remote s)) ∧
  ui (Manager.await_getProfiles s).2 = ui s ∧
  ∃ newArrays, heap (Manager.await_getProfiles s).2 = heap s ++ newArrays.
Proof.
  intros Hok. pose proof (await_getProfiles_shown s) as Hshown.
  destruct (await_getProfiles_frame s) as (Hui & _ & Hr & Hh & _).
  destruct (getProfiles_result (remote s)) as [Hdata Hr'].
  rewrite Hok in Hdata. rewrite Hr' in Hr. rewrite Hshown, Hdata, Hr.
  split_and!; try done. by eexists.
Qed.

(** X4. A name made of white space only is refused: nothing changes and no
    request is made.  Any other name of ASCII characters is sent trimmed;
    when the creation and the fetch that follows succeed, the store has one
    more row, with the trimmed name and no completed champion, the page shows
    the rows of the store, the new profile is selected, and the form is
    closed and emptied. *)
Theorem add_profile_outcome (s : Sys) :
  (all_space (newProfileName (ui s)) = true → Manager.handleAddProfile s = s) ∧
  (ascii_only (newProfileName (ui s)) = true →
   all_space (newProfileName (ui s)) = false →
   hd true (outcomes (remote s)) = true →
   hd true (tl (outcomes (remote s))) = true →
   let created :=
     mkRow (pretty (next_id (remote s))) (trim (newProfileName (ui s))) []
       (S (clock (remote s))) (S (clock (remote s))) in
   trim (newProfileName (ui s)) ≠ "" ∧
   table (remote (Manager.handleAddProfile s)) = table (remote s) ++ [created] ∧
   log (remote (Manager.handleAddProfile s))
     = log (remote s) ++ [CallInsert (trim (newProfileName (ui s))); CallSelect] ∧
   shownProfiles (Manager.handleAddProfile s)
     = row_json <$> Database.ordered (table (remote s) ++ [created]) ∧
   shownSelected (Manager.handleAddProfile s) = Some (row_json created) ∧
   newProfileName (ui (Manager.handleAddProfile s)) = "" ∧
   showAddForm (ui (Manager.handleAddProfile s)) = false).
Proof.
  split.
  - intros Hblank. apply trim_empty in Hblank.
    unfold Manager.handleAddProfile. by rewrite Hblank, String.eqb_refl.
  - intros _ Hname Hok1 Hok2 created.
    assert (trim (newProfileName (ui s)) ≠ "") as Hne.
    { intros Ht. apply trim_empty in Ht. congruence. }
    split; [done|].
    unfold Manager.handleAddProfile.
    apply String.eqb_neq in Hne. rewrite Hne.
    rewrite (await_createProfile_ok _ s Hok1).
    set (p := mkProfile (pretty (next_id (remote s))) _ (length (heap s)) _ _).
    set (s2 := with_ui (setShowAddForm false) (with_ui (setNewProfileName "") _)).
    destruct (await_getProfiles_ok s2 Hok2) as (Hshown & Ht & Hl & _ & Hui & newArrays & Hh).
    destruct (Manager.await_getProfiles s2) as [updatedProfiles s3]. simpl in Hshown, Ht, Hl, Hui, Hh.
    unfold shownProfiles, shownSelected. cbn -[pretty Database.ordered].
    rewrite Hshown, Ht, Hl, Hui, Hh. cbn -[pretty Database.ordered].
    split_and!; [done|by rewrite <- app_assoc|done| |done|done].
    f_equal. unfold deref, row_json. cbn -[pretty]. f_equal.
    rewrite <- app_assoc. apply heap_get_fresh.
Qed.

Lemma add_profile_outcome_witness :
  ascii_only (newProfileName (ui (with_ui (setNewProfileName "  Bob ") twoProfilesPage)))
    = true ∧
  all_space (newProfileName (ui (with_ui (setNewProfileName "  Bob ") twoProfilesPage)))
    = false ∧
  name <$> shownSelected
             (Manager.handleAddProfile (with_ui (setNewProfileName "  Bob ") twoProfilesPage))
    = Some "Bob" ∧
  Manager.handleAddProfile (with_ui (setNewProfileName "   ") twoProfilesPage)
    = with_ui (setNewProfileName "   ") twoProfilesPage.
Proof.
  split; [reflexivity|]. split; [reflexivity|]. split.
  - destruct (add_profile_outcome (with_ui (setNewProfileName "  Bob ") twoProfilesPage))
      as [_ Hadd].
    destruct (Hadd eq_refl eq_refl eq_refl eq_refl) as (_ & _ & _ & _ & -> & _). reflexivity.
  - apply (add_profile_outcome (with_ui (setNewProfileName "   ") twoProfilesPage)).
    reflexivity.
Defined.

(** ** Updating a profile *)

Lemma filter_fmap_comm {A B} (g : B → bool) (f : A → B) (l : list A) :
  List.filter g (f <$> l) = f <$> List.filter (λ x, g (f x)) l.
Proof.
  induction l as [|x l IH]; simpl; [done|].
  destruct (g (f x)); simpl; [f_equal|]; exact IH.
Qed.

Lemma filter_none {A} (f : A → bool) (l : list A) :
  (∀ x, x ∈ l → f x = false) → List.filter f l = [].
Proof.
  induction l as [|x l IH]; simpl; intros Hall; [done|].
  rewrite (Hall x) by left. apply IH. intros y Hy. apply Hall. by right.
Qed.

Lemma unique_by_id (t : list Row) (a b : Row) :
  NoDup (row_id <$> t) → a ∈ t → b ∈ t → row_id a = row_id b → a = b.
Proof.
  induction t as [|row t IH]; simpl; intros Hnd Ha Hb Heq.
  - by apply elem_of_nil in Ha.
  - apply NoDup_cons in Hnd as [Hnot Hnd].
    apply elem_of_cons in Ha as [->|Ha]; apply elem_of_cons in Hb as [->|Hb].
    + done.
    + exfalso. apply Hnot. rewrite Heq. by apply list_elem_of_fmap_2.
    + exfalso. apply Hnot. rewrite <- Heq. by apply list_elem_of_fmap_2.
    + by apply IH.
Qed.

Lemma filter_has_id_unique (t : list Row) (row : Row) :
  NoDup (row_id <$> t) → row ∈ t →
  List.filter (Database.has_id (row_id row)) t = [row].
Proof.
  induction t as [|r t IH]; simpl; intros Hnd Hin.
  - by apply elem_of_nil in Hin.
  - apply NoDup_cons in Hnd as [Hnot Hnd]. unfold Database.has_id at 1.
    destruct (String.eqb_spec (row_id r) (row_id row)) as [Heq|Hne].
    + assert (row = r) as ->.
      { apply elem_of_cons in Hin as [->|Hin]; [done|].
        exfalso. apply Hnot. rewrite Heq. by apply list_elem_of_fmap_2. }
      f_equal. apply filter_none. intros x Hx. unfold Database.has_id.
      apply String.eqb_neq. intros Hxr. apply Hnot. rewrite <- Hxr.
      by apply list_elem_of_fmap_2.
    + apply elem_of_cons in Hin as [->|Hin]; [done|]. by apply IH.
Qed.

Lemma has_id_update_row (i : string) (p : ProfileData) (now : nat) (row : Row) :
  Database.has_id i (Database.update_row p now row) = Database.has_id i row.
Proof. unfold Database.has_id. by rewrite update_row_id. Qed.

Lemma update_row_other (p : ProfileData) (now : nat) (row : Row) :
  row_id row ≠ id p → Database.update_row p now row = row.
Proof.
  intros Hne. unfold Database.update_row, Database.has_id.
  by apply String.eqb_neq in Hne as ->.
Qed.

Lemma update_row_same (p : ProfileData) (now : nat) (row : Row) :
  row_id row = id p →
  Database.update_row p now row
  = mkRow (id p) (name p) (firstplacechampions p) (row_created row) now.
Proof.
  intros Heq. unfold Database.update_row, Database.has_id.
  rewrite Heq, String.eqb_refl. by rewrite <- Heq.
Qed.

(** The request that reaches a row: the store answers with the row as updated. *)
Lemma updateProfile_found (p : ProfileData) (r : Remote) :
  NoDup (storeIds r) → id p ∈ storeIds r → hd true (outcomes r) = true →
  ∃ old, old ∈ table r ∧ row_id old = id p ∧
    Database.updateProfile p r
    = (Some (row_json (mkRow (id p) (name p) (firstplacechampions p)
                         (row_created old) (S (clock r)))),
       mkRemote (Database.update_row p (S (clock r)) <$> table r) (next_id r)
         (S (clock r)) (tl (outcomes r))
         (log r ++ [CallUpdate (id p) (name p) (firstplacechampions p)])).
Proof.
  intros Hnd Hin Hok. apply list_elem_of_fmap in Hin as (old & Hid & Hold).
  exists old. split; [done|]. split; [done|].
  unfold Database.updateProfile, Database.request. rewrite Hok. cbn -[pretty].
  rewrite filter_fmap_comm.
  rewrite (filter_ext _ (Database.has_id (row_id old)))
    by (intros row; rewrite Hid; apply has_id_update_row).
  rewrite (filter_has_id_unique _ _ Hnd Hold). simpl.
  by rewrite update_row_same.
Qed.

(** The request that reaches no row, or fails: [null], and the table stays. *)
Lemma updateProfile_missing (p : ProfileData) (r : Remote) :
  (id p ∉ storeIds r) ∨ hd true (outcomes r) = false →
  (Database.updateProfile p r).1 = None ∧
  table (Database.updateProfile p r).2 = table r.
Proof.
  intros Hcase. unfold Database.updateProfile, Database.request.
  destruct (hd true (outcomes r)) eqn:Hok; [|done].
  destruct Hcase as [Hn|?]; [|done]. cbn -[pretty].
  rewrite filter_fmap_comm, filter_none; [done|].
  intros row Hrow. rewrite has_id_update_row. unfold Database.has_id.
  apply String.eqb_neq. intros Heq. apply Hn. rewrite <- Heq.
  by apply list_elem_of_fmap_2.
Qed.

Lemma handleUpdateProfile_ok (p : Profile) (s : Sys) :
  NoDup (storeIds (remote s)) → id p ∈ storeIds (remote s) →
  hd true (outcomes (remote s)) = true →
  hd true (tl (outcomes (remote s))) = true →
  ∃ old, old ∈ table (remote s) ∧ row_id old = id p ∧
    let new := mkRow (id p) (name p) (heap_get (heap s) (firstplacechampions p))
                 (row_created old) (S (clock (remote s))) in
    table (remote (Manager.handleUpdateProfile p s))
      = Database.update_row (deref (heap s) p) (S (clock (remote s))) <$> table (remote s) ∧
    new ∈ table (remote (Manager.handleUpdateProfile p s)) ∧
    shownProfiles (Manager.handleUpdateProfile p s)
      = row_json <$> Database.ordered (table (remote (Manager.handleUpdateProfile p s))) ∧
    shownSelected (Manager.handleUpdateProfile p s) = Some (row_json new) ∧
    editingProfile (ui (Manager.handleUpdateProfile p s)) = None.
Proof.
  intros Hnd Hin Hok1 Hok2.
  destruct (updateProfile_found (deref (heap s) p) (remote s) Hnd Hin Hok1)
    as (old & Hold & Hid & Hupd).
  exists old. split; [done|]. split; [done|]. intros new.
  cbn [deref id name firstplacechampions] in Hupd, Hid. fold new in Hupd.
  unfold Manager.handleUpdateProfile, Manager.await_updateProfile. rewrite Hupd.
  set (r1 := mkRemote _ _ _ _ _).
  assert (new ∈ table r1) as Hnew.
  { unfold r1. cbn -[pretty]. apply list_elem_of_fmap. exists old. split; [|done].
    unfold new. by rewrite update_row_same. }
  assert (NoDup (row_id <$> table r1)) as Hnd1.
  { unfold r1. cbn -[pretty]. rewrite <- list_fmap_compose.
    erewrite list_fmap_ext; [exact Hnd|]. intros _ row _. apply update_row_id. }
  assert (table r1
          = Database.update_row (deref (heap s) p) (S (clock (remote s))) <$> table (remote s))
    as Htable by reflexivity.
  assert (hd true (outcomes r1) = true) as Hok by exact Hok2.
  clearbody r1.
  set (s2 := with_ui (setEditingProfile None) (with_remote r1 s)).
  destruct (await_getProfiles_ok s2 Hok) as (Hshown & Ht & _ & _ & Hui & _).
  destruct (Manager.await_getProfiles s2) as [updatedProfiles s3].
  simpl in Hshown, Ht, Hui.
  assert (∃ u, List.find (λ q : Profile, String.eqb (id q) (id p)) updatedProfiles = Some u
               ∧ deref (heap s3) u = row_json new) as (u & Hfind & Hu).
  { destruct (List.find _ updatedProfiles) as [u|] eqn:Hfind.
    - exists u. split; [done|]. apply find_some in Hfind as [Hu Hidu].
      apply String.eqb_eq in Hidu.
      assert (deref (heap s3) u ∈ row_json <$> Database.ordered (table r1)) as Hd.
      { rewrite <- Hshown. apply list_elem_of_fmap_2. by apply list_elem_of_In. }
      apply list_elem_of_fmap in Hd as (row & Hrow & Hrowin).
      rewrite (ordered_perm _) in Hrowin. rewrite Hrow. f_equal.
      apply (unique_by_id (table r1)); [done|done|done|].
      assert (id (deref (heap s3) u) = row_id row) as Hidrow by (by rewrite Hrow).
      simpl in Hidrow. unfold new. simpl. congruence.
    - exfalso.
      assert (row_json new ∈ deref (heap s3) <$> updatedProfiles) as Hd.
      { rewrite Hshown. apply list_elem_of_fmap_2. by rewrite (ordered_perm _). }
      apply list_elem_of_fmap in Hd as (u & Hu & Huin).
      apply list_elem_of_In in Huin.
      pose proof (find_none _ _ Hfind u Huin) as Hno. simpl in Hno.
      apply String.eqb_neq in Hno. apply Hno.
      assert (id (row_json new) = id (deref (heap s3) u)) as Hidu by (by rewrite Hu).
      simpl in Hidu. done. }
  rewrite Hfind. unfold shownProfiles, shownSelected. cbn -[pretty Database.ordered].
  rewrite Hshown, Ht, Hu, Hui. rewrite <- Htable. by split_and!.
Qed.

Lemma update_row_created (p : ProfileData) (now : nat) (row : Row) :
  row_created (Database.update_row p now row) = row_created row.
Proof. unfold Database.update_row. by destruct (Database.has_id (id p) row). Qed.

Lemma updateProfile_table (p : ProfileData) (r : Remote) :
  table (Database.updateProfile p r).2 = table r ∨
  table (Database.updateProfile p r).2 = Database.update_row p (S (clock r)) <$> table r.
Proof.
  unfold Database.updateProfile, Database.request.
  destruct (hd true (outcomes r)); [|by left]. cbn -[pretty].
  destruct (List.filter _ _) as [|row [|row' rest]]; [by left|by right|by left].
Qed.

(** X5. [updateProfile] never changes the identifier or the creation time of
    a row, and leaves every row with another identifier as it is.  When the
    request succeeds and the identifier is the one of a row, the answer is
    that row with the name and the completed champions sent and a new update
    time, and the row takes this value at its place.  When no row has the
    identifier, or the request fails, the answer is [null] and the table is
    unchanged. *)
Theorem store_update_touches_one_row (p : ProfileData) (r : Remote) :
  row_id <$> table (Database.updateProfile p r).2 = row_id <$> table r ∧
  row_created <$> table (Database.updateProfile p r).2 = row_created <$> table r ∧
  (∀ j row, table r !! j = Some row → row_id row ≠ id p →
            table (Database.updateProfile p r).2 !! j = Some row) ∧
  (NoDup (storeIds r) → id p ∈ storeIds r → hd true (outcomes r) = true →
   ∃ j old,
     table r !! j = Some old ∧ row_id old = id p ∧
     (Database.updateProfile p r).1
       = Some (row_json (mkRow (id p) (name p) (firstplacechampions p)
                           (row_created old) (S (clock r)))) ∧
     table (Database.updateProfile p r).2 !! j
       = Some (mkRow (id p) (name p) (firstplacechampions p)
                 (row_created old) (S (clock r)))) ∧
  ((id p ∉ storeIds r) ∨ hd true (outcomes r) = false →
   (Database.updateProfile p r).1 = None ∧
   table (Database.updateProfile p r).2 = table r).
Proof.
  split_and!.
  - destruct (updateProfile_table p r) as [->| ->]; [done|].
    rewrite <- list_fmap_compose. apply list_fmap_ext. intros _ row _. apply update_row_id.
  - destruct (updateProfile_table p r) as [->| ->]; [done|].
    rewrite <- list_fmap_compose. apply list_fmap_ext. intros _ row _.
    apply update_row_created.
  - intros j row Hj Hne. destruct (updateProfile_table p r) as [->| ->]; [done|].
    rewrite list_lookup_fmap, Hj. simpl. by rewrite update_row_other.
  - intros Hnd Hin Hok.
    destruct (updateProfile_found p r Hnd Hin Hok) as (old & Hold & Hid & ->).
    apply list_elem_of_lookup in Hold as [j Hj]. exists j, old.
    split_and!; [done|done|done|]. cbn -[pretty].
    rewrite list_lookup_fmap, Hj. simpl. by rewrite update_row_same.
  - apply updateProfile_missing.
Qed.

Lemma store_update_touches_one_row_witness :
  NoDup (storeIds (remote twoProfilesPage)) ∧
  "1" ∈ storeIds (remote twoProfilesPage) ∧
  hd true (outcomes (remote twoProfilesPage)) = true ∧
  ∃ j old,
    table (remote twoProfilesPage) !! j = Some old ∧ row_id old = "1" ∧
    (Database.updateProfile (mkProfile "1" "Friend" [] None None)
       (remote twoProfilesPage)).1
    = Some (row_json (mkRow "1" "Friend" [] (row_created old)
                        (S (clock (remote twoProfilesPage))))).
Proof.
  assert (NoDup (storeIds (remote twoProfilesPage))) as Hnd
    by (apply (bool_decide_unpack _); reflexivity).
  assert ("1" ∈ storeIds (remote twoProfilesPage)) as Hin
    by (apply (bool_decide_unpack _); reflexivity).
  split; [done|]. split; [done|]. split; [reflexivity|].
  destruct (store_update_touches_one_row (mkProfile "1" "Friend" [] None None)
              (remote twoProfilesPage)) as (_ & _ & _ & Hfound & _).
  destruct (Hfound Hnd Hin eq_refl) as (j & old & Hj & Hid & Hres & _).
  by exists j, old.
Defined.

(** X6. [Edit Name] followed by typing makes [editingProfile] a copy of
    the selected profile with the name typed and the same array of completed
    champions, and changes nothing else.  [Save] sends [editingProfile]:
    when it is a row of the store and the two requests succeed, the row gets
    the name and the completed champions that [editingProfile] holds, not
    those of the selected profile should they differ, and keeps its creation
    time; the other rows stay; the page shows the rows of the store, the
    saved profile is selected and the editing is closed.  A refresh on a
    notification leaves [editingProfile] as it is. *)
Theorem rename_persists_name (s : Sys) :
  (∀ (sel : Profile) (typed : string),
     selectedProfile (ui s) = Some sel → Manager.editing (ui s) = None →
     let s' := Manager.performAll [Manager.EditName; Manager.TypeName typed] s in
     Manager.editing (ui s')
       = Some (mkProfile (id sel) typed (firstplacechampions sel)
                 (created_at sel) (updated_at sel)) ∧
     selectedProfile (ui s') = Some sel ∧ profiles (ui s') = profiles (ui s) ∧
     heap s' = heap s ∧ remote s' = remote s) ∧
  (∀ e : Profile,
     Manager.editing (ui s) = Some e →
     NoDup (storeIds (remote s)) → id e ∈ storeIds (remote s) →
     hd true (outcomes (remote s)) = true →
     hd true (tl (outcomes (remote s))) = true →
     ∃ old, old ∈ table (remote s) ∧ row_id old = id e ∧
       let new := mkRow (id e) (name e) (heap_get (heap s) (firstplacechampions e))
                    (row_created old) (S (clock (remote s))) in
       new ∈ table (remote (Manager.perform Manager.Save s)) ∧
       (∀ j row, table (remote s) !! j = Some row → row_id row ≠ id e →
          table (remote (Manager.perform Manager.Save s)) !! j = Some row) ∧
       shownProfiles (Manager.perform Manager.Save s)
         = row_json <$> Database.ordered (table (remote (Manager.perform Manager.Save s))) ∧
       shownSelected (Manager.perform Manager.Save s) = Some (row_json new) ∧
       editingProfile (ui (Manager.perform Manager.Save s)) = None) ∧
  editingProfile (ui (Manager.perform Manager.Realtime s)) = editingProfile (ui s).
Proof.
  split_and!.
  - intros sel typed Hsel Hedit.
    unfold Manager.performAll. cbn [foldl Manager.perform]. rewrite Hsel, Hedit.
    set (s1 := with_ui (setEditingProfile (Some sel)) s).
    assert (Manager.editing (ui s1) = Some sel) as ->.
    { unfold Manager.editing, s1. cbn. by rewrite Hsel, String.eqb_refl. }
    unfold Manager.editing, s1. cbn. by rewrite Hsel, String.eqb_refl.
  - intros e Hedit Hnd Hin Hok1 Hok2. cbn [Manager.perform]. rewrite Hedit.
    destruct (handleUpdateProfile_ok e s Hnd Hin Hok1 Hok2)
      as (old & Hold & Hid & Ht & Hnew & Hshown & Hselected & Hclosed).
    exists old. split; [done|]. split; [done|]. simpl.
    split_and!; [done| |done|done|done].
    intros j row Hj Hne. rewrite Ht, list_lookup_fmap, Hj. simpl.
    by rewrite update_row_other.
  - cbn [Manager.perform].
    destruct (await_getProfiles_frame s) as (Hui & _).
    destruct (Manager.await_getProfiles s) as [updatedProfiles s1]. simpl in Hui.
    unfold Manager.onRealtimeUpdate. cbn.
    destruct updatedProfiles; cbn; by rewrite <- Hui.
Qed.

(** The name of the first profile is being edited when another session
    completes a champion on it and the notification refreshes the page: the
    page shows the champion, and [Save] stores the name typed with the
    champions of the copy made at [Edit Name], which has none. *)
Lemma rename_persists_name_witness :
  let typed :=
    Manager.performAll [Manager.EditName; Manager.TypeName "Myself"] twoProfilesPage in
  let refreshed :=
    Manager.perform Manager.Realtime
      (with_remote
         (Database.updateProfile (mkProfile "0" "Me" ["Lux"] None None) (remote typed)).2
         typed) in
  Manager.editing (ui refreshed) = Some (mkProfile "0" "Myself" 0 (Some "0") (Some "0")) ∧
  firstplacechampions <$> shownSelected refreshed = Some ["Lux"] ∧
  name <$> shownSelected (Manager.perform Manager.Save refreshed) = Some "Myself" ∧
  firstplacechampions <$> shownSelected (Manager.perform Manager.Save refreshed) = Some [].
Proof.
  intros typed refreshed.
  split; [reflexivity|]. split; [reflexivity|].
  assert (NoDup (storeIds (remote refreshed))) as Hnd
    by (apply (bool_decide_unpack _); reflexivity).
  assert ("0" ∈ storeIds (remote refreshed)) as Hin
    by (apply (bool_decide_unpack _); reflexivity).
  destruct (rename_persists_name refreshed) as (_ & Hsave & _).
  destruct (Hsave (mkProfile "0" "Myself" 0 (Some "0") (Some "0"))
              eq_refl Hnd Hin eq_refl eq_refl)
    as (old & _ & _ & _ & _ & _ & -> & _).
  split; reflexivity.
Defined.

(** X7. Toggling a champion on the selected profile, when it is a row of the
    store and the two requests succeed: the row's completed champions become
    the toggled champions of the page, whatever the row held before; no other
    row changes; the page shows the rows of the store and the toggled profile
    is selected. *)
Theorem toggle_persists_page_set (champion : string) (s : Sys) (sel : Profile) :
  selectedProfile (ui s) = Some sel →
  firstplacechampions sel < length (heap s) →
  NoDup (storeIds (remote s)) → id sel ∈ storeIds (remote s) →
  hd true (outcomes (remote s)) = true →
  hd true (tl (outcomes (remote s))) = true →
  ∃ old, old ∈ table (remote s) ∧ row_id old = id sel ∧
    let new := mkRow (id sel) (name sel)
                 (Manager.toggleChampion champion (heap_get (heap s) (firstplacechampions sel)))
                 (row_created old) (S (clock (remote s))) in
    new ∈ table (remote (Manager.toggleChampionWin champion s)) ∧
    (∀ row, row ∈ table (remote (Manager.toggleChampionWin champion s)) →
       row_id row = id sel → row = new) ∧
    (∀ j row, table (remote s) !! j = Some row → row_id row ≠ id sel →
       table (remote (Manager.toggleChampionWin champion s)) !! j = Some row) ∧
    shownProfiles (Manager.toggleChampionWin champion s)
      = row_json <$> Database.ordered (table (remote (Manager.toggleChampionWin champion s))) ∧
    shownSelected (Manager.toggleChampionWin champion s) = Some (row_json new).
Proof.
  intros Hsel Hloc Hnd Hin Hok1 Hok2. unfold Manager.toggleChampionWin. rewrite Hsel.
  cbn [firstplacechampions id name created_at updated_at].
  set (toggled := Manager.toggleChampion champion (heap_get (heap s) (firstplacechampions sel))).
  set (s1 := with_heap (<[firstplacechampions sel := toggled]> (heap s)) s).
  set (p := mkProfile (id sel) (name sel) (firstplacechampions sel)
              (created_at sel) (updated_at sel)).
  assert (heap_get (heap s1) (firstplacechampions p) = toggled) as Hcell.
  { unfold heap_get. simpl. by rewrite list_lookup_insert_eq. }
  destruct (handleUpdateProfile_ok p s1 Hnd Hin Hok1 Hok2)
    as (old & Hold & Hid & Ht & Hnew & Hshown & Hselected & _).
  rewrite Hcell in Hnew, Hselected.
  exists old. split; [done|]. split; [done|].
  cbn [id name] in Hnew, Hselected.
  change (clock (remote s1)) with (clock (remote s)) in *.
  change (table (remote s1)) with (table (remote s)) in *.
  split_and!; [done| | |done|done].
  - intros row Hrow Hrowid.
    assert (NoDup (row_id <$> table (remote (Manager.handleUpdateProfile p s1)))) as Hnd'.
    { rewrite Ht, <- list_fmap_compose.
      erewrite list_fmap_ext; [exact Hnd|]. intros _ r0 _. apply update_row_id. }
    by apply (unique_by_id _ _ _ Hnd' Hrow Hnew).
  - intros j row Hj Hne. rewrite Ht, list_lookup_fmap, Hj. simpl.
    by rewrite update_row_other.
Qed.

Lemma toggle_persists_page_set_witness :
  selectedProfile (ui twoProfilesPage)
    = Some (mkProfile "0" "Me" 0 (Some "0") (Some "0")) ∧
  firstplacechampions <$> shownSelected (Manager.toggleChampionWin "Ahri" twoProfilesPage)
    = Some ["Ahri"].
Proof.
  split; [reflexivity|].
  assert (NoDup (storeIds (remote twoProfilesPage))) as Hnd
    by (apply (bool_decide_unpack _); reflexivity).
  assert ("0" ∈ storeIds (remote twoProfilesPage)) as Hin
    by (apply (bool_decide_unpack _); reflexivity).
  destruct (toggle_persists_page_set "Ahri" twoProfilesPage
              (mkProfile "0" "Me" 0 (Some "0") (Some "0")) eq_refl)
    as (old & _ & _ & _ & _ & _ & _ & ->); [vm_compute; lia|done|done|done|done|].
  reflexivity.
Defined.

(** ** Mounting, and the refresh on a notification *)

Lemma loadProfiles_flags (s : Sys) :
  loading (ui (Manager.loadProfiles s)) = false ∧
  connectionStatus (ui (Manager.loadProfiles s)) = connectionStatus (ui s).
Proof.
  unfold Manager.loadProfiles. rewrite await_getProfiles_with_ui.
  destruct (await_getProfiles_frame s) as (Hui & _).
  destruct (Manager.await_getProfiles s) as [stored s1]. simpl in *.
  destruct (length stored =? 0); [|simpl; by rewrite Hui].
  unfold Manager.await_createProfile. simpl.
  destruct (Database.createProfile "Me" (remote s1)) as [[d1|] r2]; simpl;
    destruct (Database.createProfile "My Friend" r2) as [[d2|] r3]; simpl;
    by rewrite Hui.
Qed.

(** X8. Mounting in front of a well-formed store whose requests all succeed:
    the connection is reported as established and loading ends; the page
    shows at least one profile and the first one is selected; the invariant
    of the session holds from then on.  A store with rows is shown as it is
    and is not written; in front of an empty store the page shows the two
    defaults "Me" and "My Friend". *)
Theorem mount_connects_and_loads (s : Sys) :
  store_wf (remote s) → outcomes (remote s) = [] →
  connectionStatus (ui (Manager.mountEffect s)) = "Connected" ∧
  loading (ui (Manager.mountEffect s)) = false ∧
  session_inv (Manager.mountEffect s) ∧
  profiles (ui (Manager.mountEffect s)) ≠ [] ∧
  shownSelected (Manager.mountEffect s) = head (shownProfiles (Manager.mountEffect s)) ∧
  (table (remote s) ≠ [] →
     shownProfiles (Manager.mountEffect s) = row_json <$> Database.ordered (table (remote s)) ∧
     table (remote (Manager.mountEffect s)) = table (remote s)) ∧
  (table (remote s) = [] →
     name <$> shownProfiles (Manager.mountEffect s) = ["Me"; "My Friend"] ∧
     row_name <$> table (remote (Manager.mountEffect s)) = ["Me"; "My Friend"]).
Proof.
  intros Hwf Ho. unfold Manager.mountEffect, Database.testConnection, Database.request.
  rewrite Ho. cbn [hd tl fst snd].
  set (s1 := with_ui (setConnectionStatus "Connected") (with_remote _ s)).
  assert (store_wf (remote s1)) as Hwf1 by exact Hwf.
  assert (outcomes (remote s1) = []) as Ho1 by reflexivity.
  assert (table (remote s1) = table (remote s)) as Ht1 by reflexivity.
  assert (connectionStatus (ui s1) = "Connected") as Hc1 by reflexivity.
  clearbody s1.
  destruct (loadProfiles_flags s1) as [Hloading Hstatus].
  destruct (loadProfiles_establishes s1 Hwf1 (or_intror Ho1)) as [Hinv Hrel].
  destruct (Hrel Ho1) as [_ Hshown].
  destruct (getProfiles_result (remote s1)) as [Hdata _]. rewrite Ho1 in Hdata. simpl in Hdata.
  assert (shownSelected (Manager.loadProfiles s1)
          = head (shownProfiles (Manager.loadProfiles s1))) as Hsel.
  { destruct (decide ((Database.getProfiles (remote s1)).1 = [])) as [Hnil|Hne].
    - by destruct (loadProfiles_seeded s1 Hnil) as (_ & _ & ? & _).
    - destruct (loadProfiles_stored s1 Hne) as (-> & -> & _). done. }
  split_and!; [congruence|done|done|done|done| |].
  - intros Hne. rewrite <- Ht1 in *.
    assert ((Database.getProfiles (remote s1)).1 ≠ []) as Hne'.
    { rewrite Hdata. intros Hnil. apply fmap_nil_inv, ordered_nil_inv in Hnil. done. }
    destruct (loadProfiles_stored s1 Hne') as (Hp & _ & Hr & _).
    rewrite Hp, Hdata, Hr. split; [done|].
    by rewrite (proj2 (getProfiles_result (remote s1))).
  - intros Hnil. rewrite <- Ht1 in Hnil.
    assert ((Database.getProfiles (remote s1)).1 = []) as Hnil'.
    { rewrite Hdata, Hnil. done. }
    destruct (loadProfiles_seeded s1 Hnil') as (Hn & _ & _ & Hrows & _).
    rewrite Ho1 in Hn, Hrows. rewrite Hnil in Hrows. simpl in Hn, Hrows. done.
Qed.

Lemma mount_connects_and_loads_witness :
  store_wf (remote (firstRender [] [] emptyBrowser)) ∧
  name <$> shownProfiles (Manager.mountEffect (firstRender [] [] emptyBrowser))
    = ["Me"; "My Friend"].
Proof.
  assert (store_wf (remote (firstRender [] [] emptyBrowser))) as Hwf.
  { split; [apply NoDup_nil_2|]. intros i Hi. by apply elem_of_nil in Hi. }
  split; [done|].
  apply (mount_connects_and_loads (firstRender [] [] emptyBrowser) Hwf eq_refl).
  reflexivity.
Defined.

(** X9. The refresh that a notification starts: when the fetch succeeds the
    page shows the rows of the store, and if there is any the first profile
    becomes the selected one, whichever profile was selected before; when
    the fetch fails, or the store is empty, the page shows no profile and the
    selection stays what it was.  The store is not written. *)
Theorem realtime_refresh_selects_first (s : Sys) :
  table (remote (Manager.perform Manager.Realtime s)) = table (remote s) ∧
  (hd true (outcomes (remote s)) = true →
     shownProfiles (Manager.perform Manager.Realtime s)
       = row_json <$> Database.ordered (table (remote s)) ∧
     (table (remote s) ≠ [] →
        shownSelected (Manager.perform Manager.Realtime s)
        = head (shownProfiles (Manager.perform Manager.Realtime s)) ∧
        shownSelected (Manager.perform Manager.Realtime s) ≠ None)) ∧
  (hd true (outcomes (remote s)) = false ∨ table (remote s) = [] →
     shownProfiles (Manager.perform Manager.Realtime s) = [] ∧
     selectedProfile (ui (Manager.perform Manager.Realtime s)) = selectedProfile (ui s)).
Proof.
  cbn [Manager.perform].
  pose proof (await_getProfiles_shown s) as Hshown.
  destruct (await_getProfiles_frame s) as (Hui & _ & Hr & _ & Hlen).
  destruct (getProfiles_result (remote s)) as [Hdata Hr'].
  rewrite Hr' in Hr.
  destruct (Manager.await_getProfiles s) as [updatedProfiles s1]. simpl in Hshown, Hui, Hr, Hlen.
  unfold Manager.onRealtimeUpdate. cbn [selectedProfile initialState].
  split_and!.
  - destruct (0 <? length updatedProfiles); simpl; by rewrite Hr.
  - intros Hok. rewrite Hok in Hdata.
    split.
    + unfold shownProfiles. destruct (0 <? length updatedProfiles); simpl;
        by rewrite Hshown, Hdata.
    + intros Hne.
      assert (0 < length updatedProfiles) as Hpos.
      { rewrite Hlen, Hdata, length_fmap. unfold Database.ordered. rewrite array_sort_length.
        destruct (table (remote s)); [done|simpl; lia]. }
      apply Nat.ltb_lt in Hpos as Hpos'. rewrite Hpos'.
      unfold shownProfiles, shownSelected. simpl.
      destruct updatedProfiles; [simpl in Hpos; lia|done].
  - intros Hcase.
    assert ((Database.getProfiles (remote s)).1 = []) as Hnil.
    { rewrite Hdata. destruct Hcase as [-> | ->]; [done|]. by destruct (hd true _). }
    rewrite Hnil in Hlen, Hshown. destruct updatedProfiles; [|done]. simpl.
    unfold shownProfiles. simpl. by rewrite Hui.
Qed.

Lemma realtime_refresh_selects_first_witness :
  hd true (outcomes (remote (Manager.perform (Manager.Select 1) twoProfilesPage))) = true ∧
  name <$> shownSelected (Manager.perform (Manager.Select 1) twoProfilesPage)
    = Some "My Friend" ∧
  name <$> shownSelected
             (Manager.perform Manager.Realtime
                (Manager.perform (Manager.Select 1) twoProfilesPage))
    = Some "Me".
Proof.
  split; [reflexivity|]. split; [reflexivity|].
  destruct (realtime_refresh_selects_first
              (Manager.perform (Manager.Select 1) twoProfilesPage)) as (_ & Hok & _).
  destruct (Hok eq_refl) as [Hshown Hsel].
  destruct Hsel as [-> _]; [done|]. rewrite Hshown. reflexivity.
Defined.

(** X10. When the awaited fetch settles, with a result or with a rejection,
    [isProcessing] is cleared and no request is left in flight: the callback
    is called once with the result, and not at all on a rejection; the next
    notification on the joined channel starts a new request. *)
Theorem subscription_recovers_after_settle (before : list Subscription.Event)
    (result : option (list ProfileData)) :
  let st := Subscription.after Subscription.subscribeToProfiles before in
  Subscription.joined st = true →
  Subscription.isProcessing st = true →
  let settled := Subscription.step st (Subscription.FetchSettled result) in
  let next := Subscription.step settled.1 Subscription.Notification in
  Subscription.isProcessing settled.1 = false ∧
  Subscription.inFlight settled.1 = 0 ∧
  settled.2 = (match result with Some fetched => [fetched] | None => [] end) ∧
  Subscription.isProcessing next.1 = true ∧
  Subscription.inFlight next.1 = 1 ∧
  Subscription.started next.1 = S (Subscription.started st).
Proof.
  intros st Hjoined Hproc settled next.
  assert (Subscription.consistent st) as Hc.
  { apply SubscriptionFacts.run_consistent. reflexivity. }
  unfold Subscription.consistent in Hc. rewrite Hproc in Hc.
  unfold next, settled, Subscription.step, Subscription.processUpdate_resume,
    Subscription.processUpdate_start.
  rewrite Hc. simpl. rewrite Hjoined. simpl. done.
Qed.

Lemma subscription_recovers_after_settle_witness :
  Subscription.joined
    (Subscription.after Subscription.subscribeToProfiles [Subscription.Notification]) = true ∧
  Subscription.isProcessing
    (Subscription.after Subscription.subscribeToProfiles [Subscription.Notification]) = true ∧
  Subscription.started
    (Subscription.after Subscription.subscribeToProfiles
       [Subscription.Notification; Subscription.FetchSettled None;
        Subscription.Notification]) = 2.
Proof.
  split; [reflexivity|]. split; [reflexivity|].
  apply (subscription_recovers_after_settle [Subscription.Notification] None eq_refl eq_refl).
Defined.

(** ** The local store: reading back, deleting, and what is never touched *)

Lemma find_insert_first {A} (f : A → bool) (l : list A) (i : nat) (p : A) :
  findIndex f l = Some i → f p = true → List.find f (<[i := p]> l) = Some p.
Proof.
  revert i. induction l as [|y l IH]; intros i; simpl; [done|].
  destruct (f y) eqn:Hy.
  - intros [= <-] Hp. simpl. by rewrite Hp.
  - intros Hi Hp. apply fmap_Some in Hi as (k & Hk & ->). simpl. rewrite Hy. by apply IH.
Qed.

Lemma find_push_absent {A} (f : A → bool) (l : list A) (p : A) :
  findIndex f l = None → f p = true → List.find f (l ++ [p]) = Some p.
Proof.
  induction l as [|y l IH]; simpl; intros Hn Hp; [by rewrite Hp|].
  destruct (f y); [done|]. apply fmap_None in Hn. by apply IH.
Qed.

Lemma findIndex_insert_first {A} (f : A → bool) (l : list A) (i : nat) (p : A) :
  findIndex f l = Some i → f p = true → findIndex f (<[i := p]> l) = Some i.
Proof.
  revert i. induction l as [|y l IH]; intros i; simpl; [done|].
  destruct (f y) eqn:Hy.
  - intros [= <-] Hp. simpl. by rewrite Hp.
  - intros Hi Hp. apply fmap_Some in Hi as (k & Hk & ->). simpl. rewrite Hy.
    by rewrite (IH k Hk Hp).
Qed.

Lemma findIndex_push_absent {A} (f : A → bool) (l : list A) (p : A) :
  findIndex f l = None → f p = true → findIndex f (l ++ [p]) = Some (length l).
Proof.
  induction l as [|y l IH]; simpl; intros Hn Hp; [by rewrite Hp|].
  destruct (f y); [done|]. apply fmap_None in Hn. by rewrite IH.
Qed.

Lemma setProfiles_twice (ps qs : list ProfileData) (b : Browser) :
  Storage.setProfiles qs (Storage.setProfiles ps b) = Storage.setProfiles qs b.
Proof.
  unfold Storage.setProfiles. destruct b as [[] m]; simpl; [|done].
  by rewrite insert_insert_eq.
Qed.

(** X11. In a browser, on a local store that holds a profile collection:
    after [updateProfile p], [getProfile] of the identifier of [p] returns
    [p]; and a second [updateProfile p] changes nothing any more. *)
Theorem local_update_then_get (p : ProfileData) (b : Browser) (ps : list ProfileData) :
  hasWindow b = true →
  Storage.getProfiles b = Some ps →
  ∃ b', Storage.updateProfile p b = Some b' ∧
        Storage.getProfile (id p) b' = Some (Some p) ∧
        Storage.updateProfile p b' = Some b'.
Proof.
  intros Hw Hget. unfold Storage.updateProfile at 1. rewrite Hget. simpl.
  eexists. split; [reflexivity|].
  set (ps' := match findIndex _ ps with Some index => <[index := p]> ps | None => push ps p end).
  assert (Storage.getProfiles (Storage.setProfiles ps' b) = Some ps') as Hget'
    by (by apply getProfiles_setProfiles).
  assert (List.find (λ q : ProfileData, String.eqb (id q) (id p)) ps' = Some p ∧
          match findIndex (λ q : ProfileData, String.eqb (id q) (id p)) ps' with
          | Some index => <[index := p]> ps'
          | None => push ps' p
          end = ps') as [Hfind Hagain].
  { unfold ps'.
    destruct (findIndex (λ q : ProfileData, String.eqb (id q) (id p)) ps) as [i|] eqn:Hi.
    - split; [apply (find_insert_first _ _ _ _ Hi), String.eqb_refl|].
      rewrite (findIndex_insert_first _ _ _ _ Hi) by apply String.eqb_refl.
      apply list_insert_insert_eq.
    - split; [apply (find_push_absent _ _ _ Hi), String.eqb_refl|].
      unfold push. rewrite (findIndex_push_absent _ _ _ Hi) by apply String.eqb_refl.
      rewrite insert_app_r_alt by lia. by rewrite Nat.sub_diag. }
  split.
  - unfold Storage.getProfile. rewrite Hget'. simpl. by rewrite Hfind.
  - unfold Storage.updateProfile. rewrite Hget'. simpl. rewrite Hagain.
    by rewrite setProfiles_twice.
Qed.

Lemma local_update_then_get_witness :
  hasWindow browserWithZed = true ∧
  Storage.getProfiles browserWithZed = Some [zedData] ∧
  ∃ b', Storage.updateProfile (mkProfile "7" "Ahri fan" ["Ahri"] None None) browserWithZed
        = Some b' ∧
        Storage.getProfile "7" b' = Some (Some (mkProfile "7" "Ahri fan" ["Ahri"] None None)).
Proof.
  split; [reflexivity|]. split; [reflexivity|].
  destruct (local_update_then_get (mkProfile "7" "Ahri fan" ["Ahri"] None None)
              browserWithZed [zedData] eq_refl eq_refl) as (b' & Hupd & Hget & _).
  by exists b'.
Defined.

(** X12. In a browser, on a local store that holds a profile collection:
    [deleteProfile] stores the collection without the profiles of the given
    identifier, the others in their order; [getProfile] of the identifier
    then finds nothing; and when no profile has the identifier the collection
    read back is the one that was there. *)
Theorem local_delete_removes_by_id (i : string) (b : Browser) (ps : list ProfileData) :
  hasWindow b = true →
  Storage.getProfiles b = Some ps →
  ∃ b', Storage.deleteProfile i b = Some b' ∧
        Storage.getProfiles b'
          = Some (List.filter (λ q, negb (String.eqb (id q) i)) ps) ∧
        Storage.getProfile i b' = Some None ∧
        (∀ q, q ∈ ps → id q ≠ i →
              ∃ ps', Storage.getProfiles b' = Some ps' ∧ q ∈ ps') ∧
        ((i ∉ id <$> ps) → Storage.getProfiles b' = Some ps).
Proof.
  intros Hw Hget. unfold Storage.deleteProfile. rewrite Hget. simpl.
  eexists. split; [reflexivity|].
  set (kept := List.filter (λ q : ProfileData, negb (String.eqb (id q) i)) ps).
  assert (Storage.getProfiles (Storage.setProfiles kept b) = Some kept) as Hget'
    by (by apply getProfiles_setProfiles).
  split_and!.
  - done.
  - unfold Storage.getProfile. rewrite Hget'. simpl. f_equal.
    destruct (List.find _ kept) as [q|] eqn:Hfind; [|done].
    apply find_some in Hfind as [Hq Hid]. apply filter_In in Hq as [_ Hq].
    by rewrite Hid in Hq.
  - intros q Hq Hne. exists kept. split; [done|].
    apply list_elem_of_In, filter_In. split; [by apply list_elem_of_In|].
    by apply negb_true_iff, String.eqb_neq.
  - intros Hn. rewrite Hget'. f_equal. apply filter_all.
    apply Forall_forall. intros q Hq. apply negb_true_iff, String.eqb_neq.
    intros Heq. apply Hn. rewrite <- Heq. by apply list_elem_of_fmap_2.
Qed.

Lemma local_delete_removes_by_id_witness :
  hasWindow browserWithZed = true ∧
  Storage.getProfiles browserWithZed = Some [zedData] ∧
  ∃ b', Storage.deleteProfile "0" browserWithZed = Some b' ∧
        Storage.getProfiles b' = Some [].
Proof.
  split; [reflexivity|]. split; [reflexivity|].
  destruct (local_delete_removes_by_id "0" browserWithZed [zedData] eq_refl eq_refl)
    as (b' & Hdel & Hget & _).
  by exists b'.
Defined.

(** X13. The local store module writes under the key "arena-god-profiles"
    only: whatever [setProfiles], [updateProfile] and [deleteProfile] do,
    every other key of [localStorage] keeps its value.  Where [window] is not
    defined nothing is read or written: the collection read is empty and the
    three functions leave [localStorage] as it is. *)
Theorem local_store_touches_one_key (b : Browser) :
  (∀ ps k, k ≠ Storage.PROFILES →
     localStorage (Storage.setProfiles ps b) !! k = localStorage b !! k) ∧
  (∀ p b' k, Storage.updateProfile p b = Some b' → k ≠ Storage.PROFILES →
     localStorage b' !! k = localStorage b !! k) ∧
  (∀ i b' k, Storage.deleteProfile i b = Some b' → k ≠ Storage.PROFILES →
     localStorage b' !! k = localStorage b !! k) ∧
  (hasWindow b = false →
     Storage.getProfiles b = Some [] ∧
     (∀ ps, Storage.setProfiles ps b = b) ∧
     (∀ p, Storage.updateProfile p b = Some b) ∧
     (∀ i, Storage.deleteProfile i b = Some b) ∧
     (∀ i, Storage.getProfile i b = Some None)).
Proof.
  assert (∀ ps k, k ≠ Storage.PROFILES →
            localStorage (Storage.setProfiles ps b) !! k = localStorage b !! k) as Hset.
  { intros ps k Hk. unfold Storage.setProfiles. destruct (hasWindow b); simpl; [|done].
    by rewrite lookup_insert_ne. }
  split_and!.
  - done.
  - intros p b' k Hupd Hk. unfold Storage.updateProfile in Hupd.
    destruct (Storage.getProfiles b) as [ps|]; [|done]. simpl in Hupd.
    injection Hupd as <-. by apply Hset.
  - intros i b' k Hdel Hk. unfold Storage.deleteProfile in Hdel.
    destruct (Storage.getProfiles b) as [ps|]; [|done]. simpl in Hdel.
    injection Hdel as <-. by apply Hset.
  - intros Hw.
    assert (Storage.getProfiles b = Some []) as Hget
      by (unfold Storage.getProfiles; by rewrite Hw).
    assert (∀ ps, Storage.setProfiles ps b = b) as Hno
      by (intros ps; unfold Storage.setProfiles; by rewrite Hw).
    split_and!; [done|done| | |].
    + intros p. unfold Storage.updateProfile. rewrite Hget. simpl. by rewrite Hno.
    + intros i. unfold Storage.deleteProfile. rewrite Hget. simpl. by rewrite Hno.
    + intros i. unfold Storage.getProfile. by rewrite Hget.
Qed.

Lemma local_store_touches_one_key_witness :
  Storage.RIOT_ID ≠ Storage.PROFILES ∧
  localStorage
    (Storage.setProfiles [zedData]
       (mkBrowser true (<[Storage.RIOT_ID := JString "me#1"]> ∅)))
  !! Storage.RIOT_ID = Some (JString "me#1").
Proof.
  split; [discriminate|].
  rewrite (proj1 (local_store_touches_one_key
                    (mkBrowser true (<[Storage.RIOT_ID := JString "me#1"]> ∅))));
    [reflexivity|discriminate].
Defined.

Lemma failed_toggle_effect_witness :
  hd true (outcomes (remote zedPage)) = false ∧
  selectedProfile (ui zedPage) = Some zedObject ∧
  firstplacechampions <$> shownSelected (Manager.toggleChampionWin "Zed" zedPage) = Some [].
Proof.
  split; [reflexivity|]. split; [reflexivity|].
  destruct (failed_toggle_effect zedPage zedObject "Zed" eq_refl eq_refl) as (_ & _ & ->);
    [vm_compute; lia|reflexivity].
Defined.

(** ** Champion progress *)

Lemma fmap_unchanged {A} (f : A → A) (l : list A) :
  (∀ x, x ∈ l → f x = x) → f <$> l = l.
Proof.
  induction l as [|x l IH]; intros Hf; [done|].
  rewrite fmap_cons, (Hf x) by left. f_equal. apply IH. intros y Hy. apply Hf. by right.
Qed.

Lemma set_completed_key (pid cn i : string) (v : bool) (now : nat)
    (row : Progress.ChampionProgress) :
  Progress.is_key pid cn (Progress.set_completed i v now row) = Progress.is_key pid cn row.
Proof. unfold Progress.set_completed. by destruct (String.eqb (Progress.id row) i). Qed.

Lemma set_completed_other (i : string) (v : bool) (now : nat)
    (row : Progress.ChampionProgress) :
  Progress.id row ≠ i → Progress.set_completed i v now row = row.
Proof.
  intros Hne. unfold Progress.set_completed. by apply String.eqb_neq in Hne as ->.
Qed.

(** What the table holds after a toggle whose two requests succeed. *)
Lemma toggleChampionProgress_rows (profileId championName : string) (isCompleted : bool)
    (st : Progress.Store) :
  hd true (Progress.outcomes st) = true →
  hd true (tl (Progress.outcomes st)) = true →
  NoDup (Progress.id <$> Progress.rows st) →
  length (List.filter (Progress.is_key profileId championName) (Progress.rows st)) ≤ 1 →
  (∃ row,
     List.filter (Progress.is_key profileId championName)
       (Progress.rows (Progress.toggleChampionProgress profileId championName isCompleted st).2)
     = [row] ∧
     Progress.is_completed row = isCompleted) ∧
  List.filter (λ row, negb (Progress.is_key profileId championName row))
    (Progress.rows (Progress.toggleChampionProgress profileId championName isCompleted st).2)
  = List.filter (λ row, negb (Progress.is_key profileId championName row)) (Progress.rows st).
Proof.
  intros Hok1 Hok2 Hnd Hone.
  unfold Progress.toggleChampionProgress, Progress.request. rewrite Hok1.
  cbn -[pretty Progress.is_key]. rewrite Hok2.
  destruct (List.filter (Progress.is_key profileId championName) (Progress.rows st))
    as [|found [|more rest]] eqn:Hfilter; cbn -[pretty Progress.is_key].
  - (* no row: one is inserted *)
    set (new := Progress.mkProgress _ profileId championName isCompleted _ _).
    assert (Progress.is_key profileId championName new = true) as Hkey.
    { unfold Progress.is_key, new. cbn. by rewrite !String.eqb_refl. }
    rewrite !List.filter_app, Hfilter. cbn [List.filter].
    rewrite Hkey. cbn [negb app]. split; [|by rewrite app_nil_r].
    exists new. by split.
  - (* one row: it is updated *)
    assert (In found (List.filter (Progress.is_key profileId championName) (Progress.rows st)))
      as Hfound by (rewrite Hfilter; by left).
    apply filter_In in Hfound as [Hin Hkey].
    split.
    + rewrite filter_fmap_comm.
      rewrite (filter_ext _ (Progress.is_key profileId championName))
        by (intros row; apply set_completed_key).
      rewrite Hfilter. cbn -[pretty Progress.is_key].
      unfold Progress.set_completed. rewrite String.eqb_refl.
      eexists. split; reflexivity.
    + rewrite filter_fmap_comm.
      rewrite (filter_ext _ (λ row, negb (Progress.is_key profileId championName row)))
        by (intros row; by rewrite set_completed_key).
      apply fmap_unchanged. intros row Hrow. apply set_completed_other.
      intros Heq. apply list_elem_of_In, filter_In in Hrow as [Hrowin Hrowkey].
      assert (row = found) as ->.
      { clear -Hnd Hin Hrowin Heq. revert Hnd Hin Hrowin.
        induction (Progress.rows st) as [|r rs IH]; simpl; [done|].
        intros Hnd Hin Hrowin. apply NoDup_cons in Hnd as [Hnot Hnd].
        destruct Hin as [->|Hin], Hrowin as [->|Hrowin]; [done| | |by apply IH].
        - exfalso. apply Hnot. rewrite <- Heq.
          by apply list_elem_of_fmap_2, list_elem_of_In.
        - exfalso. apply Hnot. rewrite Heq.
          by apply list_elem_of_fmap_2, list_elem_of_In. }
      by rewrite Hkey in Hrowkey.
  - simpl in Hone. lia.
Qed.

(** X15. [toggleChampionProgress] when its two requests succeed and the table
    holds at most one row for the profile and the champion, with distinct
    row identifiers: the answer is [true]; afterwards the table holds exactly
    one row for the profile and the champion, with the completion flag
    given; and the rows for other profiles or champions are the same, in the
    same order. *)
Theorem progress_toggle_is_upsert (profileId championName : string) (isCompleted : bool)
    (st : Progress.Store) :
  hd true (Progress.outcomes st) = true →
  hd true (tl (Progress.outcomes st)) = true →
  NoDup (Progress.id <$> Progress.rows st) →
  length (List.filter (Progress.is_key profileId championName) (Progress.rows st)) ≤ 1 →
  (Progress.toggleChampionProgress profileId championName isCompleted st).1 = true ∧
  (∃ row,
     List.filter (Progress.is_key profileId championName)
       (Progress.rows (Progress.toggleChampionProgress profileId championName isCompleted st).2)
     = [row] ∧
     Progress.is_completed row = isCompleted ∧
     Progress.profile_id row = profileId ∧
     Progress.champion_name row = championName) ∧
  List.filter (λ row, negb (Progress.is_key profileId championName row))
    (Progress.rows (Progress.toggleChampionProgress profileId championName isCompleted st).2)
  = List.filter (λ row, negb (Progress.is_key profileId championName row)) (Progress.rows st).
Proof.
  intros Hok1 Hok2 Hnd Hone.
  destruct (toggleChampionProgress_rows profileId championName isCompleted st
              Hok1 Hok2 Hnd Hone) as [(row & Hrow & Hflag) Hothers].
  split_and!.
  - (* both branches answer [true] once their write succeeded *)
    unfold Progress.toggleChampionProgress, Progress.request. rewrite Hok1.
    cbn -[pretty Progress.is_key]. rewrite Hok2.
    by destruct (Progress.single _).
  - exists row. split_and!; [done|done| |].
    all: assert (In row (List.filter (Progress.is_key profileId championName)
                      (Progress.rows
                         (Progress.toggleChampionProgress profileId championName
                            isCompleted st).2))) as Hin by (rewrite Hrow; by left).
    all: apply filter_In in Hin as [_ Hkey].
    all: unfold Progress.is_key in Hkey; apply andb_true_iff in Hkey as [Hp Hc].
    + by apply String.eqb_eq in Hp.
    + by apply String.eqb_eq in Hc.
  - exact Hothers.
Qed.

Lemma progress_toggle_is_upsert_witness :
  NoDup (Progress.id <$> [ahriDone]) ∧
  length (List.filter (Progress.is_key "p1" "Ahri") [ahriDone]) ≤ 1 ∧
  Progress.is_completed <$>
    Progress.rows (Progress.toggleChampionProgress "p1" "Ahri" true
                     (Progress.mkStore [ahriDone] 1 0 [] [])).2 = [true].
Proof.
  assert (NoDup (Progress.id <$> [ahriDone])) as Hnd by apply NoDup_singleton.
  split; [done|]. split; [simpl; lia|].
  destruct (progress_toggle_is_upsert "p1" "Ahri" true
              (Progress.mkStore [ahriDone] 1 0 [] []) eq_refl eq_refl Hnd)
    as (_ & _ & _); [simpl; lia|]. reflexivity.
Defined.

(** X16. [toggleChampionProgress] inserts a row whenever its first request
    does not return exactly one row, because the request failed, or no row or
    several rows are there for the profile and the champion, provided the
    insertion succeeds: the table then has one more row for the profile and
    the champion than before.  When the second request fails the answer is
    [false] and the table is unchanged. *)
Theorem progress_toggle_inserts_without_single_row (profileId championName : string)
    (isCompleted : bool) (st : Progress.Store) :
  (hd true (Progress.outcomes st) = false ∨
   length (List.filter (Progress.is_key profileId championName) (Progress.rows st)) ≠ 1 →
   hd true (tl (Progress.outcomes st)) = true →
   (Progress.toggleChampionProgress profileId championName isCompleted st).1 = true ∧
   ∃ new,
     Progress.rows (Progress.toggleChampionProgress profileId championName isCompleted st).2
     = Progress.rows st ++ [new] ∧
     Progress.is_key profileId championName new = true ∧
     Progress.is_completed new = isCompleted ∧
     length (List.filter (Progress.is_key profileId championName)
               (Progress.rows
                  (Progress.toggleChampionProgress profileId championName isCompleted st).2))
     = S (length (List.filter (Progress.is_key profileId championName) (Progress.rows st)))) ∧
  (hd true (tl (Progress.outcomes st)) = false →
   (Progress.toggleChampionProgress profileId championName isCompleted st).1 = false ∧
   Progress.rows (Progress.toggleChampionProgress profileId championName isCompleted st).2
   = Progress.rows st).
Proof.
  split.
  - intros Hcase Hok2.
    assert ((if hd true (Progress.outcomes st)
             then Progress.single
                    (List.filter (Progress.is_key profileId championName) (Progress.rows st))
             else None) = None) as Hnone.
    { destruct Hcase as [->|Hlen]; [done|].
      destruct (hd true (Progress.outcomes st)); [|done].
      destruct (List.filter _ _) as [|found [|more rest]]; simpl in *;
        [done|exfalso; lia|done]. }
    unfold Progress.toggleChampionProgress, Progress.request.
    cbn -[pretty Progress.is_key]. rewrite Hnone, Hok2. cbn -[pretty Progress.is_key].
    split; [done|]. eexists. split; [reflexivity|].
    assert (Progress.is_key profileId championName
              (Progress.mkProgress (pretty (Progress.next_id st)) profileId championName
                 isCompleted (Some (iso (S (S (Progress.clock st)))))
                 (Some (iso (S (S (Progress.clock st)))))) = true) as Hkey.
    { unfold Progress.is_key. cbn. by rewrite !String.eqb_refl. }
    split; [done|]. split; [done|].
    rewrite List.filter_app, length_app. cbn -[pretty Progress.is_key]. rewrite Hkey.
    simpl. lia.
  - intros Hfail. unfold Progress.toggleChampionProgress, Progress.request.
    cbn -[pretty Progress.is_key]. rewrite Hfail.
    by destruct (if hd true (Progress.outcomes st) then _ else None).
Qed.

Lemma progress_toggle_inserts_without_single_row_witness :
  hd true (Progress.outcomes (Progress.mkStore [ahriDone] 1 0 [false] [])) = false ∧
  length (Progress.rows
            (Progress.toggleChampionProgress "p1" "Ahri" true
               (Progress.mkStore [ahriDone] 1 0 [false] [])).2) = 2.
Proof.
  split; [reflexivity|].
  destruct (progress_toggle_inserts_without_single_row "p1" "Ahri" true
              (Progress.mkStore [ahriDone] 1 0 [false] [])) as [Hins _].
  destruct (Hins (or_introl eq_refl) eq_refl) as (_ & new & -> & _). reflexivity.
Defined.

Lemma progress_run_app (st : Progress.SubState) (events later : list Progress.Event) :
  Progress.run st (events ++ later)
  = ((Progress.run (Progress.run st events).1 later).1,
     (Progress.run st events).2 ++ (Progress.run (Progress.run st events).1 later).2).
Proof.
  revert st. induction events as [|e events IH]; intros st; simpl.
  - by destruct (Progress.run st later).
  - destruct (Progress.step st e) as [st1 calls1]. rewrite IH.
    destruct (Progress.run st1 events) as [st2 calls2]. simpl. by rewrite app_assoc.
Qed.

Lemma progress_run_notifications (k : nat) (st : Progress.SubState) :
  Progress.joined st = true →
  Progress.run st (replicate k Progress.Notification)
  = (Progress.mkSub true (k + Progress.inFlight st) (k + Progress.started st), []).
Proof.
  revert st. induction k as [|k IH]; intros st Hj; simpl.
  - destruct st as [j n m]. simpl in *. by subst.
  - rewrite Hj. rewrite IH by done. simpl. f_equal. f_equal; lia.
Qed.

Lemma progress_run_settled (st : Progress.SubState)
    (results : list (list Progress.ChampionProgress)) :
  length results ≤ Progress.inFlight st →
  (Progress.run st (Progress.FetchSettled <$> results)).2 = results.
Proof.
  revert st. induction results as [|r results IH]; intros st Hlen; [done|].
  destruct st as [j [|n] m]; [simpl in Hlen; lia|].
  rewrite fmap_cons. cbn [Progress.run Progress.step Progress.inFlight Nat.eqb].
  cbn [Progress.joined Progress.started pred].
  specialize (IH (Progress.mkSub j n m) ltac:(simpl in *; lia)).
  destruct (Progress.run (Progress.mkSub j n m) (Progress.FetchSettled <$> results))
    as [st2 calls2]. simpl in *. by rewrite IH.
Qed.

(** X17. The subscription to champion progress does not coalesce: on a joined
    channel, [k] notifications in a row start [k] requests, all awaiting
    their response at once, where the subscription to profiles starts one
    and drops the others; and every response is handed to the callback. *)
Theorem progress_notifications_are_not_coalesced (k : nat)
    (results : list (list Progress.ChampionProgress)) :
  length results ≤ k →
  let notified := Progress.run Progress.subscribeToChampionProgress
                    (replicate k Progress.Notification) in
  Progress.inFlight notified.1 = k ∧
  Progress.started notified.1 = k ∧
  notified.2 = [] ∧
  (Progress.run notified.1 (Progress.FetchSettled <$> results)).2 = results ∧
  Subscription.inFlight
    (Subscription.after Subscription.subscribeToProfiles
       (replicate (S k) Subscription.Notification)) = 1.
Proof.
  intros Hlen notified.
  pose proof (progress_run_notifications k) as Hrun.
  assert (notified = (Progress.mkSub true k k, [])) as Hn.
  { unfold notified. rewrite Hrun by done. simpl. by rewrite !Nat.add_0_r. }
  rewrite Hn. simpl. split_and!; try done.
  - by apply progress_run_settled.
  - assert (∀ n, Subscription.run (Subscription.mkSub true true 1 1)
                   (replicate n Subscription.Notification)
                 = (Subscription.mkSub true true 1 1, [])) as Hdrop.
    { induction n as [|n IH]; [done|].
      cbn [replicate Subscription.run Subscription.step Subscription.joined
           Subscription.processUpdate_start Subscription.isProcessing].
      by rewrite IH. }
    unfold Subscription.after.
    cbn [replicate Subscription.run Subscription.step Subscription.joined
         Subscription.processUpdate_start Subscription.isProcessing
         Subscription.subscribeToProfiles Subscription.inFlight Subscription.started].
    by rewrite Hdrop.
Qed.

Lemma progress_notifications_are_not_coalesced_witness :
  length [[ahriDone]; []] ≤ 3 ∧
  Progress.inFlight
    (Progress.run Progress.subscribeToChampionProgress
       (replicate 3 Progress.Notification)).1 = 3.
Proof.
  split; [simpl; lia|].
  apply (progress_notifications_are_not_coalesced 3 [[ahriDone]; []]). simpl. lia.
Defined.

(** ** Which arrays the handlers write *)

Lemma await_getProfiles_heap (s : Sys) :
  heap s `prefix_of` heap (Manager.await_getProfiles s).2.
Proof.
  destruct (await_getProfiles_frame s) as (_ & _ & _ & -> & _). by eexists.
Qed.

Lemma await_createProfile_heap (n : string) (s : Sys) :
  heap s `prefix_of` heap (Manager.await_createProfile n s).2.
Proof.
  unfold Manager.await_createProfile.
  destruct (Database.createProfile n (remote s)) as [[d|] r1]; simpl; [by eexists|done].
Qed.

Lemma handleUpdateProfile_heap (p : Profile) (s : Sys) :
  heap s `prefix_of` heap (Manager.handleUpdateProfile p s).
Proof.
  destruct (handleUpdateProfile_request p s) as (newArrays & _ & -> & _). by eexists.
Qed.

Lemma loadProfiles_heap (s : Sys) : heap s `prefix_of` heap (Manager.loadProfiles s).
Proof.
  unfold Manager.loadProfiles.
  pose proof (await_getProfiles_heap (with_ui (setLoading true) s)) as H1.
  destruct (Manager.await_getProfiles (with_ui (setLoading true) s)) as [stored s1].
  simpl in H1. destruct (length stored =? 0); [|done].
  pose proof (await_createProfile_heap "Me" s1) as H2.
  destruct (Manager.await_createProfile "Me" s1) as [me s2].
  pose proof (await_createProfile_heap "My Friend" s2) as H3.
  destruct (Manager.await_createProfile "My Friend" s2) as [friend s3].
  simpl in *. by etrans; [|etrans].
Qed.

Lemma handleAddProfile_heap (s : Sys) : heap s `prefix_of` heap (Manager.handleAddProfile s).
Proof.
  unfold Manager.handleAddProfile.
  destruct (String.eqb (trim (newProfileName (ui s))) ""); [done|].
  pose proof (await_createProfile_heap (trim (newProfileName (ui s))) s) as H1.
  destruct (Manager.await_createProfile (trim (newProfileName (ui s))) s) as [[p|] s1];
    [|done].
  set (s2 := with_ui (setShowAddForm false) (with_ui (setNewProfileName "") s1)).
  pose proof (await_getProfiles_heap s2) as H2.
  destruct (Manager.await_getProfiles s2) as [updatedProfiles s3]. simpl in *. by etrans.
Qed.

Lemma handleDeleteProfile_heap (i : string) (s : Sys) :
  heap s `prefix_of` heap (Manager.handleDeleteProfile i s).
Proof.
  unfold Manager.handleDeleteProfile, Manager.await_deleteProfile.
  destruct (length (profiles (ui s)) <=? 1); [done|].
  destruct (Database.deleteProfile i (remote s)) as [[] r1]; [|done].
  pose proof (await_getProfiles_heap (with_remote r1 s)) as H1.
  destruct (Manager.await_getProfiles (with_remote r1 s)) as [updatedProfiles s2].
  simpl in *. destruct (selectedProfile (ui s)) as [sel|]; [|done].
  by destruct (String.eqb (id sel) i).
Qed.

(** X18. No action but the toggle writes into an array that exists: loading,
    adding, renaming, deleting, selecting and the refresh on a notification
    only add the arrays of the profiles they fetch.  The toggle writes the
    array of the selected profile and no other, whether its requests succeed
    or fail. *)
Theorem only_toggle_writes_an_array (a : Manager.Action) (s : Sys) (l : nat) :
  l < length (heap s) →
  (∀ champion, a ≠ Manager.Toggle champion) ∨
  (∀ sel, selectedProfile (ui s) = Some sel → firstplacechampions sel ≠ l) →
  heap_get (heap (Manager.perform a s)) l = heap_get (heap s) l.
Proof.
  intros Hl Hcase.
  assert (∀ s', heap s `prefix_of` heap s' → heap_get (heap s') l = heap_get (heap s) l)
    as Hkeep.
  { intros s' [newArrays ->]. by apply heap_get_old. }
  destruct a as [|newName| |value| | |champion|i|index|]; cbn [Manager.perform].
  - apply Hkeep, loadProfiles_heap.
  - apply Hkeep, (handleAddProfile_heap (with_ui _ s)).
  - by destruct (selectedProfile (ui s)), (Manager.editing (ui s)).
  - by destruct (Manager.editing (ui s)).
  - destruct (Manager.editing (ui s)); [|done]. apply Hkeep, handleUpdateProfile_heap.
  - by destruct (Manager.editing (ui s)).
  - unfold Manager.toggleChampionWin.
    destruct (selectedProfile (ui s)) as [sel|] eqn:Hsel; [|done].
    cbn [firstplacechampions].
    assert (firstplacechampions sel ≠ l) as Hne.
    { destruct Hcase as [Hno|Hother]; [by destruct (Hno champion)|by apply Hother]. }
    set (s1 := with_heap _ s).
    destruct (handleUpdateProfile_heap
                (mkProfile (id sel) (name sel) (firstplacechampions sel)
                   (created_at sel) (updated_at sel)) s1) as [newArrays ->].
    rewrite heap_get_old by (simpl; by rewrite length_insert).
    unfold heap_get. simpl. by rewrite list_lookup_insert_ne.
  - apply Hkeep, handleDeleteProfile_heap.
  - by destruct (profiles (ui s) !! index).
  - pose proof (await_getProfiles_heap s) as H1.
    destruct (Manager.await_getProfiles s) as [updatedProfiles s1]. simpl in H1.
    unfold Manager.onRealtimeUpdate. simpl.
    destruct (0 <? length updatedProfiles); simpl; by apply (Hkeep s1).
Qed.

Lemma only_toggle_writes_an_array_witness :
  1 < length (heap twoProfilesPage) ∧
  heap_get (heap (Manager.perform (Manager.Toggle "Ahri") twoProfilesPage)) 1 = ["Zed"].
Proof.
  split; [vm_compute; lia|].
  rewrite (only_toggle_writes_an_array (Manager.Toggle "Ahri") twoProfilesPage 1).
  - reflexivity.
  - vm_compute. lia.
  - right. intros sel [= <-]. discriminate.
Defined.

(** ** A write that succeeds, followed by a fetch that fails *)

Lemma await_getProfiles_failed (s : Sys) :
  hd true (outcomes (remote s)) = false →
  Manager.await_getProfiles s
  = ([], with_remote (Database.request CallSelect (remote s)).2 s).
Proof.
  intros Hfail. unfold Manager.await_getProfiles, Database.getProfiles, Database.request.
  rewrite Hfail. simpl. unfold with_heap, with_remote. simpl. by destruct s.
Qed.

(** X19. When a write succeeds and the fetch that follows it fails, the page
    takes the empty answer for the collection: it shows no profile although
    the store holds the rows as written.  After an addition, of a name of
    ASCII characters, the new profile is selected all the same; after a
    deletion the selection is cleared if it was on the deleted profile and
    kept otherwise; after an update the selection is kept. *)
Theorem failed_refetch_empties_page (s : Sys) :
  (ascii_only (newProfileName (ui s)) = true →
   all_space (newProfileName (ui s)) = false →
   hd true (outcomes (remote s)) = true →
   hd true (tl (outcomes (remote s))) = false →
   shownProfiles (Manager.handleAddProfile s) = [] ∧
   name <$> shownSelected (Manager.handleAddProfile s)
     = Some (trim (newProfileName (ui s))) ∧
   row_name <$> table (remote (Manager.handleAddProfile s))
     = (row_name <$> table (remote s)) ++ [trim (newProfileName (ui s))]) ∧
  (∀ i,
   1 < length (profiles (ui s)) →
   hd true (outcomes (remote s)) = true →
   hd true (tl (outcomes (remote s))) = false →
   shownProfiles (Manager.handleDeleteProfile i s) = [] ∧
   table (remote (Manager.handleDeleteProfile i s))
     = List.filter (λ row, negb (String.eqb (row_id row) i)) (table (remote s)) ∧
   selectedProfile (ui (Manager.handleDeleteProfile i s))
     = match selectedProfile (ui s) with
       | Some sel => if String.eqb (id sel) i then None else Some sel
       | None => None
       end) ∧
  (∀ p : Profile,
   NoDup (storeIds (remote s)) → id p ∈ storeIds (remote s) →
   hd true (outcomes (remote s)) = true →
   hd true (tl (outcomes (remote s))) = false →
   shownProfiles (Manager.handleUpdateProfile p s) = [] ∧
   selectedProfile (ui (Manager.handleUpdateProfile p s)) = selectedProfile (ui s) ∧
   table (remote (Manager.handleUpdateProfile p s))
     = Database.update_row (deref (heap s) p) (S (clock (remote s))) <$> table (remote s)).
Proof.
  split_and!.
  - intros _ Hname Hok Hfail.
    assert (trim (newProfileName (ui s)) ≠ "") as Hne.
    { intros Ht. apply trim_empty in Ht. congruence. }
    unfold Manager.handleAddProfile. apply String.eqb_neq in Hne. rewrite Hne.
    rewrite (await_createProfile_ok _ s Hok).
    rewrite await_getProfiles_failed by exact Hfail.
    unfold shownProfiles, shownSelected. cbn -[pretty].
    split; [reflexivity|]. split; [reflexivity|]. rewrite fmap_app. reflexivity.
  - intros i Hmany Hok Hfail. unfold Manager.handleDeleteProfile.
    destruct (Nat.leb_spec (length (profiles (ui s))) 1) as [|_]; [lia|].
    unfold Manager.await_deleteProfile, Database.deleteProfile, Database.request.
    rewrite Hok. cbn -[pretty].
    rewrite await_getProfiles_failed by exact Hfail.
    unfold shownProfiles.
    destruct (selectedProfile (ui s)) as [sel|] eqn:Hsel; [|cbn -[pretty]; by rewrite Hsel].
    destruct (String.eqb (id sel) i); cbn -[pretty]; by rewrite ?Hsel.
  - intros p Hnd Hin Hok Hfail.
    destruct (updateProfile_found (deref (heap s) p) (remote s) Hnd Hin Hok)
      as (old & _ & _ & Hupd).
    unfold Manager.handleUpdateProfile, Manager.await_updateProfile. rewrite Hupd.
    rewrite await_getProfiles_failed by exact Hfail. unfold shownProfiles. by cbn -[pretty].
Qed.

Lemma failed_refetch_empties_page_witness :
  1 < length (profiles (ui (with_remote
                 (mkRemote (table (remote twoProfilesPage)) 2 3 [true; false] [])
                 twoProfilesPage))) ∧
  shownProfiles
    (Manager.handleDeleteProfile "0"
       (with_remote (mkRemote (table (remote twoProfilesPage)) 2 3 [true; false] [])
          twoProfilesPage)) = [] ∧
  length (table (remote
    (Manager.handleDeleteProfile "0"
       (with_remote (mkRemote (table (remote twoProfilesPage)) 2 3 [true; false] [])
          twoProfilesPage)))) = 1.
Proof.
  split; [vm_compute; lia|].
  destruct (failed_refetch_empties_page
              (with_remote (mkRemote (table (remote twoProfilesPage)) 2 3 [true; false] [])
                 twoProfilesPage)) as (_ & Hdel & _).
  destruct (Hdel "0") as (Hshown & Htable & _); [vm_compute; lia|reflexivity|reflexivity|].
  split; [exact Hshown|]. rewrite Htable. reflexivity.
Defined.

(** ** A write that the store refuses *)

(** X20. A write that the store refuses changes nothing.  When the request of
    an addition, an update or a deletion fails, and when an update names a
    profile that is no row of the store, the state variables, the arrays and
    the table are what they were, and exactly one request was made: no fetch
    follows. *)
Theorem refused_write_changes_nothing (s : Sys) :
  (hd true (outcomes (remote s)) = false →
   (∀ p, ui (Manager.handleUpdateProfile p s) = ui s ∧
         heap (Manager.handleUpdateProfile p s) = heap s ∧
         table (remote (Manager.handleUpdateProfile p s)) = table (remote s) ∧
         length (log (remote (Manager.handleUpdateProfile p s)))
           = S (length (log (remote s)))) ∧
   (∀ i, 1 < length (profiles (ui s)) →
         ui (Manager.handleDeleteProfile i s) = ui s ∧
         heap (Manager.handleDeleteProfile i s) = heap s ∧
         table (remote (Manager.handleDeleteProfile i s)) = table (remote s) ∧
         log (remote (Manager.handleDeleteProfile i s)) = log (remote s) ++ [CallDelete i]) ∧
   (all_space (newProfileName (ui s)) = false →
    ascii_only (newProfileName (ui s)) = true →
    ui (Manager.handleAddProfile s) = ui s ∧
    heap (Manager.handleAddProfile s) = heap s ∧
    table (remote (Manager.handleAddProfile s)) = table (remote s) ∧
    log (remote (Manager.handleAddProfile s))
      = log (remote s) ++ [CallInsert (trim (newProfileName (ui s)))])) ∧
  (∀ p : Profile, id p ∉ storeIds (remote s) →
     ui (Manager.handleUpdateProfile p s) = ui s ∧
     heap (Manager.handleUpdateProfile p s) = heap s ∧
     table (remote (Manager.handleUpdateProfile p s)) = table (remote s) ∧
     length (log (remote (Manager.handleUpdateProfile p s)))
       = S (length (log (remote s)))).
Proof.
  split.
  - intros Hfail. split_and!.
    + intros p.
      unfold Manager.handleUpdateProfile, Manager.await_updateProfile,
        Database.updateProfile, Database.request.
      rewrite Hfail. cbn. rewrite length_app. cbn. split_and!; try done. lia.
    + intros i Hmany.
      unfold Manager.handleDeleteProfile, Manager.await_deleteProfile,
        Database.deleteProfile, Database.request.
      apply Nat.leb_gt in Hmany. rewrite Hmany.
      by rewrite Hfail.
    + intros Hname _.
      assert (trim (newProfileName (ui s)) ≠ "") as Hne.
      { intros Hempty. apply trim_empty in Hempty. congruence. }
      apply String.eqb_neq in Hne.
      unfold Manager.handleAddProfile, Manager.await_createProfile,
        Database.createProfile, Database.request.
      rewrite Hne. by rewrite Hfail.
  - intros p Hmissing.
    assert (id (deref (heap s) p) ∉ storeIds (remote s)) as Hm by done.
    destruct (updateProfile_missing (deref (heap s) p) (remote s) (or_introl Hm))
      as [Hnone Htable].
    unfold Manager.handleUpdateProfile, Manager.await_updateProfile.
    destruct (Database.updateProfile (deref (heap s) p) (remote s)) as [answer r1] eqn:Hupd.
    simpl in Hnone, Htable. subst answer. cbn.
    split_and!; try done.
    revert Hupd. unfold Database.updateProfile, Database.request.
    destruct (hd true (outcomes (remote s))).
    + destruct (List.filter _ _) as [|? [|? ?]]; intros [= <-]; cbn;
        rewrite length_app; cbn; lia.
    + intros [= <-]. cbn. rewrite length_app. cbn. lia.
Qed.

Lemma refused_write_changes_nothing_witness :
  hd true (outcomes (remote (with_remote
     (mkRemote (table (remote twoProfilesPage)) 2 3 [false] []) twoProfilesPage))) = false ∧
  1 < length (profiles (ui twoProfilesPage)) ∧
  table (remote (Manager.handleDeleteProfile "0" (with_remote
     (mkRemote (table (remote twoProfilesPage)) 2 3 [false] []) twoProfilesPage)))
  = table (remote twoProfilesPage).
Proof.
  split; [reflexivity|]. split; [vm_compute; lia|].
  destruct (refused_write_changes_nothing (with_remote
     (mkRemote (table (remote twoProfilesPage)) 2 3 [false] []) twoProfilesPage))
    as [Hfailed _].
  destruct (Hfailed eq_refl) as (_ & Hdel & _).
  destruct (Hdel "0") as (_ & _ & -> & _); [vm_compute; lia|reflexivity].
Defined.

(** ** Reading the progress of a profile *)

Lemma filter_filter_and {A} (f g : A → bool) (l : list A) :
  List.filter f (List.filter g l) = List.filter (λ x, g x && f x) l.
Proof.
  induction l as [|x l IH]; [done|]. simpl.
  destruct (g x); simpl; [destruct (f x)|]; by rewrite IH.
Qed.

Lemma toggleChampionProgress_outcomes (profileId championName : string)
    (isCompleted : bool) (st : Progress.Store) :
  Progress.outcomes (Progress.toggleChampionProgress profileId championName isCompleted st).2
  = tl (tl (Progress.outcomes st)).
Proof.
  unfold Progress.toggleChampionProgress, Progress.request.
  cbn -[pretty Progress.is_key].
  destruct (hd true (Progress.outcomes st));
    [destruct (Progress.single _)|];
    cbn -[pretty Progress.is_key];
    by destruct (hd true (tl (Progress.outcomes st))).
Qed.

(** X21. [getChampionProgress] returns rows of the profile asked for only,
    writes nothing, and returns no row when its request fails.  After a
    [toggleChampionProgress] under the conditions of the upsert, a successful
    [getChampionProgress] of the profile returns exactly one row for the
    champion, with the completion flag given, and for the other champions the
    rows that it returned before the toggle. *)
Theorem progress_toggle_then_get (profileId championName : string) (isCompleted : bool)
    (st : Progress.Store) :
  (∀ row, row ∈ (Progress.getChampionProgress profileId st).1 →
          Progress.profile_id row = profileId) ∧
  Progress.rows (Progress.getChampionProgress profileId st).2 = Progress.rows st ∧
  (hd true (Progress.outcomes st) = false →
   (Progress.getChampionProgress profileId st).1 = []) ∧
  (hd true (Progress.outcomes st) = true →
   hd true (tl (Progress.outcomes st)) = true →
   hd true (tl (tl (Progress.outcomes st))) = true →
   NoDup (Progress.id <$> Progress.rows st) →
   length (List.filter (Progress.is_key profileId championName) (Progress.rows st)) ≤ 1 →
   let toggled :=
     (Progress.toggleChampionProgress profileId championName isCompleted st).2 in
   let got := (Progress.getChampionProgress profileId toggled).1 in
   (∃ row,
      List.filter (λ r, String.eqb (Progress.champion_name r) championName) got = [row] ∧
      Progress.is_completed row = isCompleted) ∧
   List.filter (λ r, negb (String.eqb (Progress.champion_name r) championName)) got
   = List.filter (λ r, negb (String.eqb (Progress.champion_name r) championName))
       (Progress.getChampionProgress profileId st).1).
Proof.
  split_and!.
  - intros row. unfold Progress.getChampionProgress, Progress.request.
    destruct (hd true (Progress.outcomes st)); simpl; [|by intros ?%elem_of_nil].
    intros Hrow. apply list_elem_of_In, filter_In in Hrow as [_ Hp].
    by apply String.eqb_eq in Hp.
  - unfold Progress.getChampionProgress, Progress.request.
    by destruct (hd true (Progress.outcomes st)).
  - intros Hfail. unfold Progress.getChampionProgress, Progress.request.
    by rewrite Hfail.
  - intros Hok1 Hok2 Hok3 Hnd Hone toggled got.
    destruct (toggleChampionProgress_rows profileId championName isCompleted st
                Hok1 Hok2 Hnd Hone) as [(row & Hrow & Hflag) Hothers].
    fold toggled in Hrow, Hothers.
    assert (got = List.filter (Progress.of_profile profileId) (Progress.rows toggled)) as ->.
    { unfold got, Progress.getChampionProgress, Progress.request.
      unfold toggled at 1. rewrite toggleChampionProgress_outcomes, Hok3. done. }
    assert ((Progress.getChampionProgress profileId st).1
            = List.filter (Progress.of_profile profileId) (Progress.rows st)) as ->.
    { unfold Progress.getChampionProgress, Progress.request. by rewrite Hok1. }
    split.
    + exists row. split; [|done]. by rewrite filter_filter_and.
    + rewrite !filter_filter_and.
      rewrite !(filter_ext
                 (λ x, Progress.of_profile profileId x
                       && negb (String.eqb (Progress.champion_name x) championName))
                 (λ x, negb (Progress.is_key profileId championName x)
                       && Progress.of_profile profileId x)).
      2,3: intros x; unfold Progress.is_key, Progress.of_profile;
        by destruct (String.eqb (Progress.profile_id x) profileId),
                    (String.eqb (Progress.champion_name x) championName).
      rewrite <- !(filter_filter_and (Progress.of_profile profileId)
                     (λ x, negb (Progress.is_key profileId championName x))).
      by rewrite Hothers.
Qed.

Lemma progress_toggle_then_get_witness :
  NoDup (Progress.id <$> [ahriDone]) ∧
  length (List.filter (Progress.is_key "p1" "Ahri") [ahriDone]) ≤ 1 ∧
  ∃ row,
    List.filter (λ r, String.eqb (Progress.champion_name r) "Ahri")
      (Progress.getChampionProgress "p1"
         (Progress.toggleChampionProgress "p1" "Ahri" true
            (Progress.mkStore [ahriDone] 1 0 [] [])).2).1 = [row] ∧
    Progress.is_completed row = true.
Proof.
  assert (NoDup (Progress.id <$> [ahriDone])) as Hnd by apply NoDup_singleton.
  split; [done|]. split; [simpl; lia|].
  destruct (progress_toggle_then_get "p1" "Ahri" true
              (Progress.mkStore [ahriDone] 1 0 [] [])) as (_ & _ & _ & Hget).
  destruct (Hget eq_refl eq_refl eq_refl Hnd) as [Hrow _]; [simpl; lia|].
  exact Hrow.
Defined.
